(** * The cargo packing engine of optimizer.py

    A shallow embedding of the packing engine (anchor search, the three
    placement strategies, the trial scorer and the statistics
    aggregator), followed by the properties of the engine.

    Conventions of the embedding:
    - Python floats are read as exact rationals ([Q]): comparisons, sums,
      products and quotients are the mathematical ones, and the literals
      0.5, 0.1, 0.2 and 1e-5 are the fractions they denote.
    - Python exceptions are explicit outcomes of a call.
    - Objects mutated in place (items, containers, lists) are passed
      through the functions as values; every trial works on its own
      copies, so nothing is shared between trials but the generator of
      the [random] module, which is threaded through the search.
    - The display colour of an item, drawn from a generator of its own,
      plays no part in packing and is left out. *)

From Stdlib Require Import QArith Qabs Qround Qminmax ZArith List Bool String.
From Stdlib Require Import Lia Lqa.
From Stdlib Require Import PeanoNat Permutation Sorted.
Import ListNotations.

Local Open Scope Q_scope.

(** ** Numbers and their comparisons *)

Definition Qltb (a b : Q) : bool := negb (Qle_bool b a).
Definition Qleb (a b : Q) : bool := Qle_bool a b.
Definition Qeqb (a b : Q) : bool := Qeq_bool a b.

(** Python's [max(a, b)] and [min(a, b)]: the first argument on ties. *)
Definition py_max (a b : Q) : Q := if Qltb a b then b else a.
Definition py_min (a b : Q) : Q := if Qltb b a then b else a.

(** Python's [sum(...)]: a left fold starting from 0. *)
Definition py_sum (qs : list Q) : Q := fold_left Qplus qs 0.

(** ** Outcomes of a call *)

Inductive PyError : Type :=
| TypeError
| IndexError
| ZeroDivisionError.

(** [Unfinished] marks a loop model that ran out of its round budget; the
    engine never produces it (see [solve_packing_finishes]). *)
Inductive outcome (A : Type) : Type :=
| Returned (a : A)
| Raised (e : PyError)
| Unfinished.

Arguments Returned {A} a.
Arguments Raised {A} e.
Arguments Unfinished {A}.

Definition bind {A B} (m : outcome A) (k : A -> outcome B) : outcome B :=
  match m with
  | Returned a => k a
  | Raised e => Raised e
  | Unfinished => Unfinished
  end.

Notation "'do' a <- m ; k" := (bind m (fun a => k))
  (at level 10, a name, m at level 100, k at level 200).
Notation "'do' ' p <- m ; k" := (bind m (fun a => match a with p => k end))
  (at level 10, p pattern, m at level 100, k at level 200).

(** ** Sets as Python builds them

    A Python [set] of numbers keeps one representative per [==] class.
    The iteration order of a set is unspecified; every set of the engine
    is either only tested or sorted on pairwise distinct keys afterwards,
    so the insertion order used here is as good as any other. *)

Section PySet.
Context {A : Type} (eqb : A -> A -> bool).

Definition set_add (v : A) (s : list A) : list A :=
  if existsb (eqb v) s then s else s ++ [v].

Definition py_set (vs : list A) : list A :=
  fold_left (fun s v => set_add v s) vs [].
End PySet.

(** ** Stable sorting, as [list.sort(key=...)]

    [list.sort] is stable and compares keys with [<] only. *)

Section Sort.
Context {A K : Type} (ltb : K -> K -> bool) (key : A -> K).

Fixpoint insert_sorted (a : A) (s : list A) : list A :=
  match s with
  | [] => [a]
  | b :: s' => if ltb (key b) (key a) then b :: insert_sorted a s'
               else a :: b :: s'
  end.

Fixpoint sort_by (xs : list A) : list A :=
  match xs with
  | [] => []
  | a :: xs' => insert_sorted a (sort_by xs')
  end.
End Sort.

(** ** Item *)

Record Item : Type := mkItem {
  name : string;
  l : Q;
  w : Q;
  h : Q;
  weight : Q;
  x : Q;
  y : Q;
  z : Q;
  rotation : nat
}.

(** [Item.__init__]: position (0,0,0), rotation 0. *)
Definition new_Item (nm : string) (length width height wt : Q) : Item :=
  mkItem nm length width height wt 0 0 0 0%nat.

Definition vol (it : Item) : Q := l it * w it * h it.
Definition base_area (it : Item) : Q := l it * w it.

Definition get_dimension (it : Item) : Q * Q * Q :=
  if Nat.eqb (rotation it) 1 then (w it, l it, h it) else (l it, w it, h it).

Definition set_rotation (r : nat) (it : Item) : Item :=
  mkItem (name it) (l it) (w it) (h it) (weight it) (x it) (y it) (z it) r.

Definition Pos : Type := (Q * Q * Q)%type.

(** The assignment [it.rotation, it.x, it.y, it.z = r, px, py, pz]. *)
Definition place_at (r : nat) (p : Pos) (it : Item) : Item :=
  let '(px, py, pz) := p in
  mkItem (name it) (l it) (w it) (h it) (weight it) px py pz r.

(** ** Container *)

Record Container : Type := mkContainer {
  L : Q;
  W : Q;
  H : Q;
  max_weight : Q;
  current_weight : Q;
  items : list Item;
  unpacked_items : list Item
}.

Definition new_Container (length width height mw : Q) : Container :=
  mkContainer length width height mw 0 [] [].

Inductive Axis : Type := AxisX | AxisY.

Definition EPSILON : Q := 1.

Definition Key4 : Type := (Q * Q * Q * Q)%type.

(** Python's [<] on tuples: the first differing component decides. *)
Definition lex_step (a b : Q) (rest : bool) : bool :=
  if negb (Qeqb a b) then Qltb a b else rest.

Definition pos_ltb (p q : Pos) : bool :=
  let '(p1, p2, p3) := p in
  let '(q1, q2, q3) := q in
  lex_step p1 q1 (lex_step p2 q2 (Qltb p3 q3)).

Definition key4_ltb (a b : Key4) : bool :=
  let '(a1, a2, a3, a4) := a in
  let '(b1, b2, b3, b4) := b in
  lex_step a1 b1 (lex_step a2 b2 (lex_step a3 b3 (Qltb a4 b4))).

Definition pos_eqb (p q : Pos) : bool :=
  let '(p1, p2, p3) := p in
  let '(q1, q2, q3) := q in
  Qeqb p1 q1 && Qeqb p2 q2 && Qeqb p3 q3.

(** An entry of the list returned by the anchor search:
    [(sort_key, (x, y, z), gap_metric)]. *)
Definition Anchor : Type := (Key4 * Pos * Q)%type.

Definition anchor_key (a : Anchor) : Key4 := fst (fst a).
Definition anchor_pos (a : Anchor) : Pos := snd (fst a).
Definition anchor_gap (a : Anchor) : Q := snd a.

(** The x and y coordinates the search tries: container walls, the lower
    x limit, and both edges of every placed footprint. *)
Definition unique_x (c : Container) (start_x_limit : Q) : list Q :=
  py_set Qeqb
    ([0; L c; start_x_limit] ++
     flat_map (fun placed => let '(p_l, _, _) := get_dimension placed in
                             [x placed; x placed + p_l]) (items c)).

Definition unique_y (c : Container) : list Q :=
  py_set Qeqb
    ([0; W c] ++
     flat_map (fun placed => let '(_, p_w, _) := get_dimension placed in
                             [y placed; y placed + p_w]) (items c)).

Definition unique_z : list Q := py_set Qeqb [0].

(** The collision test of one anchor against one placed item. *)
Definition collides (ax ay az item_l item_w item_h : Q) (other : Item) : bool :=
  let '(o_l, o_w, o_h) := get_dimension other in
  Qltb ax (x other + o_l - EPSILON) && Qltb (x other + EPSILON) (ax + item_l) &&
  Qltb ay (y other + o_w - EPSILON) && Qltb (y other + EPSILON) (ay + item_w) &&
  Qltb az (z other + o_h - EPSILON) && Qltb (z other + EPSILON) (az + item_h).

Definition anchor_points (c : Container) (it : Item)
    (start_x_limit end_x_limit : Q) : list Pos :=
  let '(item_l, item_w, item_h) := get_dimension it in
  py_set pos_eqb
    (flat_map (fun ax =>
       if Qltb ax (start_x_limit - EPSILON)
          || Qltb (end_x_limit - item_l + EPSILON) ax
       then []
       else flat_map (fun ay =>
              flat_map (fun az =>
                if Qleb (ax + item_l) (end_x_limit + EPSILON)
                   && Qleb (ay + item_w) (W c + EPSILON)
                   && Qleb (az + item_h) (H c + EPSILON)
                then [(ax, ay, az)] else [])
              unique_z)
            (unique_y c))
       (unique_x c start_x_limit)).

Definition get_all_valid_anchors (c : Container) (it : Item)
    (start_x_limit : Q) (end_x_limit : option Q) (axis_priority : Axis)
    : list Anchor :=
  let end_x := match end_x_limit with None => L c | Some e => e end in
  let '(item_l, item_w, item_h) := get_dimension it in
  let valid_anchors :=
    flat_map (fun p : Pos =>
      let '(ax, ay, az) := p in
      if existsb (collides ax ay az item_l item_w item_h) (items c) then []
      else
        let gap_metric := (end_x - (ax + item_l)) + (W c - (ay + item_w)) in
        let sort_key := match axis_priority with
                        | AxisX => (az, ax, ay, gap_metric)
                        | AxisY => (az, ay, ax, gap_metric)
                        end in
        [(sort_key, (ax, ay, az), gap_metric)])
      (anchor_points c it start_x_limit end_x) in
  sort_by key4_ltb anchor_key valid_anchors.

(** [find_best_fit]: the best anchor and its gap, or [None]. The gap
    returned beside [None] in the source (infinity) is never read. *)
Definition find_best_fit (c : Container) (it : Item)
    (start_x_limit : Q) (end_x_limit : option Q) (axis_priority : Axis)
    : option (Pos * Q) :=
  match get_all_valid_anchors c it start_x_limit end_x_limit axis_priority with
  | a :: _ => Some (anchor_pos a, anchor_gap a)
  | [] => None
  end.

(** ** The scorer's balance measure *)

(** [calculate_balance_score] returns a bare float on one path and a pair
    on the other. *)
Inductive BalanceValue : Type :=
| BareFloat (v : Q)
| Pair (diff ratio : Q).

Definition calculate_balance_score (c : Container) : BalanceValue :=
  if Qeqb (current_weight c) 0 then BareFloat 50
  else
    let mid_point := L c / 2 in
    let weight_nose :=
      fold_left (fun acc it =>
        let item_mid := x it + fst (fst (get_dimension it)) / 2 in
        if Qltb item_mid mid_point then acc + weight it
        else if Qeqb item_mid mid_point then acc + weight it * (1 # 2)
        else acc) (items c) 0 in
    let balance_ratio := (weight_nose / current_weight c) * 100 in
    Pair (Qabs (50 - balance_ratio)) balance_ratio.

(** The tuple assignment [a, b = value]: a float cannot be unpacked. *)
Definition unpack2 (v : BalanceValue) : outcome (Q * Q) :=
  match v with
  | Pair a b => Returned (a, b)
  | BareFloat _ => Raised TypeError
  end.

(** ** The random module

    The generator is an arbitrary stream of raw draws read through a
    cursor; [randbelow n] reduces the next draw below [n]. *)

Record RandomState : Type := mkRandom {
  draws : nat -> nat;
  cursor : nat
}.

Definition randbelow (n : nat) (g : RandomState) : nat * RandomState :=
  (Nat.modulo (draws g (cursor g)) n, mkRandom (draws g) (S (cursor g))).

Section ListOps.
Context {A : Type}.

Fixpoint list_set (n : nat) (v : A) (xs : list A) : list A :=
  match xs, n with
  | [], _ => []
  | _ :: xs', O => v :: xs'
  | a :: xs', S n' => a :: list_set n' v xs'
  end.

(** [xs[i], xs[j] = xs[j], xs[i]] *)
Definition swap (i j : nat) (xs : list A) : list A :=
  match nth_error xs i, nth_error xs j with
  | Some a, Some b => list_set j a (list_set i b xs)
  | _, _ => xs
  end.

(** [xs.pop(i)] *)
Fixpoint pop (i : nat) (xs : list A) : option (A * list A) :=
  match xs, i with
  | [], _ => None
  | a :: xs', O => Some (a, xs')
  | a :: xs', S i' =>
      match pop i' xs' with
      | Some (v, rest) => Some (v, a :: rest)
      | None => None
      end
  end.

Definition enumerate (xs : list A) : list (nat * A) :=
  combine (seq 0 (List.length xs)) xs.

(** [random.shuffle]: for i from len-1 down to 1, swap position i with
    a position drawn below i+1. *)
Fixpoint shuffle_from (i : nat) (xs : list A) (g : RandomState)
    : list A * RandomState :=
  match i with
  | O => (xs, g)
  | S i' => let '(j, g') := randbelow (S i) g in
            shuffle_from i' (swap i j xs) g'
  end.

Definition shuffle (xs : list A) (g : RandomState) : list A * RandomState :=
  shuffle_from (List.length xs - 1) xs g.

Fixpoint swaps (n : nat) (xs : list A) (g : RandomState)
    : list A * RandomState :=
  match n with
  | O => (xs, g)
  | S n' => let '(i1, g1) := randbelow (List.length xs) g in
            let '(i2, g2) := randbelow (List.length xs) g1 in
            swaps n' (swap i1 i2 xs) g2
  end.

(** [_apply_swaps]: [int(len(items) * percentage)] random swaps. *)
Definition _apply_swaps (xs : list A) (percentage : Q) (g : RandomState)
    : list A * RandomState :=
  let n_swaps :=
    Z.to_nat (Qfloor (inject_Z (Z.of_nat (List.length xs)) * percentage)) in
  swaps n_swaps xs g.

Fixpoint fold_outcome {S : Type} (f : S -> A -> outcome S) (xs : list A)
    (s : S) : outcome S :=
  match xs with
  | [] => Returned s
  | a :: xs' => do s' <- f s a; fold_outcome f xs' s'
  end.
End ListOps.

(** ** Placement strategies *)

(** The weight pre-check: [current_weight + item.weight > max_weight]
    sends the item away without any geometric search. *)
Definition overweight (c : Container) (it : Item) : bool :=
  Qltb (max_weight c) (current_weight c + weight it).

(** [trial.items.append(it); trial.current_weight += it.weight] *)
Definition add_item (c : Container) (it : Item) : Container :=
  mkContainer (L c) (W c) (H c) (max_weight c)
    (current_weight c + weight it) (items c ++ [it]) (unpacked_items c).

(** [trial.unpacked_items.extend(its)] *)
Definition extend_unpacked (c : Container) (its : list Item) : Container :=
  mkContainer (L c) (W c) (H c) (max_weight c)
    (current_weight c) (items c) (unpacked_items c ++ its).

(** Scanning a pool leaves [rotation = 1] on every item that passed the
    weight pre-check (the last value of the [for rot in [0, 1]] loop). *)
Definition scanned (c : Container) (pool : list Item) : list Item :=
  map (fun it => if overweight c it then it else set_rotation 1 it) pool.

(** *** Global Scarcity Fit *)

(** One entry of [scarcity_scores]:
    [(total_valid_spots, -base_area, idx, r, x, y, z)]. *)
Record ScarcityScore : Type := mkScore {
  s_spots : nat;
  s_neg_area : Q;
  s_idx : nat;
  s_rot : nat;
  s_pos : Pos
}.

(** The loop over both rotations for one item: total anchor count, and
    the move kept. *)
Definition rotation_scan (c : Container) (axis_p : Axis) (it : Item)
    : nat * option (nat * Pos) :=
  fold_left (fun (st : nat * option (nat * Pos)) rot =>
    let '(total_valid_spots, best_move) := st in
    let anchors :=
      get_all_valid_anchors c (set_rotation rot it) 0 None axis_p in
    let total := (total_valid_spots + List.length anchors)%nat in
    match anchors with
    | [] => (total, best_move)
    | best_anchor :: _ =>
        match best_move with
        | None => (total, Some (rot, anchor_pos best_anchor))
        | Some (_, p0) =>
            if pos_ltb (anchor_pos best_anchor) p0
            then (total, Some (rot, anchor_pos best_anchor))
            else (total, best_move)
        end
    end) [0%nat; 1%nat] (0%nat, None).

Definition scarcity_scores (c : Container) (axis_p : Axis) (pool : list Item)
    : list ScarcityScore :=
  flat_map (fun '(idx, it) =>
    if overweight c it then []
    else
      match rotation_scan c axis_p it with
      | (S n, Some (r, p)) => [mkScore (S n) (- base_area it) idx r p]
      | _ => []
      end) (enumerate pool).

(** The sort key [(x[0], x[1])] and Python's [<] on it. *)
Definition score_key (s : ScarcityScore) : nat * Q := (s_spots s, s_neg_area s).

Definition score_key_ltb (a b : nat * Q) : bool :=
  if negb (Nat.eqb (fst a) (fst b)) then Nat.ltb (fst a) (fst b)
  else Qltb (snd a) (snd b).

(** The [while len(items_pool) > 0] loop; every round that does not end
    the loop removes one item from the pool, so [length pool] rounds are
    always enough. *)
Fixpoint scarcity_loop (rounds : nat) (axis_p : Axis) (c : Container)
    (pool : list Item) : outcome Container :=
  match pool with
  | [] => Returned c
  | _ :: _ =>
      match rounds with
      | O => Unfinished
      | S rounds' =>
          let scores := scarcity_scores c axis_p pool in
          let pool' := scanned c pool in
          match sort_by score_key_ltb score_key scores with
          | [] => Returned (extend_unpacked c pool')
          | winner_info :: _ =>
              match pop (s_idx winner_info) pool' with
              | None => Raised IndexError
              | Some (winner, rest) =>
                  scarcity_loop rounds' axis_p
                    (add_item c
                       (place_at (s_rot winner_info) (s_pos winner_info) winner))
                    rest
              end
          end
      end
  end.

(** *** Spot Centric Fit *)

Definition Key5 : Type := (Q * Q * Q * Q * Q)%type.

Definition key5_ltb (a b : Key5) : bool :=
  let '(a1, a2, a3, a4, a5) := a in
  let '(b1, b2, b3, b4, b5) := b in
  lex_step a1 b1
    (lex_step a2 b2 (lex_step a3 b3 (lex_step a4 b4 (Qltb a5 b5)))).

(** The running best of one scan, [(global_best_metric, global_best_move)];
    [None] is the initial state (all-infinite metric, no move,
    [valid_move_found = False]), below which every metric lies. *)
Definition SpotBest : Type := option (Key5 * (nat * nat * Pos)).

Definition spot_scan (c : Container) (axis_p : Axis) (pool : list Item)
    : SpotBest :=
  fold_left (fun (best : SpotBest) '(idx, it) =>
    if overweight c it then best
    else
      fold_left (fun (best : SpotBest) rot =>
        match find_best_fit c (set_rotation rot it) 0 None axis_p with
        | None => best
        | Some ((ax, ay, az), gap) =>
            let pos_score := match axis_p with
                             | AxisX => (az, ax, ay)
                             | AxisY => (az, ay, ax)
                             end in
            let '(s0, s1, s2) := pos_score in
            let current_metric : Key5 := (s0, s1, s2, gap, - base_area it) in
            let better := match best with
                          | None => true
                          | Some (m, _) => key5_ltb current_metric m
                          end in
            if better then Some (current_metric, (idx, rot, (ax, ay, az)))
            else best
        end) [0%nat; 1%nat] best) (enumerate pool) None.

Fixpoint spot_loop (rounds : nat) (axis_p : Axis) (c : Container)
    (pool : list Item) : outcome Container :=
  match pool with
  | [] => Returned c
  | _ :: _ =>
      match rounds with
      | O => Unfinished
      | S rounds' =>
          let pool' := scanned c pool in
          match spot_scan c axis_p pool with
          | Some (_, (idx, rot, p)) =>
              match pop idx pool' with
              | None => Raised IndexError
              | Some (winner, rest) =>
                  spot_loop rounds' axis_p
                    (add_item c (place_at rot p winner)) rest
              end
          | None => Returned (extend_unpacked c pool')
          end
      end
  end.

(** *** Super Compute Monte Carlo *)

(** The six orderings, cycled by the iteration index. *)
Definition order_items (mode : nat) (its : list Item) (g : RandomState)
    : list Item * RandomState :=
  let desc (key : Item -> Q) := sort_by (fun a b => Qltb b a) key in
  let asc (key : Item -> Q) := sort_by Qltb key in
  match mode with
  | 0%nat => shuffle its g
  | 1%nat => _apply_swaps (desc base_area its) (2 # 10) g
  | 2%nat => _apply_swaps (desc l its) (2 # 10) g
  | 3%nat => _apply_swaps (desc w its) (2 # 10) g
  | 4%nat =>
      let sorted := desc base_area its in
      let split := Nat.div (List.length sorted) 3 in
      let '(rest, g') := shuffle (skipn split sorted) g in
      (firstn split sorted ++ rest, g')
  | 5%nat => _apply_swaps (asc base_area its) (1 # 10) g
  | _ => (its, g)
  end.

(** The choice between the two rotations of one item:
    [best_fit_trial = (x, y, z, rot, gap)]. *)
Definition greedy_scan (c : Container) (axis_p : Axis) (it : Item)
    : option (Pos * nat * Q) :=
  fold_left (fun (best_fit_trial : option (Pos * nat * Q)) rot =>
    match find_best_fit c (set_rotation rot it) 0 None axis_p with
    | None => best_fit_trial
    | Some ((ax, ay, az), gap) =>
        let is_better :=
          match best_fit_trial with
          | None => true
          | Some ((bx, by_, bz), _, _) =>
              if Qltb az bz then true
              else if Qeqb az bz then
                match axis_p with
                | AxisX => if Qltb ax bx then true
                           else Qeqb ax bx && Qltb ay by_
                | AxisY => if Qltb ay by_ then true
                           else Qeqb ay by_ && Qltb ax bx
                end
              else false
          end in
        if is_better then Some ((ax, ay, az), rot, gap) else best_fit_trial
    end) [0%nat; 1%nat] None.

Definition greedy_step (axis_p : Axis) (c : Container) (it : Item)
    : Container :=
  if overweight c it then extend_unpacked c [it]
  else
    match greedy_scan c axis_p it with
    | Some (p, rot, _) => add_item c (place_at rot p it)
    | None => extend_unpacked c [set_rotation 1 it]
    end.

Definition greedy_pass (axis_p : Axis) (c : Container) (its : list Item)
    : Container :=
  fold_left (greedy_step axis_p) its c.

(** ** Trials and the trial scorer *)

Inductive Strategy : Type :=
| Global_Scarcity_Fit
| Spot_Centric_Fit
| Super_Compute_Monte_Carlo.

Definition strategies : list Strategy :=
  [Global_Scarcity_Fit; Spot_Centric_Fit; Super_Compute_Monte_Carlo].

Definition sub_strategies : list Axis := [AxisX; AxisY].

(** One entry of [items_data]. *)
Record ItemData : Type := mkItemData {
  d_name : string;
  d_l : Q;
  d_w : Q;
  d_h : Q;
  d_weight : Q;
  d_qty : Z
}.

(** The expansion of quantities into item instances. *)
Definition base_items_raw (items_data : list ItemData) : list Item :=
  flat_map (fun d =>
    repeat (new_Item (d_name d) (d_l d) (d_w d) (d_h d) (d_weight d))
           (Z.to_nat (d_qty d))) items_data.

(** The private working copy of the pool made for each trial. *)
Definition copy_items (base : list Item) : list Item :=
  map (fun i => new_Item (name i) (l i) (w i) (h i) (weight i)) base.

(** The placement pass of one trial: a fresh container, filled by the
    strategy. *)
Definition run_trial (strat : Strategy) (axis_p : Axis) (i : nat)
    (container_l container_w container_h max_weight_kg : Q)
    (base : list Item) (g : RandomState) : outcome (Container * RandomState) :=
  let trial_container :=
    new_Container container_l container_w container_h max_weight_kg in
  match strat with
  | Global_Scarcity_Fit =>
      let items_pool := copy_items base in
      do c <- scarcity_loop (List.length items_pool) axis_p trial_container
                items_pool;
      Returned (c, g)
  | Spot_Centric_Fit =>
      let items_pool := copy_items base in
      do c <- spot_loop (List.length items_pool) axis_p trial_container
                items_pool;
      Returned (c, g)
  | Super_Compute_Monte_Carlo =>
      let '(items_to_pack, g') :=
        order_items (Nat.modulo i 6) (copy_items base) g in
      Returned (greedy_pass axis_p trial_container items_to_pack, g')
  end.

(** The scorer's record of the best trial so far. *)
Record Best : Type := mkBest {
  best_container : option Container;
  best_item_count : Z;
  best_utilization : Q;
  best_balance_diff : Q
}.

Definition initial_best : Best := mkBest None (-1)%Z (-1) 100.

Definition strat_bonus (strat : Strategy) : Q :=
  match strat with
  | Super_Compute_Monte_Carlo => 0
  | _ => 1 # 2
  end.

Definition VOLUME_TIE : Q := 1 # 100000.

(** The scoring block at the end of a trial. *)
Definition score_trial (strat : Strategy) (trial_container : Container)
    (b : Best) : outcome Best :=
  let packed_count := Z.of_nat (List.length (items trial_container)) in
  let packed_vol := py_sum (map vol (items trial_container)) in
  do '(balance_diff, _) <- unpack2 (calculate_balance_score trial_container);
  match best_container b with
  | None =>
      Returned (mkBest (Some trial_container) packed_count packed_vol
                  (balance_diff - strat_bonus strat))
  | Some _ =>
      if Z.ltb (best_item_count b) packed_count then
        Returned (mkBest (Some trial_container) packed_count packed_vol
                    (balance_diff - strat_bonus strat))
      else if Z.eqb packed_count (best_item_count b) then
        if Qltb (best_utilization b + VOLUME_TIE) packed_vol then
          Returned (mkBest (Some trial_container) (best_item_count b)
                      packed_vol (balance_diff - strat_bonus strat))
        else if Qltb (Qabs (packed_vol - best_utilization b)) VOLUME_TIE then
          let current_score := balance_diff - strat_bonus strat in
          if Qltb current_score (best_balance_diff b) then
            Returned (mkBest (Some trial_container) (best_item_count b)
                        (best_utilization b) current_score)
          else Returned b
        else Returned b
      else Returned b
  end.

Definition SearchState : Type := (Best * RandomState)%type.

(** The body of the innermost loop: run one trial, then score it. *)
Definition trial_step (strat : Strategy) (i : nat)
    (container_l container_w container_h max_weight_kg : Q)
    (base : list Item) (st : SearchState) (axis_p : Axis)
    : outcome SearchState :=
  let '(b, g) := st in
  do '(trial_container, g') <-
    run_trial strat axis_p i container_l container_w container_h
      max_weight_kg base g;
  do b' <- score_trial strat trial_container b;
  Returned (b', g').

Definition iterations_of (strat : Strategy) (n_simulations : nat) : nat :=
  match strat with
  | Super_Compute_Monte_Carlo => n_simulations
  | _ => 1%nat
  end.

(** The three nested loops of [solve_packing]. *)
Definition search (container_l container_w container_h : Q)
    (base : list Item) (max_weight_kg : Q) (n_simulations : nat)
    (st : SearchState) : outcome SearchState :=
  fold_outcome (fun st strat =>
    fold_outcome (fun st i =>
      fold_outcome
        (trial_step strat i container_l container_w container_h
           max_weight_kg base)
        sub_strategies st)
      (seq 0 (iterations_of strat n_simulations)) st)
    strategies st.

(** [solve_packing]; the result is [best_container], which Python would
    leave at [None] had no trial run. *)
Definition solve_packing (container_l container_w container_h : Q)
    (items_data : list ItemData) (max_weight_kg : Q) (balance_weight : bool)
    (n_simulations : nat) (g : RandomState) : outcome (option Container) :=
  do st <- search container_l container_w container_h
             (base_items_raw items_data) max_weight_kg n_simulations
             (initial_best, g);
  Returned (best_container (fst st)).

(** ** Stats aggregator *)

Record Stats : Type := mkStats {
  packed_count : nat;
  unpacked_count : nat;
  weight_total : Q;
  weight_limit : Q;
  weight_utilization : Q;
  volume_utilization : Q;
  weight_nose : Q;
  weight_door : Q;
  weight_left : Q;
  weight_right : Q;
  weight_bottom : Q;
  weight_top : Q;
  balance_ratio : Q;
  balance_ratio_len : Q;
  balance_ratio_width : Q;
  balance_ratio_height : Q
}.

(** The share of an extent [start, start + dim] lying in [0, mid]. *)
Definition half_ratio (start dim mid : Q) : Q :=
  let overlap := py_max 0 (py_min mid (start + dim) - py_max 0 start) in
  if Qltb 0 dim then overlap / dim
  else if Qltb start mid then 1 else 0.

(** The six accumulators of the loop over placed items. *)
Definition distribute (c : Container) : Q * Q * Q * Q * Q * Q :=
  let mid_L := L c / 2 in
  let mid_W := W c / 2 in
  let mid_H := H c / 2 in
  fold_left (fun (acc : Q * Q * Q * Q * Q * Q) it =>
    let '(w_nose, w_door, w_left, w_right, w_bottom, w_top) := acc in
    let '(d0, d1, d2) := get_dimension it in
    let item_weight := weight it in
    let ratio_nose := half_ratio (x it) d0 mid_L in
    let ratio_left := half_ratio (y it) d1 mid_W in
    let ratio_bottom := half_ratio (z it) d2 mid_H in
    (w_nose + item_weight * ratio_nose,
     w_door + item_weight * (1 - ratio_nose),
     w_left + item_weight * ratio_left,
     w_right + item_weight * (1 - ratio_left),
     w_bottom + item_weight * ratio_bottom,
     w_top + item_weight * (1 - ratio_bottom)))
    (items c) (0, 0, 0, 0, 0, 0).

Definition get_container_stats (c : Container) : outcome Stats :=
  let total_vol := L c * W c * H c in
  let used_vol := py_sum (map vol (items c)) in
  let total_weight := py_sum (map weight (items c)) in
  let '(w_nose, w_door, w_left, w_right, w_bottom, w_top) := distribute c in
  let ratio_of (side : Q) :=
    if Qltb 0 total_weight then side / total_weight * 100 else 50 in
  if Qeqb total_vol 0 then Raised ZeroDivisionError
  else
    Returned
      (mkStats (List.length (items c)) (List.length (unpacked_items c))
         total_weight (max_weight c)
         (if Qltb 0 (max_weight c) then total_weight / max_weight c * 100
          else 0)
         (used_vol / total_vol * 100)
         w_nose w_door w_left w_right w_bottom w_top
         (ratio_of w_nose) (ratio_of w_nose) (ratio_of w_left)
         (ratio_of w_bottom)).

(** * Properties of container states *)

Definition x_extent (it : Item) : Q := fst (fst (get_dimension it)).
Definition y_extent (it : Item) : Q := snd (fst (get_dimension it)).
Definition z_extent (it : Item) : Q := snd (get_dimension it).

(** Length of the intersection of [lo1, lo1 + len1] and [lo2, lo2 + len2]
    (negative when the intervals are apart). *)
Definition axis_overlap (lo1 len1 lo2 len2 : Q) : Q :=
  Qmin (lo1 + len1) (lo2 + len2) - Qmax lo1 lo2.

(** Two boxes overlap by more than the tolerance in all three axes. *)
Definition overlap_beyond_tolerance (a b : Item) : Prop :=
  EPSILON < axis_overlap (x a) (x_extent a) (x b) (x_extent b) /\
  EPSILON < axis_overlap (y a) (y_extent a) (y b) (y_extent b) /\
  EPSILON < axis_overlap (z a) (z_extent a) (z b) (z_extent b).

Definition no_overlap (its : list Item) : Prop :=
  forall i j a b, i <> j ->
    nth_error its i = Some a -> nth_error its j = Some b ->
    ~ overlap_beyond_tolerance a b.


Definition placed_weight (c : Container) : Q := py_sum (map weight (items c)).
Definition placed_volume (c : Container) : Q := py_sum (map vol (items c)).


(** ** The balance ratio in words *)

Definition item_mid (it : Item) : Q := x it + x_extent it / 2.

Definition total (f : Item -> Q) (its : list Item) : Q :=
  fold_right (fun it acc => f it + acc) 0 its.

(** Weight before the length midpoint, an item centred exactly on the
    midpoint counting for half. *)
Definition nose_weight (c : Container) : Q :=
  total weight (filter (fun it => Qltb (item_mid it) (L c / 2)) (items c)) +
  total weight (filter (fun it => Qeqb (item_mid it) (L c / 2)) (items c)) / 2.

Definition longitudinal_ratio (c : Container) : Q :=
  nose_weight c / total weight (items c) * 100.

(** The reading in which every item whose extent reaches across the
    midpoint counts for half. *)
Definition straddles (c : Container) (it : Item) : bool :=
  Qltb (x it) (L c / 2) && Qltb (L c / 2) (x it + x_extent it).

Definition straddling_nose_weight (c : Container) : Q :=
  total (fun it =>
    if straddles c it then weight it / 2
    else if Qltb (item_mid it) (L c / 2) then weight it
    else 0) (items c).

Definition straddling_ratio (c : Container) : Q :=
  straddling_nose_weight c / total weight (items c) * 100.

(** ** Scoring keys *)

(** The balance-deviation of a trial of strategy [strat] whose
    longitudinal ratio is [ratio]. *)
Definition balance_deviation (strat : Strategy) (ratio : Q) : Q :=
  Qabs (50 - ratio) -
  match strat with
  | Global_Scarcity_Fit | Spot_Centric_Fit => 1 # 2
  | Super_Compute_Monte_Carlo => 0
  end.

(** The comparison of a new trial with the incumbent as a lexicographic
    order on (count, volume, deviation) with volumes closer than 1e-5
    tied: [true] when the new trial should win. *)
Definition lexicographic_winner (inc_count : Z) (inc_vol inc_dev : Q)
    (new_count : Z) (new_vol new_dev : Q) : bool :=
  if Z.ltb inc_count new_count then true
  else if Z.ltb new_count inc_count then false
  else if Qltb (Qabs (new_vol - inc_vol)) (1 # 100000)
       then Qltb new_dev inc_dev
       else Qltb inc_vol new_vol.

(** ** The scarcity round in words *)

(** Valid anchors of an item summed over both rotation states. *)
Definition total_valid_anchors (c : Container) (axis_p : Axis) (it : Item)
    : nat :=
  (List.length (get_all_valid_anchors c (set_rotation 0 it) 0 None axis_p) +
   List.length (get_all_valid_anchors c (set_rotation 1 it) 0 None axis_p))%nat.

(** A pool entry that is weight-eligible and has a valid anchor. *)
Definition candidate (c : Container) (axis_p : Axis) (pool : list Item)
    (idx : nat) (it : Item) : Prop :=
  nth_error pool idx = Some it /\ overweight c it = false /\
  (0 < total_valid_anchors c axis_p it)%nat.

(** [(i1, it1)] is at least as urgent as [(i2, it2)]: fewer anchors, then
    larger footprint, then smaller pool index. *)
Definition scarcer_or_equal (c : Container) (axis_p : Axis)
    (i1 : nat) (it1 : Item) (i2 : nat) (it2 : Item) : Prop :=
  (total_valid_anchors c axis_p it1 < total_valid_anchors c axis_p it2)%nat \/
  (total_valid_anchors c axis_p it1 = total_valid_anchors c axis_p it2 /\
   (base_area it2 < base_area it1 \/
    (base_area it2 == base_area it1 /\ (i1 <= i2)%nat))).

(** ** Invariants of a trial *)

(** What the anchor search guarantees of a position it returns for [it]
    between the limits [start_x_limit] and [end_x]. *)
Definition valid_anchor (c : Container) (it : Item)
    (start_x_limit end_x : Q) (p : Pos) : Prop :=
  let '(item_l, item_w, item_h) := get_dimension it in
  let '(ax, ay, az) := p in
  In ax (unique_x c start_x_limit) /\ In ay (unique_y c) /\ az = 0 /\
  start_x_limit - EPSILON <= ax /\
  ax + item_l <= end_x + EPSILON /\
  ay + item_w <= W c + EPSILON /\
  az + item_h <= H c + EPSILON /\
  forall other, In other (items c) ->
    collides ax ay az item_l item_w item_h other = false.

Definition placed_ok (c : Container) (it : Item) : Prop :=
  z it = 0 /\ - EPSILON <= x it /\
  x it + x_extent it <= L c + EPSILON /\
  y it + y_extent it <= W c + EPSILON /\
  z it + z_extent it <= H c + EPSILON.

Definition nonneg_footprint (it : Item) : Prop := 0 <= l it /\ 0 <= w it.

Record trial_inv (c : Container) : Prop := mkTrialInv {
  inv_no_overlap : no_overlap (items c);
  inv_placed : Forall (placed_ok c) (items c);
  inv_weight : current_weight c = placed_weight c;
  inv_budget : items c = [] \/ current_weight c <= max_weight c;
  inv_floor : 0 <= W c -> Forall nonneg_footprint (items c) ->
              Forall (fun it => 0 <= y it) (items c)
}.

(** Two containers describe the same bin. *)
Definition same_bin (c c' : Container) : Prop :=
  L c' = L c /\ W c' = W c /\ H c' = H c /\ max_weight c' = max_weight c.

(** Two items are the same physical body (position and rotation apart). *)
Definition same_body (a b : Item) : Prop :=
  name a = name b /\ l a = l b /\ w a = w b /\ h a = h b /\
  weight a = weight b.

(** A predicate on items that only reads the body. *)
Definition body_stable (P : Item -> Prop) : Prop :=
  forall a b, same_body a b -> P a -> P b.

(** What a finished placement pass [c'] owes to the state [c] and the
    pool it started from. *)
Definition trial_result (c : Container) (pool : list Item) (c' : Container)
    : Prop :=
  trial_inv c' /\ same_bin c c' /\
  (List.length (items c') + List.length (unpacked_items c') =
   List.length (items c) + List.length (unpacked_items c) + List.length pool)%nat /\
  (forall P, body_stable P -> Forall P pool -> Forall P (items c) ->
             Forall P (items c')).

(** What every trial of [solve_packing] on the container
    [cl] x [cw] x [ch] with capacity [mw] and instances [base] ends in. *)
Definition finished_trial (cl cw ch mw : Q) (base : list Item) (c : Container)
    : Prop :=
  trial_inv c /\ same_bin (new_Container cl cw ch mw) c /\
  (List.length (items c) + List.length (unpacked_items c) =
   List.length base)%nat /\
  (forall P, body_stable P -> Forall P base -> Forall P (items c)).

(** A trial that went through the scorer. *)
Definition scored_trial (cl cw ch mw : Q) (base : list Item) (c : Container)
    : Prop :=
  finished_trial cl cw ch mw base c /\ ~ current_weight c == 0.

Definition best_scored (cl cw ch mw : Q) (base : list Item) (b : Best) : Prop :=
  forall c, best_container b = Some c -> scored_trial cl cw ch mw base c.

(** ** Sample inputs *)

(** A generator whose every draw is 0. *)
Definition zero_draws : RandomState := mkRandom (fun _ => 0%nat) 0.

(** Two crates of 4 x 3 x 2 in a 10 x 10 x 10 container. *)
Definition two_crates : list ItemData := [mkItemData "crate" 4 3 2 5 2].

Definition plan_of (o : outcome (option Container)) : Container :=
  match o with
  | Returned (Some c) => c
  | _ => new_Container 0 0 0 0
  end.

Definition two_crates_plan : Container :=
  Eval vm_compute in
    plan_of (solve_packing 10 10 10 two_crates 20000 false 2 zero_draws).

(** One crate of 20 x 20 x 20, larger than the container on every axis. *)
Definition oversize_crate : list ItemData := [mkItemData "crate" 20 20 20 5 1].

(** A beam of length 6 in a container of length 10: it ends up at x = 0,
    reaching across the length midpoint 5 with its own midpoint at 3. *)
Definition long_beam : list ItemData := [mkItemData "beam" 6 1 1 2 1].

Definition long_beam_plan : Container :=
  Eval vm_compute in
    plan_of (solve_packing 10 10 10 long_beam 100 false 0 zero_draws).

(** Two unit-footprint crates of weight 1 under a capacity of 1, so that
    only one of them is ever placed; B is taller than A by 1e-5. *)
Definition near_tie : list ItemData :=
  [mkItemData "A" 1 1 1 1 1; mkItemData "B" 1 1 (100001 # 100000) 1 1].

Definition near_tie_plan : Container :=
  Eval vm_compute in
    plan_of (solve_packing 10 10 10 near_tie 1 false 1 zero_draws).

(** The scorer's record once both deterministic strategies have run. *)
Definition near_tie_best : Best :=
  Eval vm_compute in
    match fold_outcome (fun st strat =>
            fold_outcome
              (trial_step strat 0 10 10 10 1 (base_items_raw near_tie))
              sub_strategies st)
            [Global_Scarcity_Fit; Spot_Centric_Fit]
            (initial_best, zero_draws) with
    | Returned (b, _) => b
    | _ => initial_best
    end.

(** The first randomized trial: the shuffle puts B first. *)
Definition near_tie_trial : Container :=
  Eval vm_compute in
    match run_trial Super_Compute_Monte_Carlo AxisX 0 10 10 10 1
            (base_items_raw near_tie) zero_draws with
    | Returned (c, _) => c
    | _ => new_Container 0 0 0 0
    end.

(** A pool in which the large crate has fewer anchors than the small one
    once a post stands in the container. *)
Definition scarcity_demo_container : Container :=
  add_item (new_Container 10 10 10 100)
    (place_at 0 (0, 0, 0) (new_Item "post" 4 3 2 1)).

Definition scarcity_demo_pool : list Item :=
  [new_Item "small" 1 1 1 1; new_Item "large" 6 8 2 1].

(** A crate larger than the container by half a unit on every axis. *)
Definition slightly_oversize_crate : list ItemData :=
  [mkItemData "crate" (21 # 2) (21 # 2) (21 # 2) 5 1].

Definition slightly_oversize_plan : Container :=
  Eval vm_compute in
    plan_of (solve_packing 10 10 10 slightly_oversize_crate 20000 false 0
               zero_draws).

(** An item too tall for the container [ch], tolerance included. *)
Definition too_tall (ch : Q) (it : Item) : Prop := ch + EPSILON < h it.

(** A generator whose n-th draw is n. *)
Definition counting_draws : RandomState := mkRandom (fun n => n) 0.

(** Three crates of weight 1 under a capacity of 1, so that each trial
    places exactly one: scarcity takes A (volume 25), spot-centric takes
    B (volume 25.000009, centred on the length midpoint), and the first
    shuffle of [counting_draws] puts C (volume 25.000015) first. *)
Definition drift_crates : list ItemData :=
  [mkItemData "A" 5 5 1 1 1;
   mkItemData "B" 10 1 (25000009 # 10000000) 1 1;
   mkItemData "C" 5 5 (10000006 # 10000000) 1 1].

Definition drift_plan : Container :=
  Eval vm_compute in
    plan_of (solve_packing 10 10 10 drift_crates 1 false 1 counting_draws).

(** The best container when the first randomized trial arrives. *)
Definition drift_incumbent : Container :=
  Eval vm_compute in
    plan_of (solve_packing 10 10 10 drift_crates 1 false 0 counting_draws).

(** * More of the engine: what the anchor search returns *)

(** The coordinates the search tries along x and along y. *)
Definition x_edge (c : Container) (start_x_limit : Q) (v : Q) : Prop :=
  v = 0 \/ v = L c \/ v = start_x_limit \/
  exists placed, In placed (items c) /\
    (v = x placed \/ v = x placed + x_extent placed).

Definition y_edge (c : Container) (v : Q) : Prop :=
  v = 0 \/ v = W c \/
  exists placed, In placed (items c) /\
    (v = y placed \/ v = y placed + y_extent placed).

(** The tests a position has to pass for an item of effective dimensions
    [item_l] x [item_w] x [item_h]. *)
Definition fits_at (c : Container) (start_x_limit end_x : Q)
    (item_l item_w item_h ax ay az : Q) : Prop :=
  start_x_limit - EPSILON <= ax /\
  ax + item_l <= end_x + EPSILON /\
  ay + item_w <= W c + EPSILON /\
  az + item_h <= H c + EPSILON.

(** Two positions with equal coordinates. *)
Definition pos_eq (p q : Pos) : Prop :=
  fst (fst p) == fst (fst q) /\ snd (fst p) == snd (fst q) /\ snd p == snd q.

(** The gap metric of an item put at (ax, ay). *)
Definition gap_at (c : Container) (end_x item_l item_w ax ay : Q) : Q :=
  (end_x - (ax + item_l)) + (W c - (ay + item_w)).

Definition end_limit (c : Container) (end_x_limit : option Q) : Q :=
  match end_x_limit with None => L c | Some e => e end.

(** * More of the engine: trials and what comes back *)

(** [c] is the outcome of one of the trials of the search. *)
Definition trial_outcome (cl cw ch mw : Q) (base : list Item) (c : Container)
    : Prop :=
  exists strat axis_p i g g',
    run_trial strat axis_p i cl cw ch mw base g = Returned (c, g').

(** The body of an item: what it is, apart from where it lies. *)
Definition body (it : Item) : string * Q * Q * Q * Q :=
  (name it, l it, w it, h it, weight it).

(** Instances submitted that are empty: no instance at all. *)
Definition no_instance (items_data : list ItemData) : Prop :=
  forall d, In d items_data -> (d_qty d <= 0)%Z.

(** The scorer's record of the count agrees with the state it keeps. *)
Definition count_recorded (b : Best) : Prop :=
  match best_container b with
  | None => (best_item_count b < 0)%Z
  | Some inc => best_item_count b = Z.of_nat (List.length (items inc))
  end.

(** The two strategies that draw nothing from the random source. *)
Definition deterministic (strat : Strategy) : bool :=
  match strat with
  | Super_Compute_Monte_Carlo => false
  | _ => true
  end.

Definition bodies (its : list Item) : list (string * Q * Q * Q * Q) :=
  map body its.

(** Nothing more can be done for [it] in the state [c]: its weight does
    not pass the weight pre-check, or the best-fit search finds no anchor
    for it in either rotation. *)
Definition no_move (c : Container) (axis_p : Axis) (it : Item) : Prop :=
  overweight c it = true \/
  (find_best_fit c (set_rotation 0 it) 0 None axis_p = None /\
   find_best_fit c (set_rotation 1 it) 0 None axis_p = None).

Definition trial_of (o : outcome (Container * RandomState)) : Container :=
  match o with
  | Returned (c, _) => c
  | _ => new_Container 0 0 0 0
  end.

Definition two_crates_scarcity : Container :=
  Eval vm_compute in
    trial_of (run_trial Global_Scarcity_Fit AxisX 0 10 10 10 20000
                (base_items_raw two_crates) zero_draws).

(** An item that passes the bounds tests at the origin of the empty
    container in one of its two rotations. *)
Definition fits_empty (cl cw ch : Q) (it : Item) : Prop :=
  h it <= ch + EPSILON /\
  ((l it <= cl + EPSILON /\ w it <= cw + EPSILON) \/
   (w it <= cl + EPSILON /\ l it <= cw + EPSILON)).

(** An item that could be loaded alone: positive weight within the
    capacity, and a fit in the empty container. *)
Definition loadable (cl cw ch mw : Q) (it : Item) : Prop :=
  0 < weight it /\ weight it <= mw /\ fits_empty cl cw ch it.

(** Three slabs of 6 x 6 x 2: only one finds room on the floor. *)
Definition three_slabs : list ItemData := [mkItemData "slab" 6 6 2 5 3].

Definition three_slabs_scarcity : Container :=
  Eval vm_compute in
    trial_of (run_trial Global_Scarcity_Fit AxisX 0 10 10 10 20000
                (base_items_raw three_slabs) zero_draws).

(** One block that fills the container exactly. *)
Definition full_block : list ItemData := [mkItemData "block" 10 8 6 5 1].

(** A third crate offered to the container that holds the two crates, and
    the first anchor the search returns for it. *)
Definition third_crate : Item := new_Item "crate" 4 3 2 5.

Definition third_crate_anchor : Anchor :=
  Eval vm_compute in
    hd (0, 0, 0, 0, (0, 0, 0), 0)
       (get_all_valid_anchors two_crates_plan third_crate 0 None AxisX).

Definition empty_bin : Container := new_Container 10 10 10 100.

(** A mast taller than the container. *)
Definition mast : list ItemData := [mkItemData "mast" 1 1 20 5 1].

(** Two outcomes of the search that agree on everything but the random
    source. *)
Definition outcome_same (o1 o2 : outcome SearchState) : Prop :=
  match o1, o2 with
  | Returned s1, Returned s2 => fst s1 = fst s2
  | Raised e1, Raised e2 => e1 = e2
  | Unfinished, Unfinished => True
  | _, _ => False
  end.

(** ** Inputs outside the data model, and the plate and the bar *)







(** A plate of 3 x 7 x 5 and a bar of 9 x 2 x 5 for a container of
    10 x 10 x 10. *)
Definition plate_and_bar : list ItemData :=
  [mkItemData "plate" 3 7 5 5 1; mkItemData "bar" 9 2 5 5 1].

(** The state after the first round of Global Scarcity Fit: the plate at
    the origin. *)
Definition plate_placed : Container :=
  mkContainer 10 10 10 20000 5 [mkItem "plate" 3 7 5 5 0 0 0 0] [].

(** The bar as the first round's scan leaves it in the pool. *)
Definition bar_in_pool : Item := mkItem "bar" 9 2 5 5 0 0 0 1.

(** The state the trial ends in: the bar along the plate's far side, in
    rotation 0. *)
Definition plate_and_bar_trial : Container :=
  mkContainer 10 10 10 20000 10
    [mkItem "plate" 3 7 5 5 0 0 0 0; mkItem "bar" 9 2 5 5 0 7 0 0] [].

(** A machine larger than a 20 ft container on every axis. *)
Definition oversize_machine : list ItemData :=
  [mkItemData "machine" 6000 2400 2450 900 1].

(** * Proofs *)

(** ** Comparisons *)

Lemma Qltb_true (a b : Q) : Qltb a b = true <-> a < b.
Proof.
  unfold Qltb. rewrite negb_true_iff. split; intro Hab.
  - apply Qnot_le_lt. intro Hle. apply Qle_bool_iff in Hle. congruence.
  - destruct (Qle_bool b a) eqn:E; [|reflexivity].
    apply Qle_bool_iff in E. exfalso. apply (Qlt_not_le _ _ Hab E).
Qed.

Lemma Qltb_false (a b : Q) : Qltb a b = false <-> b <= a.
Proof.
  unfold Qltb. rewrite negb_false_iff. apply Qle_bool_iff.
Qed.

Lemma Qleb_true (a b : Q) : Qleb a b = true <-> a <= b.
Proof. apply Qle_bool_iff. Qed.

Lemma Qeqb_true (a b : Q) : Qeqb a b = true <-> a == b.
Proof. apply Qeq_bool_iff. Qed.

Lemma Qeqb_false (a b : Q) : Qeqb a b = false <-> ~ a == b.
Proof.
  split.
  - intros E Hab. apply Qeqb_true in Hab. congruence.
  - intro Hne. destruct (Qeqb a b) eqn:E; [|reflexivity].
    apply Qeqb_true in E. contradiction.
Qed.

(** Turn every boolean test in the context into its proposition. *)
Ltac reflect_hyps :=
  repeat match goal with
  | Hb : _ && _ = true |- _ => apply andb_true_iff in Hb; destruct Hb
  | Hb : _ || _ = false |- _ => apply orb_false_iff in Hb; destruct Hb
  | Hb : negb _ = true |- _ => apply negb_true_iff in Hb
  | Hb : negb _ = false |- _ => apply negb_false_iff in Hb
  | Hb : Qltb _ _ = true |- _ => apply Qltb_true in Hb
  | Hb : Qltb _ _ = false |- _ => apply Qltb_false in Hb
  | Hb : Qleb _ _ = true |- _ => apply Qleb_true in Hb
  | Hb : Qeqb _ _ = true |- _ => apply Qeqb_true in Hb
  | Hb : Qeqb _ _ = false |- _ => apply Qeqb_false in Hb
  end.

(** ** Sets and sorting *)

Section PySetFacts.
Context {A : Type} (eqb : A -> A -> bool).

Lemma set_add_In (v u : A) (s : list A) :
  In u (set_add eqb v s) -> In u s \/ u = v.
Proof.
  unfold set_add. destruct (existsb (eqb v) s); intro Hin; [now left|].
  apply in_app_or in Hin. destruct Hin as [Hin | [Hin | []]]; auto.
Qed.

Lemma fold_set_add_In (vs acc : list A) (u : A) :
  In u (fold_left (fun s v => set_add eqb v s) vs acc) ->
  In u acc \/ In u vs.
Proof.
  revert acc. induction vs as [|v vs IH]; intros acc Hin; simpl in *.
  - now left.
  - apply IH in Hin. destruct Hin as [Hin | Hin]; [|now right; right].
    apply set_add_In in Hin. destruct Hin; [now left | right; left; auto].
Qed.

Lemma py_set_In (vs : list A) (u : A) : In u (py_set eqb vs) -> In u vs.
Proof.
  intro Hin. apply fold_set_add_In in Hin. destruct Hin as [[] | Hin]; auto.
Qed.
End PySetFacts.

Section SortFacts.
Context {A K : Type} (ltb : K -> K -> bool) (key : A -> K).

Lemma insert_sorted_perm (a : A) (s : list A) :
  Permutation (a :: s) (insert_sorted ltb key a s).
Proof.
  induction s as [|b s IH]; simpl; [reflexivity|].
  destruct (ltb (key b) (key a)); [|reflexivity].
  rewrite perm_swap. now apply perm_skip.
Qed.

Lemma sort_by_perm (xs : list A) : Permutation xs (sort_by ltb key xs).
Proof.
  induction xs as [|a xs IH]; simpl; [reflexivity|].
  rewrite <- insert_sorted_perm. now apply perm_skip.
Qed.

Lemma sort_by_In (xs : list A) (a : A) : In a (sort_by ltb key xs) -> In a xs.
Proof.
  apply Permutation_in. symmetry. apply sort_by_perm.
Qed.

Lemma sort_by_length (xs : list A) :
  List.length (sort_by ltb key xs) = List.length xs.
Proof. symmetry. apply Permutation_length, sort_by_perm. Qed.

Lemma sort_by_Forall (P : A -> Prop) (xs : list A) :
  Forall P xs -> Forall P (sort_by ltb key xs).
Proof. apply Permutation_Forall, sort_by_perm. Qed.

(** The head of a stable sort is the first minimal element. *)
Hypothesis ltb_trans : forall a b c,
  ltb a b = true -> ltb b c = true -> ltb a c = true.
Hypothesis ltb_negtrans : forall a b c,
  ltb a c = true -> ltb a b = true \/ ltb b c = true.

Lemma insert_sorted_head (a : A) (s : list A) :
  exists t, insert_sorted ltb key a s =
    match s with
    | [] => a
    | m :: _ => if ltb (key m) (key a) then m else a
    end :: t.
Proof.
  destruct s as [|m s]; simpl; [now exists []|].
  destruct (ltb (key m) (key a)); eexists; reflexivity.
Qed.

Lemma sort_by_head (xs : list A) (m : A) (t : list A) :
  sort_by ltb key xs = m :: t ->
  exists pre post, xs = pre ++ m :: post /\
    (forall b, In b pre -> ltb (key m) (key b) = true) /\
    (forall b, In b post -> ltb (key b) (key m) = false).
Proof.
  revert m t. induction xs as [|a xs IH]; intros m t Hs; simpl in Hs.
  - discriminate.
  - destruct (insert_sorted_head a (sort_by ltb key xs)) as [t' Ht'].
    rewrite Ht' in Hs. destruct (sort_by ltb key xs) as [|m0 s0] eqn:Es.
    + injection Hs as <- <-.
      assert (xs = []) as ->.
      { apply length_zero_iff_nil. rewrite <- sort_by_length, Es.
        reflexivity. }
      exists [], []. repeat split; intros b [].
    + destruct (IH m0 s0 eq_refl) as (pre & post & -> & Hpre & Hpost).
      destruct (ltb (key m0) (key a)) eqn:Em; injection Hs as <- <-.
      * exists (a :: pre), post. repeat split; auto.
        intros b [<- | Hb]; auto.
      * exists [], (pre ++ m0 :: post). repeat split; [intros b []|].
        intros b Hb. apply in_app_or in Hb.
        destruct (ltb (key b) (key a)) eqn:Eb; [exfalso|reflexivity].
        destruct Hb as [Hb | [<- | Hb]].
        -- specialize (Hpre b Hb).
           rewrite (ltb_trans _ _ _ Hpre Eb) in Em. discriminate.
        -- congruence.
        -- destruct (ltb_negtrans _ (key m0) _ Eb) as [Hc | Hc].
           ++ rewrite (Hpost b Hb) in Hc. discriminate.
           ++ congruence.
Qed.
End SortFacts.

(** ** The anchor search *)

Lemma get_dimension_set_rotation (r : nat) (it : Item) :
  get_dimension (set_rotation r it) =
  if Nat.eqb r 1 then (w it, l it, h it) else (l it, w it, h it).
Proof. reflexivity. Qed.

Lemma get_dimension_place_at (r : nat) (p : Pos) (it : Item) :
  get_dimension (place_at r p it) = get_dimension (set_rotation r it).
Proof. destruct p as [[px py] pz]. reflexivity. Qed.

Lemma place_at_set_rotation (r r' : nat) (p : Pos) (it : Item) :
  place_at r p (set_rotation r' it) = place_at r p it.
Proof. destruct p as [[px py] pz]. reflexivity. Qed.

Lemma anchor_points_valid (c : Container) (it : Item) (s e : Q) (p : Pos) :
  In p (anchor_points c it s e) ->
  let '(item_l, item_w, item_h) := get_dimension it in
  let '(ax, ay, az) := p in
  In ax (unique_x c s) /\ In ay (unique_y c) /\ az = 0 /\
  s - EPSILON <= ax /\ ax + item_l <= e + EPSILON /\
  ay + item_w <= W c + EPSILON /\ az + item_h <= H c + EPSILON.
Proof.
  unfold anchor_points. destruct (get_dimension it) as [[item_l item_w] item_h].
  intro Hin. apply py_set_In in Hin.
  apply in_flat_map in Hin. destruct Hin as (ax & Hax & Hin).
  destruct (Qltb ax (s - EPSILON) || Qltb (e - item_l + EPSILON) ax) eqn:Eskip;
    [destruct Hin|].
  apply in_flat_map in Hin. destruct Hin as (ay & Hay & Hin).
  apply in_flat_map in Hin. destruct Hin as (az & Haz & Hin).
  destruct (Qleb (ax + item_l) (e + EPSILON) && Qleb (ay + item_w) (W c + EPSILON)
            && Qleb (az + item_h) (H c + EPSILON)) eqn:Efit; [|destruct Hin].
  destruct Hin as [<- | []].
  destruct Haz as [<- | []].
  reflect_hyps. repeat split; auto.
Qed.

Lemma get_all_valid_anchors_valid (c : Container) (it : Item) (s : Q)
    (e : option Q) (axis_p : Axis) (a : Anchor) :
  In a (get_all_valid_anchors c it s e axis_p) ->
  valid_anchor c it s (match e with None => L c | Some v => v end)
    (anchor_pos a).
Proof.
  unfold get_all_valid_anchors, valid_anchor. intro Hin.
  pose proof (anchor_points_valid c it s
                (match e with None => L c | Some v => v end)) as Hpts.
  destruct (get_dimension it) as [[item_l item_w] item_h].
  apply sort_by_In in Hin. apply in_flat_map in Hin.
  destruct Hin as ([[ax ay] az] & Hp & Hin).
  destruct (existsb (collides ax ay az item_l item_w item_h) (items c)) eqn:Ecol;
    [destruct Hin|].
  destruct Hin as [<- | []]. unfold anchor_pos; simpl.
  specialize (Hpts _ Hp). simpl in Hpts.
  destruct Hpts as (Hx & Hy & Hz & H1 & H2 & H3 & H4).
  repeat split; auto.
  intros other Hother.
  destruct (collides ax ay az item_l item_w item_h other) eqn:Eo; [|reflexivity].
  assert (existsb (collides ax ay az item_l item_w item_h) (items c) = true)
    by (apply existsb_exists; eauto).
  congruence.
Qed.

(** The sorted list has the anchors' own keys: position and gap in the
    order the axis priority asks for. *)
Lemma get_all_valid_anchors_key (c : Container) (it : Item) (s : Q)
    (e : option Q) (axis_p : Axis) (a : Anchor) :
  In a (get_all_valid_anchors c it s e axis_p) ->
  let '(ax, ay, az) := anchor_pos a in
  anchor_key a = match axis_p with
                 | AxisX => (az, ax, ay, anchor_gap a)
                 | AxisY => (az, ay, ax, anchor_gap a)
                 end.
Proof.
  unfold get_all_valid_anchors. intro Hin.
  destruct (get_dimension it) as [[item_l item_w] item_h].
  apply sort_by_In in Hin. apply in_flat_map in Hin.
  destruct Hin as ([[ax ay] az] & Hp & Hin).
  destruct (existsb _ (items c)); [destruct Hin|].
  destruct Hin as [<- | []]. unfold anchor_pos, anchor_key, anchor_gap; simpl.
  destruct axis_p; reflexivity.
Qed.

(** ** Boxes *)

Lemma no_collision_no_overlap (n other : Item) :
  collides (x n) (y n) (z n) (x_extent n) (y_extent n) (z_extent n) other
    = false ->
  ~ overlap_beyond_tolerance n other /\ ~ overlap_beyond_tolerance other n.
Proof.
  unfold collides, overlap_beyond_tolerance, axis_overlap, x_extent, y_extent,
    z_extent, EPSILON.
  destruct (get_dimension other) as [[o_l o_w] o_h]; simpl.
  set (nl := fst (fst (get_dimension n))).
  set (nw := snd (fst (get_dimension n))).
  set (nh := snd (get_dimension n)).
  intro Hc.
  pose proof (Q.le_min_l (x n + nl) (x other + o_l)).
  pose proof (Q.le_min_r (x n + nl) (x other + o_l)).
  pose proof (Q.le_max_l (x n) (x other)).
  pose proof (Q.le_max_r (x n) (x other)).
  pose proof (Q.le_min_l (y n + nw) (y other + o_w)).
  pose proof (Q.le_min_r (y n + nw) (y other + o_w)).
  pose proof (Q.le_max_l (y n) (y other)).
  pose proof (Q.le_max_r (y n) (y other)).
  pose proof (Q.le_min_l (z n + nh) (z other + o_h)).
  pose proof (Q.le_min_r (z n + nh) (z other + o_h)).
  pose proof (Q.le_max_l (z n) (z other)).
  pose proof (Q.le_max_r (z n) (z other)).
  pose proof (Q.le_min_l (x other + o_l) (x n + nl)).
  pose proof (Q.le_min_r (x other + o_l) (x n + nl)).
  pose proof (Q.le_max_l (x other) (x n)).
  pose proof (Q.le_max_r (x other) (x n)).
  pose proof (Q.le_min_l (y other + o_w) (y n + nw)).
  pose proof (Q.le_min_r (y other + o_w) (y n + nw)).
  pose proof (Q.le_max_l (y other) (y n)).
  pose proof (Q.le_max_r (y other) (y n)).
  pose proof (Q.le_min_l (z other + o_h) (z n + nh)).
  pose proof (Q.le_min_r (z other + o_h) (z n + nh)).
  pose proof (Q.le_max_l (z other) (z n)).
  pose proof (Q.le_max_r (z other) (z n)).
  repeat (apply andb_false_iff in Hc; destruct Hc as [Hc | Hc]);
    apply Qltb_false in Hc; split; intros (Hx & Hy & Hz); lra.
Qed.

Lemma no_overlap_snoc (its : list Item) (n : Item) :
  no_overlap its ->
  (forall other, In other its ->
     ~ overlap_beyond_tolerance n other /\ ~ overlap_beyond_tolerance other n) ->
  no_overlap (its ++ [n]).
Proof.
  intros Hits Hn i j a b Hij Ha Hb.
  assert (Hcase : forall k v, nth_error (its ++ [n]) k = Some v ->
            ((k < List.length its)%nat /\ nth_error its k = Some v) \/
            (k = List.length its /\ v = n)).
  { intros k v Hk. destruct (Nat.lt_ge_cases k (List.length its)) as [Hlt | Hge].
    - left. split; [assumption|]. now rewrite nth_error_app1 in Hk.
    - right. rewrite nth_error_app2 in Hk by assumption.
      destruct (k - List.length its)%nat as [|d] eqn:Ed; simpl in Hk.
      + split; [lia | congruence].
      + destruct d; discriminate. }
  destruct (Hcase _ _ Ha) as [[Hi Ha'] | [Hi ->]];
    destruct (Hcase _ _ Hb) as [[Hj Hb'] | [Hj ->]].
  - exact (Hits i j a b Hij Ha' Hb').
  - apply (Hn a). eapply nth_error_In; eauto.
  - apply (Hn b). eapply nth_error_In; eauto.
  - lia.
Qed.

(** ** Placing one item keeps the trial invariant *)

Lemma py_sum_snoc (qs : list Q) (q : Q) : py_sum (qs ++ [q]) = py_sum qs + q.
Proof. unfold py_sum. rewrite fold_left_app. reflexivity. Qed.

Lemma new_Container_inv (cl cw ch mw : Q) : trial_inv (new_Container cl cw ch mw).
Proof.
  split; simpl; auto.
  intros i j a b _ Ha. destruct i; discriminate.
Qed.

Lemma extend_unpacked_inv (c : Container) (its : list Item) :
  trial_inv c -> trial_inv (extend_unpacked c its).
Proof. intros [H1 H2 H3 H4 H5]. split; assumption. Qed.

Lemma unique_y_nonneg (c : Container) (v : Q) :
  0 <= W c -> Forall nonneg_footprint (items c) ->
  Forall (fun it => 0 <= y it) (items c) ->
  In v (unique_y c) -> 0 <= v.
Proof.
  intros HW Hdims Hys Hin. apply py_set_In in Hin.
  apply in_app_or in Hin. destruct Hin as [[<- | [<- | []]] | Hin];
    [lra | assumption |].
  apply in_flat_map in Hin. destruct Hin as (placed & Hpl & Hin).
  rewrite Forall_forall in Hdims, Hys.
  specialize (Hdims _ Hpl). specialize (Hys _ Hpl).
  destruct Hdims as [Hl Hw]. unfold get_dimension in Hin.
  destruct (Nat.eqb (rotation placed) 1); destruct Hin as [<- | [<- | []]]; lra.
Qed.

Lemma add_item_inv (c : Container) (it : Item) (rot : nat) (p : Pos) :
  trial_inv c -> overweight c it = false ->
  valid_anchor c (set_rotation rot it) 0 (L c) p ->
  trial_inv (add_item c (place_at rot p it)).
Proof.
  intros [Hno Hpl Hw Hb Hfl] Hlight Hv.
  unfold valid_anchor in Hv.
  pose proof (get_dimension_place_at rot p it) as Hdim.
  destruct p as [[ax ay] az].
  destruct (get_dimension (set_rotation rot it)) as [[item_l item_w] item_h] eqn:Ed.
  destruct Hv as (Hx & Hy & -> & Hlo & Hhi & Hwd & Hht & Hcol).
  set (n := place_at rot (ax, ay, 0) it) in *.
  assert (Hxe : x_extent n = item_l) by (unfold x_extent; now rewrite Hdim).
  assert (Hye : y_extent n = item_w) by (unfold y_extent; now rewrite Hdim).
  assert (Hze : z_extent n = item_h) by (unfold z_extent; now rewrite Hdim).
  split; unfold add_item; cbn [items current_weight max_weight L W H].
  - apply no_overlap_snoc; [assumption|]. intros other Hother.
    apply no_collision_no_overlap. rewrite Hxe, Hye, Hze. now apply Hcol.
  - apply Forall_app. split.
    + eapply Forall_impl; [|exact Hpl]. intros a Ha. exact Ha.
    + constructor; [|constructor]. unfold placed_ok. rewrite Hxe, Hye, Hze.
      simpl. unfold EPSILON in *. repeat split; try assumption; lra.
  - unfold placed_weight in *. cbn [items]. rewrite map_app. cbn [map].
    rewrite py_sum_snoc, Hw. destruct it; reflexivity.
  - right. unfold overweight in Hlight. apply Qltb_false in Hlight. exact Hlight.
  - intros HW Hdims. apply Forall_app in Hdims. destruct Hdims as [Hd1 Hd2].
    specialize (Hfl HW Hd1). apply Forall_app. split; [assumption|].
    constructor; [|constructor]. simpl.
    eapply unique_y_nonneg; eauto.
Qed.

(** ** Pools *)

Lemma enumerate_In {A : Type} (xs : list A) (i : nat) (a : A) :
  In (i, a) (enumerate xs) <-> nth_error xs i = Some a.
Proof.
  unfold enumerate.
  assert (Hgen : forall k, In (i, a) (combine (seq k (List.length xs)) xs) <->
            (k <= i)%nat /\ nth_error xs (i - k) = Some a).
  { induction xs as [|b xs IH]; intro k; simpl.
    - split; [intros [] | intros [_ Hn]]. destruct (i - k)%nat; discriminate.
    - rewrite IH. split.
      + intros [Heq | [Hle Hn]].
        * injection Heq as -> ->. rewrite Nat.sub_diag. split; [lia | reflexivity].
        * split; [lia|]. replace (i - k)%nat with (S (i - S k)) by lia. exact Hn.
      + intros [Hle Hn]. destruct (Nat.eq_dec k i) as [-> | Hne].
        * left. rewrite Nat.sub_diag in Hn. simpl in Hn. congruence.
        * right. split; [lia|].
          replace (i - k)%nat with (S (i - S k)) in Hn by lia. exact Hn. }
  rewrite Hgen, Nat.sub_0_r. split; [intros [_ Hn]; exact Hn | intro Hn; split; [lia | exact Hn]].
Qed.

Lemma pop_spec {A : Type} (xs : list A) (i : nat) (v : A) :
  nth_error xs i = Some v ->
  exists rest, pop i xs = Some (v, rest) /\
    List.length xs = S (List.length rest) /\
    (forall P : A -> Prop, Forall P xs -> Forall P rest).
Proof.
  revert i. induction xs as [|a xs IH]; intros [|i] Hn; simpl in *;
    try discriminate.
  - injection Hn as ->. exists xs. repeat split.
    intros P HP. now inversion HP.
  - destruct (IH _ Hn) as (rest & -> & Hlen & HP).
    exists (a :: rest). repeat split; simpl; [lia|].
    intros P HPx. inversion HPx; subst. constructor; auto.
Qed.

Lemma scanned_length (c : Container) (pool : list Item) :
  List.length (scanned c pool) = List.length pool.
Proof. apply length_map. Qed.

Lemma scanned_nth (c : Container) (pool : list Item) (i : nat) (it : Item) :
  nth_error pool i = Some it ->
  nth_error (scanned c pool) i =
    Some (if overweight c it then it else set_rotation 1 it).
Proof. intro Hn. unfold scanned. now rewrite nth_error_map, Hn. Qed.

Lemma rotation_scan_move (c : Container) (axis_p : Axis) (it : Item)
    (n r : nat) (p : Pos) :
  rotation_scan c axis_p it = (n, Some (r, p)) ->
  n = total_valid_anchors c axis_p it /\
  exists a t, get_all_valid_anchors c (set_rotation r it) 0 None axis_p = a :: t
              /\ p = anchor_pos a.
Proof.
  unfold rotation_scan, total_valid_anchors. simpl.
  destruct (get_all_valid_anchors c (set_rotation 0 it) 0 None axis_p)
    as [|a0 t0] eqn:E0;
  destruct (get_all_valid_anchors c (set_rotation 1 it) 0 None axis_p)
    as [|a1 t1] eqn:E1; simpl; try discriminate.
  - intro Hs. injection Hs as <- <- <-. split; [reflexivity|]. eauto.
  - intro Hs. injection Hs as <- <- <-. split; [reflexivity|]. eauto.
  - destruct (pos_ltb (anchor_pos a1) (anchor_pos a0));
      intro Hs; injection Hs as <- <- <-; (split; [reflexivity|]); eauto.
Qed.

Lemma rotation_scan_total (c : Container) (axis_p : Axis) (it : Item) :
  fst (rotation_scan c axis_p it) = total_valid_anchors c axis_p it /\
  ((0 < total_valid_anchors c axis_p it)%nat ->
   exists m, snd (rotation_scan c axis_p it) = Some m).
Proof.
  unfold rotation_scan, total_valid_anchors. simpl.
  destruct (get_all_valid_anchors c (set_rotation 0 it) 0 None axis_p)
    as [|a0 t0];
  destruct (get_all_valid_anchors c (set_rotation 1 it) 0 None axis_p)
    as [|a1 t1]; simpl; try (split; [reflexivity | intro; eauto; lia]).
  destruct (pos_ltb (anchor_pos a1) (anchor_pos a0)); simpl;
    (split; [reflexivity | intro; eauto]).
Qed.

Lemma fold_left_inv {A S : Type} (f : S -> A -> S) (I : S -> Prop)
    (xs : list A) (s : S) :
  I s -> (forall s a, In a xs -> I s -> I (f s a)) -> I (fold_left f xs s).
Proof.
  revert s. induction xs as [|a xs IH]; intros s Hs Hf; simpl; [assumption|].
  apply IH; [apply Hf; simpl; auto | intros; apply Hf; simpl; auto].
Qed.

Lemma same_body_set_rotation (r : nat) (it : Item) :
  same_body it (set_rotation r it).
Proof. repeat split. Qed.

Lemma same_body_place_at (r : nat) (p : Pos) (it : Item) :
  same_body it (place_at r p it).
Proof. destruct p as [[px py] pz]. repeat split. Qed.

Lemma scanned_Forall (P : Item -> Prop) (c : Container) (pool : list Item) :
  body_stable P -> Forall P pool -> Forall P (scanned c pool).
Proof.
  intros HP Hpool. unfold scanned. apply Forall_map.
  eapply Forall_impl; [|exact Hpool]. intros a Ha.
  destruct (overweight c a); [assumption|].
  eapply HP; [apply same_body_set_rotation | assumption].
Qed.

Lemma trial_result_refl (c : Container) : trial_inv c -> trial_result c [] c.
Proof.
  intro Hc. split; [assumption|]. split; [repeat split|].
  split; [simpl; lia | auto].
Qed.

Lemma trial_result_unpack (c : Container) (pool pool' : list Item) :
  trial_inv c -> List.length pool' = List.length pool ->
  trial_result c pool (extend_unpacked c pool').
Proof.
  intros Hc Hlen. split; [now apply extend_unpacked_inv|].
  split; [repeat split|]. split; [|auto].
  simpl. rewrite length_app. lia.
Qed.

(** One placement followed by a finished pass on the rest of the pool. *)
Lemma trial_result_step (c : Container) (pool rest : list Item)
    (it : Item) (rot : nat) (p : Pos) (c' : Container) :
  In it pool ->
  List.length pool = S (List.length rest) ->
  (forall P, body_stable P -> Forall P pool -> Forall P rest) ->
  trial_result (add_item c (place_at rot p it)) rest c' ->
  trial_result c pool c'.
Proof.
  intros Hin Hlen Hrest (Hinv & (HL & HW & HH & HM) & Hcount & HP).
  split; [assumption|]. split; [repeat split; assumption|]. split.
  - rewrite Hcount. simpl. rewrite length_app. simpl. lia.
  - intros P HPb Hpool Hitems. apply HP; auto. simpl.
    apply Forall_app. split; [assumption|]. constructor; [|constructor].
    eapply HPb; [apply same_body_place_at|].
    rewrite Forall_forall in Hpool. now apply Hpool.
Qed.

Lemma list_eq_dec_nil {A : Type} (xs : list A) : {xs = []} + {xs <> []}.
Proof. destruct xs; [now left | now right]. Qed.

(** *** Global Scarcity Fit *)

Lemma scarcity_scores_In (c : Container) (axis_p : Axis) (pool : list Item)
    (s : ScarcityScore) :
  In s (scarcity_scores c axis_p pool) ->
  exists it, nth_error pool (s_idx s) = Some it /\ overweight c it = false /\
    rotation_scan c axis_p it = (s_spots s, Some (s_rot s, s_pos s)) /\
    s_neg_area s = - base_area it /\ (0 < s_spots s)%nat.
Proof.
  unfold scarcity_scores. intro Hin. apply in_flat_map in Hin.
  destruct Hin as ([idx it] & Hen & Hin). apply enumerate_In in Hen.
  destruct (overweight c it) eqn:Eo; [destruct Hin|].
  destruct (rotation_scan c axis_p it) as [[|n] [[r p]|]] eqn:Er;
    simpl in Hin; try contradiction.
  destruct Hin as [<- | []]. simpl. exists it. repeat split; auto. lia.
Qed.

Lemma scarcity_loop_round (rounds : nat) (axis_p : Axis) (c : Container)
    (pool : list Item) :
  pool <> [] ->
  scarcity_loop (S rounds) axis_p c pool =
  match sort_by score_key_ltb score_key (scarcity_scores c axis_p pool) with
  | [] => Returned (extend_unpacked c (scanned c pool))
  | winner_info :: _ =>
      match pop (s_idx winner_info) (scanned c pool) with
      | None => Raised IndexError
      | Some (winner, rest) =>
          scarcity_loop rounds axis_p
            (add_item c
               (place_at (s_rot winner_info) (s_pos winner_info) winner))
            rest
      end
  end.
Proof. destruct pool; [contradiction | reflexivity]. Qed.

Lemma scarcity_loop_result (rounds : nat) (axis_p : Axis) (c : Container)
    (pool : list Item) :
  trial_inv c -> (List.length pool <= rounds)%nat ->
  exists c', scarcity_loop rounds axis_p c pool = Returned c' /\
             trial_result c pool c'.
Proof.
  revert c pool. induction rounds as [|rounds IH]; intros c pool Hc Hlen.
  - destruct pool; [|simpl in Hlen; lia].
    exists c. split; [reflexivity | now apply trial_result_refl].
  - destruct (list_eq_dec_nil pool) as [-> | Hne].
    + exists c. split; [reflexivity | now apply trial_result_refl].
    + rewrite scarcity_loop_round by assumption.
      destruct (sort_by score_key_ltb score_key (scarcity_scores c axis_p pool))
        as [|win others] eqn:Es.
      * eexists. split; [reflexivity|].
        apply trial_result_unpack; auto using scanned_length.
      * assert (Hwin : In win (scarcity_scores c axis_p pool)).
        { eapply sort_by_In. rewrite Es. now left. }
        apply scarcity_scores_In in Hwin.
        destruct Hwin as (it & Hnth & Hlight & Hscan & _ & _).
        apply rotation_scan_move in Hscan.
        destruct Hscan as (_ & a & t & Ha & Hp).
        pose proof (scanned_nth c pool _ _ Hnth) as Hsc. rewrite Hlight in Hsc.
        destruct (pop_spec _ _ _ Hsc) as (rest & -> & Hl & Hfa).
        rewrite place_at_set_rotation.
        rewrite scanned_length in Hl.
        destruct (IH (add_item c (place_at (s_rot win) (s_pos win) it)) rest)
          as (c' & Hrun & Hres).
        { apply add_item_inv; auto. rewrite Hp.
          apply (get_all_valid_anchors_valid c (set_rotation (s_rot win) it)
                   0 None axis_p a).
          rewrite Ha. now left. }
        { lia. }
        exists c'. split; [exact Hrun|].
        eapply trial_result_step; eauto.
        -- eapply nth_error_In; eauto.
        -- intros P HPb HPp. apply Hfa. now apply scanned_Forall.
Qed.

(** *** Spot Centric Fit *)

Lemma find_best_fit_anchor (c : Container) (it : Item) (axis_p : Axis)
    (p : Pos) (gap : Q) :
  find_best_fit c it 0 None axis_p = Some (p, gap) ->
  exists a t, get_all_valid_anchors c it 0 None axis_p = a :: t /\
              p = anchor_pos a /\ gap = anchor_gap a.
Proof.
  unfold find_best_fit.
  destruct (get_all_valid_anchors c it 0 None axis_p) as [|a t];
    [discriminate|].
  intro Hs. injection Hs as <- <-. eauto.
Qed.

Lemma spot_scan_move (c : Container) (axis_p : Axis) (pool : list Item)
    (m : Key5) (idx rot : nat) (p : Pos) :
  spot_scan c axis_p pool = Some (m, (idx, rot, p)) ->
  exists it, nth_error pool idx = Some it /\ overweight c it = false /\
    exists a t,
      get_all_valid_anchors c (set_rotation rot it) 0 None axis_p = a :: t /\
      p = anchor_pos a.
Proof.
  unfold spot_scan.
  set (I := fun best : SpotBest =>
    match best with
    | None => True
    | Some (_, (idx, rot, p)) =>
        exists it, nth_error pool idx = Some it /\ overweight c it = false /\
          exists a t,
            get_all_valid_anchors c (set_rotation rot it) 0 None axis_p = a :: t
            /\ p = anchor_pos a
    end).
  intro Hs.
  match type of Hs with fold_left ?f ?xs ?s = _ =>
    assert (HI : I (fold_left f xs s)) end.
  { apply fold_left_inv; [exact Logic.I|].
    intros best [i it] Hen Hbest. apply enumerate_In in Hen.
    destruct (overweight c it) eqn:Eo; [assumption|].
    apply fold_left_inv; [assumption|].
    intros b rot' _ Hb.
    destruct (find_best_fit c (set_rotation rot' it) 0 None axis_p)
      as [[[[ax ay] az] gap]|] eqn:Ef; [|assumption].
    apply find_best_fit_anchor in Ef. destruct Ef as (a & t & Ha & Hp & _).
    destruct axis_p.
    - destruct b as [[mb mv]|].
      + destruct (key5_ltb (az, ax, ay, gap, - base_area it) mb);
          [|assumption].
        exists it. repeat split; auto. eauto.
      + exists it. repeat split; auto. eauto.
    - destruct b as [[mb mv]|].
      + destruct (key5_ltb (az, ay, ax, gap, - base_area it) mb);
          [|assumption].
        exists it. repeat split; auto. eauto.
      + exists it. repeat split; auto. eauto. }
  rewrite Hs in HI. exact HI.
Qed.

Lemma spot_loop_round (rounds : nat) (axis_p : Axis) (c : Container)
    (pool : list Item) :
  pool <> [] ->
  spot_loop (S rounds) axis_p c pool =
  match spot_scan c axis_p pool with
  | Some (_, (idx, rot, p)) =>
      match pop idx (scanned c pool) with
      | None => Raised IndexError
      | Some (winner, rest) =>
          spot_loop rounds axis_p (add_item c (place_at rot p winner)) rest
      end
  | None => Returned (extend_unpacked c (scanned c pool))
  end.
Proof. destruct pool; [contradiction | reflexivity]. Qed.

Lemma spot_loop_result (rounds : nat) (axis_p : Axis) (c : Container)
    (pool : list Item) :
  trial_inv c -> (List.length pool <= rounds)%nat ->
  exists c', spot_loop rounds axis_p c pool = Returned c' /\
             trial_result c pool c'.
Proof.
  revert c pool. induction rounds as [|rounds IH]; intros c pool Hc Hlen.
  - destruct pool; [|simpl in Hlen; lia].
    exists c. split; [reflexivity | now apply trial_result_refl].
  - destruct (list_eq_dec_nil pool) as [-> | Hne].
    + exists c. split; [reflexivity | now apply trial_result_refl].
    + rewrite spot_loop_round by assumption.
      destruct (spot_scan c axis_p pool) as [[m [[idx rot] p]]|] eqn:Es.
      * apply spot_scan_move in Es.
        destruct Es as (it & Hnth & Hlight & a & t & Ha & Hp).
        pose proof (scanned_nth c pool _ _ Hnth) as Hsc. rewrite Hlight in Hsc.
        destruct (pop_spec _ _ _ Hsc) as (rest & -> & Hl & Hfa).
        rewrite place_at_set_rotation.
        rewrite scanned_length in Hl.
        destruct (IH (add_item c (place_at rot p it)) rest)
          as (c' & Hrun & Hres).
        { apply add_item_inv; auto. rewrite Hp.
          apply (get_all_valid_anchors_valid c (set_rotation rot it)
                   0 None axis_p a).
          rewrite Ha. now left. }
        { lia. }
        exists c'. split; [exact Hrun|].
        eapply trial_result_step; eauto.
        -- eapply nth_error_In; eauto.
        -- intros P HPb HPp. apply Hfa. now apply scanned_Forall.
      * eexists. split; [reflexivity|].
        apply trial_result_unpack; auto using scanned_length.
Qed.

(** *** Super Compute Monte Carlo: orderings are permutations *)

Section SwapFacts.
Context {A : Type}.

Lemma list_set_perm (t : list A) (j : nat) (v b : A) :
  nth_error t j = Some b -> Permutation (v :: t) (b :: list_set j v t).
Proof.
  revert j. induction t as [|a t IH]; intros [|j] Hn; simpl in *;
    try discriminate.
  - injection Hn as ->. apply perm_swap.
  - rewrite perm_swap. rewrite (IH _ Hn). apply perm_swap.
Qed.

Lemma nth_error_list_set_same (t : list A) (i : nat) (v a : A) :
  nth_error t i = Some a -> nth_error (list_set i v t) i = Some v.
Proof.
  revert i. induction t as [|b t IH]; intros [|i] Hn; simpl in *;
    try discriminate; auto.
Qed.

Lemma nth_error_list_set_other (t : list A) (i j : nat) (v : A) :
  i <> j -> nth_error (list_set i v t) j = nth_error t j.
Proof.
  revert i j. induction t as [|b t IH]; intros [|i] [|j] Hne; simpl;
    try reflexivity; try contradiction.
  apply IH. congruence.
Qed.

Lemma swap_perm (i j : nat) (xs : list A) : Permutation xs (swap i j xs).
Proof.
  unfold swap.
  destruct (nth_error xs i) as [a|] eqn:Ei; [|reflexivity].
  destruct (nth_error xs j) as [b|] eqn:Ej; [|reflexivity].
  apply (Permutation_cons_inv (a := b)).
  rewrite (list_set_perm xs i b a Ei).
  apply list_set_perm.
  destruct (Nat.eq_dec i j) as [-> | Hne].
  - eapply nth_error_list_set_same; eauto.
  - rewrite nth_error_list_set_other by assumption. exact Ej.
Qed.

Lemma shuffle_from_perm (i : nat) (xs : list A) (g : RandomState) :
  Permutation xs (fst (shuffle_from i xs g)).
Proof.
  revert xs g. induction i as [|i IH]; intros xs g; simpl; [reflexivity|].
  rewrite <- IH. apply swap_perm.
Qed.

Lemma shuffle_perm (xs : list A) (g : RandomState) :
  Permutation xs (fst (shuffle xs g)).
Proof. apply shuffle_from_perm. Qed.

Lemma swaps_perm (n : nat) (xs : list A) (g : RandomState) :
  Permutation xs (fst (swaps n xs g)).
Proof.
  revert xs g. induction n as [|n IH]; intros xs g; simpl; [reflexivity|].
  rewrite <- IH. apply swap_perm.
Qed.

Lemma _apply_swaps_perm (xs : list A) (pct : Q) (g : RandomState) :
  Permutation xs (fst (_apply_swaps xs pct g)).
Proof. apply swaps_perm. Qed.
End SwapFacts.

Lemma order_items_perm (mode : nat) (its : list Item) (g : RandomState) :
  Permutation its (fst (order_items mode its g)).
Proof.
  unfold order_items.
  destruct mode as [|[|[|[|[|[|mode]]]]]]; cbv beta zeta.
  - apply shuffle_perm.
  - rewrite <- _apply_swaps_perm. apply sort_by_perm.
  - rewrite <- _apply_swaps_perm. apply sort_by_perm.
  - rewrite <- _apply_swaps_perm. apply sort_by_perm.
  - set (sorted := sort_by (fun a b => Qltb b a) base_area its).
    pose proof (shuffle_perm (skipn (Nat.div (List.length sorted) 3) sorted) g)
      as Hsh.
    destruct (shuffle (skipn (Nat.div (List.length sorted) 3) sorted) g)
      as [rest g'].
    simpl in *.
    etransitivity; [apply (sort_by_perm (fun a b => Qltb b a) base_area)|].
    fold sorted.
    rewrite <- (firstn_skipn (Nat.div (List.length sorted) 3) sorted) at 1.
    now apply Permutation_app_head.
  - rewrite <- _apply_swaps_perm. apply sort_by_perm.
  - reflexivity.
Qed.

(** *** Super Compute Monte Carlo: the greedy pass *)

Lemma greedy_scan_move (c : Container) (axis_p : Axis) (it : Item)
    (p : Pos) (rot : nat) (gap : Q) :
  greedy_scan c axis_p it = Some (p, rot, gap) ->
  exists a t,
    get_all_valid_anchors c (set_rotation rot it) 0 None axis_p = a :: t /\
    p = anchor_pos a.
Proof.
  unfold greedy_scan.
  set (I := fun best : option (Pos * nat * Q) =>
    match best with
    | None => True
    | Some (p, rot, _) =>
        exists a t,
          get_all_valid_anchors c (set_rotation rot it) 0 None axis_p = a :: t
          /\ p = anchor_pos a
    end).
  intro Hs.
  match type of Hs with fold_left ?f ?xs ?s = _ =>
    assert (HI : I (fold_left f xs s)) end.
  { apply fold_left_inv; [exact Logic.I|].
    intros b rot' _ Hb.
    destruct (find_best_fit c (set_rotation rot' it) 0 None axis_p)
      as [[[[ax ay] az] gap']|] eqn:Ef; [|assumption].
    apply find_best_fit_anchor in Ef. destruct Ef as (a & t & Ha & Hp & _).
    match goal with |- I (if ?b then _ else _) => destruct b end;
      [|assumption].
    simpl. eauto. }
  rewrite Hs in HI. exact HI.
Qed.

Lemma trial_result_cons (c c1 c' : Container) (it : Item) (its : list Item) :
  trial_result c [it] c1 -> trial_result c1 its c' ->
  trial_result c (it :: its) c'.
Proof.
  intros (Hi1 & (HL1 & HW1 & HH1 & HM1) & Hc1 & HP1)
         (Hi2 & (HL2 & HW2 & HH2 & HM2) & Hc2 & HP2).
  split; [assumption|]. split; [repeat split; congruence|]. split.
  - rewrite Hc2, Hc1. simpl. lia.
  - intros P HPb Hall Hitems. inversion Hall; subst.
    apply HP2; auto.
Qed.

Lemma greedy_step_result (axis_p : Axis) (c : Container) (it : Item) :
  trial_inv c -> trial_result c [it] (greedy_step axis_p c it).
Proof.
  intro Hc. unfold greedy_step.
  destruct (overweight c it) eqn:Eo.
  - now apply trial_result_unpack.
  - destruct (greedy_scan c axis_p it) as [[[p rot] gap]|] eqn:Eg.
    + apply greedy_scan_move in Eg. destruct Eg as (a & t & Ha & ->).
      eapply (trial_result_step c [it] [] it); simpl; auto.
      apply trial_result_refl. apply add_item_inv; auto.
      apply (get_all_valid_anchors_valid c (set_rotation rot it)
               0 None axis_p a).
      rewrite Ha. now left.
    + now apply trial_result_unpack.
Qed.

Lemma greedy_pass_result (axis_p : Axis) (its : list Item) (c : Container) :
  trial_inv c -> trial_result c its (greedy_pass axis_p c its).
Proof.
  revert c. induction its as [|it its IH]; intros c Hc.
  - now apply trial_result_refl.
  - unfold greedy_pass. simpl.
    pose proof (greedy_step_result axis_p c it Hc) as Hstep.
    eapply trial_result_cons; [exact Hstep|].
    apply IH. apply Hstep.
Qed.

(** ** Trials *)

Lemma copy_items_length (base : list Item) :
  List.length (copy_items base) = List.length base.
Proof. apply length_map. Qed.

Lemma copy_items_Forall (P : Item -> Prop) (base : list Item) :
  body_stable P -> Forall P base -> Forall P (copy_items base).
Proof.
  intros HP Hb. unfold copy_items. apply Forall_map.
  eapply Forall_impl; [|exact Hb]. intros a Ha.
  eapply HP; [|exact Ha]. repeat split.
Qed.

Lemma finished_of_result (cl cw ch mw : Q) (base pool : list Item)
    (c : Container) :
  Permutation (copy_items base) pool ->
  trial_result (new_Container cl cw ch mw) pool c ->
  finished_trial cl cw ch mw base c.
Proof.
  intros Hperm (Hinv & Hbin & Hcount & HP).
  split; [assumption|]. split; [assumption|]. split.
  - rewrite Hcount. simpl.
    rewrite <- (Permutation_length Hperm). apply copy_items_length.
  - intros P HPb Hbase. apply HP; auto.
    eapply Permutation_Forall; [exact Hperm|].
    now apply copy_items_Forall.
Qed.

Lemma run_trial_result (strat : Strategy) (axis_p : Axis) (i : nat)
    (cl cw ch mw : Q) (base : list Item) (g : RandomState) :
  exists c g', run_trial strat axis_p i cl cw ch mw base g = Returned (c, g')
               /\ finished_trial cl cw ch mw base c.
Proof.
  unfold run_trial. destruct strat.
  - destruct (scarcity_loop_result (List.length (copy_items base)) axis_p
                (new_Container cl cw ch mw) (copy_items base))
      as (c & -> & Hres); [apply new_Container_inv | lia |].
    exists c, g. split; [reflexivity|].
    eapply finished_of_result; [reflexivity | exact Hres].
  - destruct (spot_loop_result (List.length (copy_items base)) axis_p
                (new_Container cl cw ch mw) (copy_items base))
      as (c & -> & Hres); [apply new_Container_inv | lia |].
    exists c, g. split; [reflexivity|].
    eapply finished_of_result; [reflexivity | exact Hres].
  - pose proof (order_items_perm (Nat.modulo i 6) (copy_items base) g) as Hp.
    destruct (order_items (Nat.modulo i 6) (copy_items base) g)
      as [items_to_pack g'].
    simpl in Hp. eexists. exists g'. split; [reflexivity|].
    eapply finished_of_result; [exact Hp|].
    apply greedy_pass_result, new_Container_inv.
Qed.

(** ** The scorer *)

Lemma calculate_balance_score_cases (c : Container) :
  (current_weight c == 0 /\ calculate_balance_score c = BareFloat 50) \/
  (~ current_weight c == 0 /\
   exists d r, calculate_balance_score c = Pair d r /\ d = Qabs (50 - r)).
Proof.
  unfold calculate_balance_score.
  destruct (Qeqb (current_weight c) 0) eqn:E.
  - left. apply Qeqb_true in E. auto.
  - right. apply Qeqb_false in E. split; [assumption|]. eauto.
Qed.

Lemma score_trial_cases (strat : Strategy) (t : Container) (b : Best) :
  (current_weight t == 0 /\ score_trial strat t b = Raised TypeError) \/
  (~ current_weight t == 0 /\
   exists b', score_trial strat t b = Returned b' /\
     (b' = b \/ best_container b' = Some t) /\
     (best_container b' <> None)).
Proof.
  unfold score_trial.
  destruct (calculate_balance_score_cases t) as [[Hz ->] | [Hnz (d & r & -> & _)]].
  - left. split; [assumption | reflexivity].
  - right. split; [assumption|]. simpl.
    destruct (best_container b) as [inc|] eqn:Eb.
    + repeat match goal with
        | |- context [if ?x then _ else _] => destruct x
        end;
        eexists; (split; [reflexivity|]); simpl;
        (split; [auto | congruence]).
    + eexists. split; [reflexivity|]. simpl. split; [auto | congruence].
Qed.

Lemma fold_outcome_inv {A S : Type} (f : S -> A -> outcome S) (I : S -> Prop)
    (xs : list A) (s s' : S) :
  I s ->
  (forall s a s', In a xs -> I s -> f s a = Returned s' -> I s') ->
  fold_outcome f xs s = Returned s' -> I s'.
Proof.
  revert s. induction xs as [|a xs IH]; intros s Hs Hf Hrun; simpl in Hrun.
  - injection Hrun as <-. assumption.
  - destruct (f s a) as [s1| |] eqn:E1; simpl in Hrun; try discriminate.
    apply (IH s1); auto.
    + eapply Hf; eauto. now left.
    + intros. eapply Hf; eauto. now right.
Qed.

Lemma trial_step_scored (strat : Strategy) (i : nat) (cl cw ch mw : Q)
    (base : list Item) (st st' : SearchState) (axis_p : Axis) :
  best_scored cl cw ch mw base (fst st) ->
  trial_step strat i cl cw ch mw base st axis_p = Returned st' ->
  best_scored cl cw ch mw base (fst st').
Proof.
  destruct st as [b g]. unfold trial_step. simpl. intros Hb Hrun.
  destruct (run_trial_result strat axis_p i cl cw ch mw base g)
    as (t & g' & Ht & Hfin).
  rewrite Ht in Hrun. simpl in Hrun.
  destruct (score_trial_cases strat t b)
    as [[_ Hs] | [Hnz (b' & Hs & Hcase & _)]];
    rewrite Hs in Hrun; simpl in Hrun; [discriminate|].
  injection Hrun as <-. simpl.
  destruct Hcase as [-> | Hnew]; [assumption|].
  intros c Hc. rewrite Hnew in Hc. injection Hc as <-.
  split; assumption.
Qed.

Lemma search_scored (cl cw ch : Q) (base : list Item) (mw : Q) (n : nat)
    (st st' : SearchState) :
  best_scored cl cw ch mw base (fst st) ->
  search cl cw ch base mw n st = Returned st' ->
  best_scored cl cw ch mw base (fst st').
Proof.
  intros Hst. unfold search.
  apply (fold_outcome_inv _
           (fun s => best_scored cl cw ch mw base (fst s))); [assumption|].
  intros s1 strat s1' _ Hs1.
  apply (fold_outcome_inv _
           (fun s => best_scored cl cw ch mw base (fst s))); [assumption|].
  intros s2 i s2' _ Hs2.
  apply (fold_outcome_inv _
           (fun s => best_scored cl cw ch mw base (fst s))); [assumption|].
  intros s3 axis_p s3' _ Hs3. now apply trial_step_scored.
Qed.

(** Every state returned by [solve_packing] is a finished trial that went
    through the scorer. *)
Lemma solve_packing_returned (cl cw ch : Q) (items_data : list ItemData)
    (mw : Q) (bw : bool) (n : nat) (g : RandomState) (c : Container) :
  solve_packing cl cw ch items_data mw bw n g = Returned (Some c) ->
  scored_trial cl cw ch mw (base_items_raw items_data) c.
Proof.
  unfold solve_packing. intro Hrun.
  destruct (search cl cw ch (base_items_raw items_data) mw n (initial_best, g))
    as [st| |] eqn:Es; simpl in Hrun; try discriminate.
  injection Hrun as Hbest.
  apply search_scored in Es; [now apply Es|].
  intros c0 Hc0. discriminate.
Qed.

(** ** The search always ends, and only one error can come out of it *)

Lemma fold_outcome_total {A S : Type} (f : S -> A -> outcome S)
    (I J : S -> Prop) (xs : list A) (s : S) :
  I s ->
  (forall s a, In a xs -> I s ->
     (exists s', f s a = Returned s' /\ I s' /\ J s') \/
     f s a = Raised TypeError) ->
  (exists s', fold_outcome f xs s = Returned s' /\ I s' /\ (xs <> [] -> J s'))
  \/ fold_outcome f xs s = Raised TypeError.
Proof.
  revert s. induction xs as [|a xs IH]; intros s Hs Hf; simpl.
  - left. exists s. repeat split; auto. congruence.
  - destruct (Hf s a (or_introl eq_refl) Hs) as [(s1 & -> & HI1 & HJ1) | ->];
      [|now right].
    simpl. destruct (IH s1 HI1) as [(s' & Hrun & HI' & HJ') | Hrun].
    + intros; apply Hf; simpl; auto.
    + left. exists s'. repeat split; auto. intros _.
      destruct xs as [|a' xs']; [|apply HJ'; congruence].
      simpl in Hrun. injection Hrun as <-. assumption.
    + now right.
Qed.

Lemma trial_step_total (strat : Strategy) (i : nat) (cl cw ch mw : Q)
    (base : list Item) (st : SearchState) (axis_p : Axis) :
  (exists st', trial_step strat i cl cw ch mw base st axis_p = Returned st'
               /\ best_container (fst st') <> None) \/
  trial_step strat i cl cw ch mw base st axis_p = Raised TypeError.
Proof.
  destruct st as [b g]. unfold trial_step.
  destruct (run_trial_result strat axis_p i cl cw ch mw base g)
    as (t & g' & -> & _). simpl.
  destruct (score_trial_cases strat t b)
    as [[_ ->] | [_ (b' & -> & _ & Hsome)]]; simpl.
  - now right.
  - left. eexists. split; [reflexivity | assumption].
Qed.

Lemma iteration_total (strat : Strategy) (i : nat) (cl cw ch mw : Q)
    (base : list Item) (st : SearchState) :
  (exists st',
     fold_outcome (trial_step strat i cl cw ch mw base) sub_strategies st
       = Returned st' /\ best_container (fst st') <> None) \/
  fold_outcome (trial_step strat i cl cw ch mw base) sub_strategies st
    = Raised TypeError.
Proof.
  destruct (fold_outcome_total (trial_step strat i cl cw ch mw base)
              (fun _ => True) (fun s => best_container (fst s) <> None)
              sub_strategies st Logic.I) as [(st' & Hrun & _ & HJ) | Hrun].
  - intros s a _ _.
    destruct (trial_step_total strat i cl cw ch mw base s a)
      as [(s' & Hs & Hb) | Hs]; [left; eauto | now right].
  - left. exists st'. split; [assumption|]. apply HJ. discriminate.
  - now right.
Qed.

Lemma search_total (cl cw ch : Q) (base : list Item) (mw : Q) (n : nat)
    (st : SearchState) :
  (exists st', search cl cw ch base mw n st = Returned st' /\
               best_container (fst st') <> None) \/
  search cl cw ch base mw n st = Raised TypeError.
Proof.
  unfold search, strategies.
  set (pass := fun (s : SearchState) (strat : Strategy) =>
    fold_outcome (fun s i =>
      fold_outcome (trial_step strat i cl cw ch mw base) sub_strategies s)
      (seq 0 (iterations_of strat n)) s).
  assert (Hone : forall strat s, iterations_of strat n = 1%nat ->
            (exists s', pass s strat = Returned s' /\
                        best_container (fst s') <> None) \/
            pass s strat = Raised TypeError).
  { intros strat s Hit. unfold pass. rewrite Hit.
    change (seq 0 1) with [0%nat]. cbn [fold_outcome].
    destruct (iteration_total strat 0 cl cw ch mw base s)
      as [(s' & -> & Hb) | ->]; simpl; [left; eauto | now right]. }
  assert (Hkeep : forall strat s, best_container (fst s) <> None ->
            (exists s', pass s strat = Returned s' /\
                        best_container (fst s') <> None) \/
            pass s strat = Raised TypeError).
  { intros strat s Hs. unfold pass.
    destruct (fold_outcome_total
                (fun s i => fold_outcome (trial_step strat i cl cw ch mw base)
                              sub_strategies s)
                (fun s => best_container (fst s) <> None) (fun _ => True)
                (seq 0 (iterations_of strat n)) s Hs)
      as [(s' & Hrun & HI & _) | Hrun].
    - intros s0 i _ _.
      destruct (iteration_total strat i cl cw ch mw base s0)
        as [(s' & Hs' & Hb) | Hs']; [left; eauto | now right].
    - left; eauto.
    - now right. }
  change (fold_outcome pass
            [Global_Scarcity_Fit; Spot_Centric_Fit; Super_Compute_Monte_Carlo] st)
    with (do s1 <- pass st Global_Scarcity_Fit;
          do s2 <- pass s1 Spot_Centric_Fit;
          do s3 <- pass s2 Super_Compute_Monte_Carlo; Returned s3).
  destruct (Hone Global_Scarcity_Fit st eq_refl) as [(s1 & -> & H1) | ->];
    [|now right]. simpl.
  destruct (Hone Spot_Centric_Fit s1 eq_refl) as [(s2 & -> & H2) | ->];
    [|now right]. simpl.
  destruct (Hkeep Super_Compute_Monte_Carlo s2 H2) as [(s3 & -> & H3) | ->];
    [|now right]. simpl.
  left. eauto.
Qed.

(** X8. [solve_packing] either returns a container or raises [TypeError]; its
    loops never run out of rounds. *)
Lemma solve_packing_finishes (cl cw ch : Q) (items_data : list ItemData)
    (mw : Q) (bw : bool) (n : nat) (g : RandomState) :
  (exists c, solve_packing cl cw ch items_data mw bw n g = Returned (Some c))
  \/ solve_packing cl cw ch items_data mw bw n g = Raised TypeError.
Proof.
  unfold solve_packing.
  destruct (search_total cl cw ch (base_items_raw items_data) mw n
              (initial_best, g)) as [(st & -> & Hb) | ->]; [|now right].
  simpl. destruct (best_container (fst st)) as [c|]; [|contradiction].
  left. eauto.
Qed.

(** * The invariants of returned states *)

Lemma two_crates_returned :
  solve_packing 10 10 10 two_crates 20000 false 2 zero_draws
  = Returned (Some two_crates_plan).
Proof. vm_compute. reflexivity. Qed.

Example two_crates_positions :
  map (fun it => (x it, y it, z it, rotation it)) (items two_crates_plan)
  = [(0, 0, 0, 0%nat); (4, 0, 0, 0%nat)].
Proof. reflexivity. Qed.

(** C1. No two distinct placed items of a state returned by
    [solve_packing] overlap by more than [EPSILON] in all three axes at
    once, the boxes being taken with the rotation-effective dimensions. *)
Theorem solve_packing_no_overlap (cl cw ch : Q) (items_data : list ItemData)
    (mw : Q) (bw : bool) (n : nat) (g : RandomState) (c : Container) :
  solve_packing cl cw ch items_data mw bw n g = Returned (Some c) ->
  no_overlap (items c).
Proof.
  intro Hrun. apply solve_packing_returned in Hrun.
  destruct Hrun as [[Hinv _] _]. apply Hinv.
Qed.

Lemma solve_packing_no_overlap_witness :
  no_overlap (items two_crates_plan).
Proof.
  apply (solve_packing_no_overlap 10 10 10 two_crates 20000 false 2 zero_draws).
  vm_compute. reflexivity.
Defined.

Lemma base_items_raw_Forall (P : Item -> Prop) (items_data : list ItemData) :
  (forall d, In d items_data ->
     P (new_Item (d_name d) (d_l d) (d_w d) (d_h d) (d_weight d))) ->
  Forall P (base_items_raw items_data).
Proof.
  intro Hd. unfold base_items_raw. apply Forall_forall. intros it Hin.
  apply in_flat_map in Hin. destruct Hin as (d & Hdin & Hin).
  apply repeat_spec in Hin. subst it. now apply Hd.
Qed.




(** C3. In a state returned by [solve_packing] the placed items weigh
    together at most the weight capacity, which is the [max_weight_kg] of
    the call. *)
Theorem solve_packing_weight_budget (cl cw ch : Q)
    (items_data : list ItemData) (mw : Q) (bw : bool) (n : nat)
    (g : RandomState) (c : Container) :
  solve_packing cl cw ch items_data mw bw n g = Returned (Some c) ->
  placed_weight c <= max_weight c /\ max_weight c = mw.
Proof.
  intro Hrun. apply solve_packing_returned in Hrun.
  destruct Hrun as [(Hinv & (_ & _ & _ & HM) & _) Hnz].
  split; [|exact HM].
  rewrite <- (inv_weight c Hinv).
  destruct (inv_budget c Hinv) as [Hnil | Hle]; [exfalso | exact Hle].
  apply Hnz. rewrite (inv_weight c Hinv). unfold placed_weight.
  rewrite Hnil. reflexivity.
Qed.

Lemma solve_packing_weight_budget_witness :
  placed_weight two_crates_plan <= max_weight two_crates_plan /\
  max_weight two_crates_plan = 20000.
Proof.
  apply (solve_packing_weight_budget 10 10 10 two_crates 20000 false 2
           zero_draws).
  vm_compute. reflexivity.
Defined.




(** * Unplaceable items *)

(** X9. A state in which nothing is placed never comes back from
    [solve_packing]: its total weight is 0, and scoring it fails. *)
Lemma solve_packing_never_all_unplaced (cl cw ch : Q)
    (items_data : list ItemData) (mw : Q) (bw : bool) (n : nat)
    (g : RandomState) (c : Container) :
  solve_packing cl cw ch items_data mw bw n g = Returned (Some c) ->
  items c <> [].
Proof.
  intro Hrun. apply solve_packing_returned in Hrun.
  destruct Hrun as [(Hinv & _) Hnz]. intro Hnil. apply Hnz.
  rewrite (inv_weight c Hinv). unfold placed_weight. rewrite Hnil. reflexivity.
Qed.

(** C5 (the code departs from it). A crate larger than the container on
    every axis ends the first trial with nothing placed; the scorer then
    unpacks the bare 50.0 of [calculate_balance_score] and the call
    raises [TypeError] instead of returning the all-unplaced state,
    whatever the number of simulations and the random draws. *)
Theorem solve_packing_oversize_raises (n : nat) (g : RandomState) :
  solve_packing 10 10 10 oversize_crate 20000 false n g = Raised TypeError.
Proof. reflexivity. Qed.

(** * The longitudinal balance ratio *)

Lemma py_sum_total (f : Item -> Q) (its : list Item) :
  py_sum (map f its) == total f its.
Proof.
  unfold py_sum.
  assert (Hgen : forall a, fold_left Qplus (map f its) a == a + total f its).
  { induction its as [|it its IH]; intro a; simpl.
    - ring.
    - rewrite IH. ring. }
  rewrite Hgen. ring.
Qed.

Lemma total_pos (f : Item -> Q) (its : list Item) :
  its <> [] -> Forall (fun it => 0 < f it) its -> 0 < total f its.
Proof.
  intros Hne Hpos. induction Hpos as [|it its Hit Hits IH]; [contradiction|].
  simpl. destruct its as [|it' its'].
  - simpl. lra.
  - assert (0 < total f (it' :: its')) by (apply IH; discriminate). lra.
Qed.

Lemma nose_fold (mid : Q) (its : list Item) (a : Q) :
  fold_left (fun acc it =>
    let item_mid := x it + fst (fst (get_dimension it)) / 2 in
    if Qltb item_mid mid then acc + weight it
    else if Qeqb item_mid mid then acc + weight it * (1 # 2)
    else acc) its a
  == a + total weight (filter (fun it => Qltb (item_mid it) mid) its)
       + total weight (filter (fun it => Qeqb (item_mid it) mid) its) / 2.
Proof.
  revert a. induction its as [|it its IH]; intro a; simpl.
  - field.
  - rewrite IH.
    change (x it + fst (fst (get_dimension it)) / 2) with (item_mid it).
    set (T1 := total weight (filter (fun it => Qltb (item_mid it) mid) its)).
    set (T2 := total weight (filter (fun it => Qeqb (item_mid it) mid) its)).
    destruct (Qltb (item_mid it) mid) eqn:Elt;
      destruct (Qeqb (item_mid it) mid) eqn:Eeq;
      simpl; fold T1 T2; try field.
    reflect_hyps. lra.
Qed.

(** C7 (amended). For a state with at least one placed item, positive
    item weights and a current weight that is the total placed weight, the
    ratio computed by [calculate_balance_score] is the weight of the items
    whose x-midpoint lies before the container's length midpoint, plus
    half the weight of the items whose x-midpoint is exactly that
    midpoint, divided by the total placed weight, times 100; the first
    component is its distance to 50. *)
Theorem calculate_balance_score_ratio (c : Container) :
  items c <> [] ->
  Forall (fun it => 0 < weight it) (items c) ->
  current_weight c == placed_weight c ->
  exists r, calculate_balance_score c = Pair (Qabs (50 - r)) r /\
            r == longitudinal_ratio c.
Proof.
  intros Hne Hpos Hcw. unfold placed_weight in Hcw.
  rewrite py_sum_total in Hcw.
  pose proof (total_pos weight (items c) Hne Hpos) as Htot.
  unfold calculate_balance_score.
  destruct (Qeqb (current_weight c) 0) eqn:Ez.
  - apply Qeqb_true in Ez. lra.
  - eexists. split; [reflexivity|].
    unfold longitudinal_ratio, nose_weight.
    rewrite nose_fold, Hcw. apply Qmult_comp; [|reflexivity].
    apply Qdiv_comp; [|reflexivity]. ring.
Qed.

Lemma calculate_balance_score_ratio_witness :
  exists r, calculate_balance_score long_beam_plan = Pair (Qabs (50 - r)) r /\
            r == longitudinal_ratio long_beam_plan.
Proof.
  apply (calculate_balance_score_ratio long_beam_plan).
  - discriminate.
  - repeat constructor.
  - reflexivity.
Defined.

Example long_beam_placement :
  map (fun it => (name it, x it, x_extent it, weight it)) (items long_beam_plan)
  = [("beam"%string, 0, 6, 2)].
Proof. reflexivity. Qed.

(** C7 as stated fails: the beam returned for [long_beam] lies on
    [0, 6], across the midpoint 5, yet its midpoint 3 is before 5, so the
    scorer counts its whole weight (ratio 100) where the half-weight rule
    for every straddling item gives 50. *)
Lemma balance_ratio_straddling_counterexample :
  solve_packing 10 10 10 long_beam 100 false 0 zero_draws
    = Returned (Some long_beam_plan) /\
  Forall (fun it => straddles long_beam_plan it = true) (items long_beam_plan)
  /\ exists d r, calculate_balance_score long_beam_plan = Pair d r /\
       r == 100 /\ straddling_ratio long_beam_plan == 50 /\
       ~ r == straddling_ratio long_beam_plan.
Proof.
  split; [vm_compute; reflexivity|].
  split; [repeat constructor|].
  eexists. eexists. split; [vm_compute; reflexivity|].
  split; [vm_compute; reflexivity|].
  split; [vm_compute; reflexivity|].
  vm_compute. discriminate.
Qed.

(** * The trial scorer *)

Lemma score_trial_eq (strat : Strategy) (t : Container) (b : Best) (d r : Q) :
  calculate_balance_score t = Pair d r ->
  score_trial strat t b =
  let packed_count := Z.of_nat (List.length (items t)) in
  let packed_vol := placed_volume t in
  let current_score := d - strat_bonus strat in
  match best_container b with
  | None => Returned (mkBest (Some t) packed_count packed_vol current_score)
  | Some _ =>
      if Z.ltb (best_item_count b) packed_count then
        Returned (mkBest (Some t) packed_count packed_vol current_score)
      else if Z.eqb packed_count (best_item_count b) then
        if Qltb (best_utilization b + VOLUME_TIE) packed_vol then
          Returned (mkBest (Some t) (best_item_count b) packed_vol
                      current_score)
        else if Qltb (Qabs (packed_vol - best_utilization b)) VOLUME_TIE then
          if Qltb current_score (best_balance_diff b) then
            Returned (mkBest (Some t) (best_item_count b)
                        (best_utilization b) current_score)
          else Returned b
        else Returned b
      else Returned b
  end.
Proof. intro Hs. unfold score_trial. rewrite Hs. reflexivity. Qed.

(** What the scoring block does with a trial of nonzero placed weight, in
    terms of the key it holds for the current best. *)
Lemma score_trial_against_record (strat : Strategy) (t inc : Container)
    (b : Best) :
  best_container b = Some inc ->
  ~ current_weight t == 0 ->
  exists r,
    calculate_balance_score t = Pair (Qabs (50 - r)) r /\
    let n := Z.of_nat (List.length (items t)) in
    let v := placed_volume t in
    let s := balance_deviation strat r in
    let wins := fun vol =>
      score_trial strat t b = Returned (mkBest (Some t) n vol s) in
    let stays := score_trial strat t b = Returned b in
    ((best_item_count b < n)%Z -> wins v) /\
    ((n < best_item_count b)%Z -> stays) /\
    (n = best_item_count b -> best_utilization b + VOLUME_TIE < v -> wins v) /\
    (n = best_item_count b -> Qabs (v - best_utilization b) < VOLUME_TIE ->
       s < best_balance_diff b -> wins (best_utilization b)) /\
    (n = best_item_count b -> Qabs (v - best_utilization b) < VOLUME_TIE ->
       best_balance_diff b <= s -> stays) /\
    (n = best_item_count b -> v <= best_utilization b + VOLUME_TIE ->
       VOLUME_TIE <= Qabs (v - best_utilization b) -> stays).
Proof.
  intros Hinc Hnz.
  destruct (calculate_balance_score_cases t) as [[Hz _] | [_ (d & r & Hs & ->)]];
    [contradiction|].
  exists r. split; [assumption|].
  rewrite (score_trial_eq strat t b _ _ Hs), Hinc.
  change (Qabs (50 - r) - strat_bonus strat) with (balance_deviation strat r).
  cbv zeta.
  set (n := Z.of_nat (List.length (items t))).
  set (v := placed_volume t). set (s := balance_deviation strat r).
  repeat split.
  - intro Hlt. apply Z.ltb_lt in Hlt. now rewrite Hlt.
  - intro Hlt.
    assert (E1 : Z.ltb (best_item_count b) n = false) by (apply Z.ltb_ge; lia).
    assert (E2 : Z.eqb n (best_item_count b) = false) by (apply Z.eqb_neq; lia).
    now rewrite E1, E2.
  - intros Hn Hv. rewrite <- Hn, Z.ltb_irrefl, Z.eqb_refl.
    apply Qltb_true in Hv. now rewrite Hv.
  - intros Hn Htie Hs'. rewrite <- Hn, Z.ltb_irrefl, Z.eqb_refl.
    assert (E1 : Qltb (best_utilization b + VOLUME_TIE) v = false).
    { apply Qltb_false. revert Htie. apply Qabs_case; intros; lra. }
    apply Qltb_true in Htie, Hs'. now rewrite E1, Htie, Hs'.
  - intros Hn Htie Hs'. rewrite <- Hn, Z.ltb_irrefl, Z.eqb_refl.
    assert (E1 : Qltb (best_utilization b + VOLUME_TIE) v = false).
    { apply Qltb_false. revert Htie. apply Qabs_case; intros; lra. }
    apply Qltb_true in Htie. apply Qltb_false in Hs'.
    now rewrite E1, Htie, Hs'.
  - intros Hn Hv Htie. rewrite <- Hn, Z.ltb_irrefl, Z.eqb_refl.
    apply Qltb_false in Hv, Htie. now rewrite Hv, Htie.
Qed.

(** C6 (amended). Let the scorer hold, for the current best [inc], its own
    key: its count of placed items, its placed volume and its
    balance-deviation.  A trial [t] with a nonzero placed weight then
    becomes the best when it has strictly more placed items; with equal
    counts, when its volume exceeds that of [inc] by more than 1e-5; with
    equal counts and volumes closer than 1e-5, when its balance-deviation
    is strictly smaller.  In every other case [inc] stays the best: fewer
    items, a volume not larger by more than 1e-5 and not closer than 1e-5
    either, or a volume tie without a strictly smaller deviation.  The
    balance-deviation of a trial is |50 - longitudinal ratio|, minus 0.5
    exactly for the scarcity and the spot-centric strategies. *)
Theorem score_trial_order (strat strat_inc : Strategy) (t inc : Container)
    (b : Best) (d_inc r_inc : Q) :
  best_container b = Some inc ->
  best_item_count b = Z.of_nat (List.length (items inc)) ->
  best_utilization b == placed_volume inc ->
  calculate_balance_score inc = Pair d_inc r_inc ->
  best_balance_diff b == balance_deviation strat_inc r_inc ->
  ~ current_weight t == 0 ->
  exists r,
    calculate_balance_score t = Pair (Qabs (50 - r)) r /\
    let n_inc := Z.of_nat (List.length (items inc)) in
    let v_inc := placed_volume inc in
    let s_inc := balance_deviation strat_inc r_inc in
    let n := Z.of_nat (List.length (items t)) in
    let v := placed_volume t in
    let s := balance_deviation strat r in
    let wins := exists vol,
      score_trial strat t b = Returned (mkBest (Some t) n vol s) in
    let stays := score_trial strat t b = Returned b in
    ((n_inc < n)%Z -> wins) /\
    ((n < n_inc)%Z -> stays) /\
    (n = n_inc -> v_inc + VOLUME_TIE < v -> wins) /\
    (n = n_inc -> Qabs (v - v_inc) < VOLUME_TIE -> s < s_inc -> wins) /\
    (n = n_inc -> Qabs (v - v_inc) < VOLUME_TIE -> s_inc <= s -> stays) /\
    (n = n_inc -> v <= v_inc + VOLUME_TIE ->
       VOLUME_TIE <= Qabs (v - v_inc) -> stays).
Proof.
  intros Hinc Hcnt Hvol _ Hdev Hnz.
  destruct (score_trial_against_record strat t inc b Hinc Hnz)
    as (r & Hr & H1 & H2 & H3 & H4 & H5 & H6).
  exists r. split; [assumption|]. cbv zeta in *.
  rewrite <- Hcnt.
  repeat split.
  - intro Hlt. eexists. now apply H1.
  - intro Hlt. now apply H2.
  - intros Hn Hv. eexists. apply H3; [assumption|]. rewrite Hvol. exact Hv.
  - intros Hn Htie Hs. eexists. apply H4; [assumption| |].
    + rewrite Hvol. exact Htie.
    + rewrite Hdev. exact Hs.
  - intros Hn Htie Hs. apply H5; [assumption| |].
    + rewrite Hvol. exact Htie.
    + rewrite Hdev. exact Hs.
  - intros Hn Hv Htie. apply H6; [assumption| |].
    + rewrite Hvol. exact Hv.
    + rewrite Hvol. exact Htie.
Qed.

Lemma score_trial_order_witness :
  score_trial Super_Compute_Monte_Carlo near_tie_trial near_tie_best
  = Returned near_tie_best.
Proof.
  edestruct (score_trial_order Super_Compute_Monte_Carlo Global_Scarcity_Fit
               near_tie_trial near_tie_plan near_tie_best)
    as (r & _ & _ & _ & _ & _ & _ & Hstays).
  - reflexivity.
  - reflexivity.
  - vm_compute. reflexivity.
  - vm_compute. reflexivity.
  - vm_compute. reflexivity.
  - vm_compute. discriminate.
  - apply Hstays.
    + reflexivity.
    + vm_compute. discriminate.
    + vm_compute. discriminate.
Defined.

(** The key the scorer holds describes the best container itself, up to
    the recorded volume, which may lag behind by less than 1e-5. *)
Lemma score_trial_record (strat : Strategy) (t : Container) (b b' : Best) :
  (forall inc, best_container b = Some inc ->
     best_item_count b = Z.of_nat (List.length (items inc)) /\
     Qabs (placed_volume inc - best_utilization b) < VOLUME_TIE) ->
  score_trial strat t b = Returned b' ->
  forall inc, best_container b' = Some inc ->
    best_item_count b' = Z.of_nat (List.length (items inc)) /\
    Qabs (placed_volume inc - best_utilization b') < VOLUME_TIE.
Proof.
  intros Hb Hrun.
  assert (Hzero : forall q : Q, Qabs (q - q) < VOLUME_TIE).
  { intro q. apply Qabs_case; intros; unfold VOLUME_TIE; lra. }
  destruct (calculate_balance_score_cases t)
    as [[_ Hs] | [_ (d & r & Hs & _)]].
  - unfold score_trial in Hrun. rewrite Hs in Hrun. discriminate.
  - rewrite (score_trial_eq strat t b _ _ Hs) in Hrun. cbv zeta in Hrun.
    destruct (best_container b) as [inc0|] eqn:Einc.
    + specialize (Hb inc0 eq_refl). destruct Hb as [Hcnt Hvol].
      destruct (Z.ltb (best_item_count b) (Z.of_nat (List.length (items t)))).
      { injection Hrun as <-. intros inc Hi. injection Hi as <-. simpl.
        split; [reflexivity | apply Hzero]. }
      destruct (Z.eqb (Z.of_nat (List.length (items t))) (best_item_count b))
        eqn:En.
      * apply Z.eqb_eq in En.
        destruct (Qltb (best_utilization b + VOLUME_TIE) (placed_volume t)).
        { injection Hrun as <-. intros inc Hi. injection Hi as <-. simpl.
          split; [congruence | apply Hzero]. }
        destruct (Qltb (Qabs (placed_volume t - best_utilization b)) VOLUME_TIE)
          eqn:Etie.
        -- apply Qltb_true in Etie.
           destruct (Qltb (d - strat_bonus strat) (best_balance_diff b)).
           ++ injection Hrun as <-. intros inc Hi. injection Hi as <-. simpl.
              split; [congruence | exact Etie].
           ++ injection Hrun as <-. intros inc Hi. rewrite Einc in Hi.
              injection Hi as <-. auto.
        -- injection Hrun as <-. intros inc Hi. rewrite Einc in Hi.
           injection Hi as <-. auto.
      * injection Hrun as <-. intros inc Hi. rewrite Einc in Hi.
        injection Hi as <-. auto.
    + injection Hrun as <-. intros inc Hi. injection Hi as <-. simpl.
      split; [reflexivity | apply Hzero].
Qed.

Example near_tie_placements :
  map (fun it => (name it, x it, y it, z it)) (items near_tie_plan)
    = [("A"%string, 0, 0, 0)] /\
  map (fun it => (name it, x it, y it, z it)) (items near_tie_trial)
    = [("B"%string, 0, 0, 0)] /\
  map name (unpacked_items near_tie_plan) = ["B"%string] /\
  map name (unpacked_items near_tie_trial) = ["A"%string].
Proof. repeat split. Qed.

(** C6 as stated fails on the boundary of the tolerance: for [near_tie]
    the first randomized trial places B, as many items as the current
    best (A alone) and a volume larger by exactly 1e-5, which is not a
    difference of less than 1e-5; the ordering of the claim makes the new
    trial win, the scorer keeps the old one and A is returned. *)
Lemma scorer_volume_boundary_counterexample :
  best_container near_tie_best = Some near_tie_plan /\
  (exists g', run_trial Super_Compute_Monte_Carlo AxisX 0 10 10 10 1
                (base_items_raw near_tie) zero_draws
              = Returned (near_tie_trial, g')) /\
  List.length (items near_tie_trial) = List.length (items near_tie_plan) /\
  placed_volume near_tie_plan < placed_volume near_tie_trial /\
  ~ Qabs (placed_volume near_tie_trial - placed_volume near_tie_plan)
      < 1 # 100000 /\
  lexicographic_winner
    (best_item_count near_tie_best) (placed_volume near_tie_plan)
    (best_balance_diff near_tie_best)
    (Z.of_nat (List.length (items near_tie_trial)))
    (placed_volume near_tie_trial)
    (balance_deviation Super_Compute_Monte_Carlo 100) = true /\
  score_trial Super_Compute_Monte_Carlo near_tie_trial near_tie_best
    = Returned near_tie_best /\
  solve_packing 10 10 10 near_tie 1 false 1 zero_draws
    = Returned (Some near_tie_plan) /\
  near_tie_plan <> near_tie_trial.
Proof.
  split; [reflexivity|].
  split; [eexists; vm_compute; reflexivity|].
  split; [reflexivity|].
  split; [vm_compute; reflexivity|].
  split; [vm_compute; discriminate|].
  split; [vm_compute; reflexivity|].
  split; [vm_compute; reflexivity|].
  split; [vm_compute; reflexivity|].
  vm_compute. discriminate.
Qed.

(** * The scarcity round *)

(** ** Order properties of the keys *)

Lemma lex_step_trans (a b c : Q) (rab rbc rac : bool) :
  (rab = true -> rbc = true -> rac = true) ->
  lex_step a b rab = true -> lex_step b c rbc = true ->
  lex_step a c rac = true.
Proof.
  unfold lex_step. intro Hr.
  destruct (Qeqb a b) eqn:Eab; destruct (Qeqb b c) eqn:Ebc;
    destruct (Qeqb a c) eqn:Eac; simpl; intros Hab Hbc; reflect_hyps;
    auto; try (apply Qltb_true); try lra; exfalso; lra.
Qed.

Lemma lex_step_negtrans (a b c : Q) (rab rbc rac : bool) :
  (rac = true -> rab = true \/ rbc = true) ->
  lex_step a c rac = true ->
  lex_step a b rab = true \/ lex_step b c rbc = true.
Proof.
  unfold lex_step. intro Hr.
  destruct (Qeqb a b) eqn:Eab; destruct (Qeqb b c) eqn:Ebc;
    destruct (Qeqb a c) eqn:Eac; simpl; intros Hac; reflect_hyps;
    auto; rewrite ?Qltb_true; try (exfalso; lra).
  - right. lra.
  - left. lra.
  - destruct (Qlt_le_dec a b); [left; assumption | right; lra].
  - destruct (Qlt_le_dec a b); [left; assumption | right; lra].
Qed.

Lemma lex_step_asym (a b : Q) (rab rba : bool) :
  (rab = true -> rba = false) ->
  lex_step a b rab = true -> lex_step b a rba = false.
Proof.
  unfold lex_step. intro Hr.
  destruct (Qeqb a b) eqn:Eab; destruct (Qeqb b a) eqn:Eba; simpl;
    intros Hab; reflect_hyps; auto; try (apply Qltb_false); try lra;
    exfalso; lra.
Qed.

Lemma Qltb_trans (a b c : Q) :
  Qltb a b = true -> Qltb b c = true -> Qltb a c = true.
Proof. rewrite !Qltb_true. lra. Qed.

Lemma Qltb_negtrans (a b c : Q) :
  Qltb a c = true -> Qltb a b = true \/ Qltb b c = true.
Proof.
  rewrite !Qltb_true. intro Hac.
  destruct (Qlt_le_dec a b); [left; assumption | right; lra].
Qed.

Lemma Qltb_asym (a b : Q) : Qltb a b = true -> Qltb b a = false.
Proof. rewrite Qltb_true, Qltb_false. lra. Qed.

Lemma key4_ltb_trans (a b c : Key4) :
  key4_ltb a b = true -> key4_ltb b c = true -> key4_ltb a c = true.
Proof.
  destruct a as [[[a1 a2] a3] a4], b as [[[b1 b2] b3] b4],
    c as [[[c1 c2] c3] c4]. unfold key4_ltb.
  repeat (apply lex_step_trans). apply Qltb_trans.
Qed.

Lemma key4_ltb_negtrans (a b c : Key4) :
  key4_ltb a c = true -> key4_ltb a b = true \/ key4_ltb b c = true.
Proof.
  destruct a as [[[a1 a2] a3] a4], b as [[[b1 b2] b3] b4],
    c as [[[c1 c2] c3] c4]. unfold key4_ltb.
  repeat (apply lex_step_negtrans). apply Qltb_negtrans.
Qed.

Lemma key4_ltb_asym (a b : Key4) :
  key4_ltb a b = true -> key4_ltb b a = false.
Proof.
  destruct a as [[[a1 a2] a3] a4], b as [[[b1 b2] b3] b4]. unfold key4_ltb.
  repeat (apply lex_step_asym). apply Qltb_asym.
Qed.

Lemma score_key_ltb_spec (a b : nat * Q) :
  score_key_ltb a b = true <->
  (fst a < fst b)%nat \/ (fst a = fst b /\ snd a < snd b).
Proof.
  unfold score_key_ltb.
  destruct (Nat.eqb (fst a) (fst b)) eqn:E; simpl.
  - apply Nat.eqb_eq in E. rewrite Qltb_true. split.
    + intro Hlt. right. split; assumption.
    + intros [Hlt | [_ Hlt]]; [lia | assumption].
  - apply Nat.eqb_neq in E. rewrite Nat.ltb_lt. split.
    + intro Hlt. now left.
    + intros [Hlt | [Heq _]]; [assumption | contradiction].
Qed.

Lemma score_key_ltb_trans (a b c : nat * Q) :
  score_key_ltb a b = true -> score_key_ltb b c = true ->
  score_key_ltb a c = true.
Proof.
  rewrite !score_key_ltb_spec.
  intros [H1 | [H1 H1']] [H2 | [H2 H2']]; try (left; lia).
  right. split; [lia | lra].
Qed.

Lemma score_key_ltb_negtrans (a b c : nat * Q) :
  score_key_ltb a c = true ->
  score_key_ltb a b = true \/ score_key_ltb b c = true.
Proof.
  rewrite !score_key_ltb_spec. intros [Hac | [Heq Hac]].
  - destruct (Nat.lt_ge_cases (fst a) (fst b)); [left; now left|].
    right. left. lia.
  - destruct (Nat.lt_trichotomy (fst a) (fst b)) as [Hlt | [He | Hgt]].
    + left. now left.
    + destruct (Qlt_le_dec (snd a) (snd b)).
      * left. right. split; assumption.
      * right. right. split; [lia | lra].
    + right. left. lia.
Qed.

(** The head of a stable sort has no smaller element behind it. *)
Lemma sort_by_head_min {A K : Type} (ltb : K -> K -> bool) (key : A -> K)
    (xs : list A) (m : A) (t : list A) :
  (forall a b c, ltb a b = true -> ltb b c = true -> ltb a c = true) ->
  (forall a b c, ltb a c = true -> ltb a b = true \/ ltb b c = true) ->
  (forall a b, ltb a b = true -> ltb b a = false) ->
  sort_by ltb key xs = m :: t ->
  forall b, In b t -> ltb (key b) (key m) = false.
Proof.
  intros Htr Hnt Has Hs b Hb.
  destruct (sort_by_head ltb key Htr Hnt xs m t Hs)
    as (pre & post & Hxs & Hpre & Hpost).
  pose proof (sort_by_perm ltb key xs) as Hperm.
  rewrite Hs, Hxs in Hperm. symmetry in Hperm.
  apply Permutation_cons_app_inv in Hperm.
  apply (Permutation_in _ Hperm) in Hb. apply in_app_or in Hb.
  destruct Hb as [Hb | Hb]; [apply Has; now apply Hpre | now apply Hpost].
Qed.

(** The list returned by the anchor search starts with an anchor of
    least key. *)
Lemma get_all_valid_anchors_best (c : Container) (it : Item) (s : Q)
    (e : option Q) (axis_p : Axis) (a : Anchor) (others : list Anchor) :
  get_all_valid_anchors c it s e axis_p = a :: others ->
  forall a', In a' others -> key4_ltb (anchor_key a') (anchor_key a) = false.
Proof.
  unfold get_all_valid_anchors.
  destruct (get_dimension it) as [[item_l item_w] item_h].
  apply sort_by_head_min.
  - apply key4_ltb_trans.
  - apply key4_ltb_negtrans.
  - apply key4_ltb_asym.
Qed.

(** ** The entries of [scarcity_scores] *)

Lemma scarcity_scores_sorted (c : Container) (axis_p : Axis)
    (pool : list Item) (pre post : list ScarcityScore) (s : ScarcityScore) :
  scarcity_scores c axis_p pool = pre ++ s :: post ->
  forall s', In s' post -> (s_idx s < s_idx s')%nat.
Proof.
  unfold scarcity_scores, enumerate.
  set (f := fun '(idx, it) =>
    if overweight c it then []
    else match rotation_scan c axis_p it with
         | (S n, Some (r, p)) => [mkScore (S n) (- base_area it) idx r p]
         | _ => []
         end).
  assert (Hlow : forall k its s0,
            In s0 (flat_map f (combine (seq k (List.length its)) its)) ->
            (k <= s_idx s0)%nat).
  { intros k its. revert k. induction its as [|it its IH]; intros k s0 Hin;
      simpl in Hin; [contradiction|].
    apply in_app_or in Hin. destruct Hin as [Hin | Hin].
    - destruct (overweight c it); [contradiction|].
      destruct (rotation_scan c axis_p it) as [[|n] [[r p]|]];
        simpl in Hin; try contradiction.
      destruct Hin as [<- | []]. simpl. lia.
    - apply IH in Hin. lia. }
  generalize 0%nat as k. revert pre.
  induction pool as [|it its IH]; intros pre k Heq s' Hs'.
  - destruct pre; discriminate.
  - change (flat_map f (combine (seq k (List.length (it :: its))) (it :: its)))
      with (f (k, it) ++ flat_map f (combine (seq (S k) (List.length its)) its))
      in Heq.
    assert (Hhead : f (k, it) = [] \/ exists s0, f (k, it) = [s0] /\ s_idx s0 = k).
    { simpl. destruct (overweight c it); [now left|].
      destruct (rotation_scan c axis_p it) as [[|n] [[r p]|]]; auto.
      right. eexists. split; reflexivity. }
    destruct Hhead as [Hnil | (s0 & Hone & Hidx)].
    + rewrite Hnil in Heq. simpl in Heq. eapply IH; eauto.
    + rewrite Hone in Heq. simpl in Heq. destruct pre as [|p0 pre].
      * simpl in Heq. injection Heq as <- <-.
        apply Hlow in Hs'. lia.
      * simpl in Heq. injection Heq as _ Heq. eapply IH; eauto.
Qed.

Lemma candidate_scored (c : Container) (axis_p : Axis) (pool : list Item)
    (idx : nat) (it : Item) :
  candidate c axis_p pool idx it ->
  exists s, In s (scarcity_scores c axis_p pool) /\ s_idx s = idx /\
            s_spots s = total_valid_anchors c axis_p it /\
            s_neg_area s = - base_area it.
Proof.
  intros (Hnth & Hlight & Hpos).
  destruct (rotation_scan_total c axis_p it) as [Htot Hmove].
  destruct (Hmove Hpos) as ([r p] & Hsnd).
  destruct (rotation_scan c axis_p it) as [n mv] eqn:Escan.
  simpl in Htot, Hsnd. subst n mv.
  destruct (total_valid_anchors c axis_p it) as [|n] eqn:En; [lia|].
  exists (mkScore (S n) (- base_area it) idx r p).
  split; [|repeat split].
  unfold scarcity_scores. apply in_flat_map.
  exists (idx, it). split; [now apply enumerate_In|].
  rewrite Hlight, Escan. now left.
Qed.

(** * The scarcity round *)

(** What does hold of a round of Global Scarcity Fit in which some
    weight-eligible pool item has a valid anchor: the item placed next is
    such an item with the fewest valid anchors over both rotation states,
    the largest footprint among those and the smallest pool index among
    these; it is placed in one of its rotation states at the first anchor
    of the ranked list the anchor search returns for it there, an anchor
    of least key in that list. *)
Theorem scarcity_round_places_scarcest (rounds : nat) (axis_p : Axis)
    (c : Container) (pool : list Item) :
  (exists idx it, candidate c axis_p pool idx it) ->
  exists idx it rot a others rest,
    candidate c axis_p pool idx it /\
    (forall idx' it', candidate c axis_p pool idx' it' ->
       scarcer_or_equal c axis_p idx it idx' it') /\
    get_all_valid_anchors c (set_rotation rot it) 0 None axis_p = a :: others /\
    (forall a', In a' others ->
       key4_ltb (anchor_key a') (anchor_key a) = false) /\
    pop idx (scanned c pool) = Some (set_rotation 1 it, rest) /\
    scarcity_loop (S rounds) axis_p c pool =
    scarcity_loop rounds axis_p
      (add_item c (place_at rot (anchor_pos a) it)) rest.
Proof.
  intros (idx0 & it0 & Hcand0).
  assert (Hne : pool <> []).
  { destruct Hcand0 as (Hnth & _). intros ->. destruct idx0; discriminate. }
  destruct (candidate_scored _ _ _ _ _ Hcand0) as (s0 & Hs0 & _).
  destruct (sort_by score_key_ltb score_key (scarcity_scores c axis_p pool))
    as [|win sorted] eqn:Es.
  { apply (Permutation_in _ (sort_by_perm score_key_ltb score_key _)) in Hs0.
    rewrite Es in Hs0. destruct Hs0. }
  destruct (sort_by_head score_key_ltb score_key score_key_ltb_trans
              score_key_ltb_negtrans _ _ _ Es)
    as (pre & post & Hscores & Hpre & Hpost).
  assert (Hwin : In win (scarcity_scores c axis_p pool)).
  { rewrite Hscores. apply in_or_app. right. now left. }
  destruct (scarcity_scores_In _ _ _ _ Hwin)
    as (it & Hnth & Hlight & Hscan & Harea & Hspots).
  destruct (rotation_scan_move _ _ _ _ _ _ Hscan) as (Htot & a & others & Ha & Hp).
  pose proof (scanned_nth c pool _ _ Hnth) as Hsc. rewrite Hlight in Hsc.
  destruct (pop_spec _ _ _ Hsc) as (rest & Hpop & _ & _).
  exists (s_idx win), it, (s_rot win), a, others, rest.
  split; [|split; [|split; [|split; [|split]]]].
  - repeat split; auto. rewrite <- Htot. exact Hspots.
  - intros idx' it' Hcand'.
    destruct (candidate_scored _ _ _ _ _ Hcand') as (s' & Hs' & Hi' & Hn' & Ha').
    unfold scarcer_or_equal. rewrite <- Htot, <- Hn'.
    rewrite Hscores in Hs'. apply in_app_or in Hs'.
    destruct Hs' as [Hs' | [Hs' | Hs']].
    + specialize (Hpre _ Hs'). apply score_key_ltb_spec in Hpre.
      unfold score_key in Hpre. simpl in Hpre.
      destruct Hpre as [Hlt | [Heq Hlt]]; [now left|].
      right. split; [assumption|]. left. rewrite Harea, Ha' in Hlt. lra.
    + subst s'. right. split; [reflexivity|]. right.
      destruct Hcand' as (Hnth' & _). rewrite Hi' in Hnth.
      rewrite Hnth in Hnth'. injection Hnth' as <-.
      split; [reflexivity | lia].
    + pose proof (scarcity_scores_sorted _ _ _ _ _ _ Hscores _ Hs') as Hidx.
      specialize (Hpost _ Hs').
      destruct (Nat.lt_trichotomy (s_spots win) (s_spots s'))
        as [Hlt | [Heq | Hgt]].
      * now left.
      * right. split; [assumption|].
        destruct (Qlt_le_dec (base_area it') (base_area it)) as [Hal | Hage];
          [now left|].
        right. split; [|lia].
        destruct (Qlt_le_dec (base_area it) (base_area it')) as [Hbl | Hbge];
          [|lra].
        exfalso.
        assert (score_key_ltb (score_key s') (score_key win) = true).
        { apply score_key_ltb_spec. right. unfold score_key. simpl.
          split; [lia|]. rewrite Harea, Ha'. lra. }
        congruence.
      * exfalso.
        assert (score_key_ltb (score_key s') (score_key win) = true).
        { apply score_key_ltb_spec. left. unfold score_key. simpl. lia. }
        congruence.
  - exact Ha.
  - eapply get_all_valid_anchors_best; eauto.
  - exact Hpop.
  - rewrite scarcity_loop_round by assumption.
    rewrite Es, Hpop, place_at_set_rotation, Hp. reflexivity.
Qed.

Lemma scarcity_round_places_scarcest_witness :
  exists idx it rot a others rest,
    candidate scarcity_demo_container AxisX scarcity_demo_pool idx it /\
    (forall idx' it',
       candidate scarcity_demo_container AxisX scarcity_demo_pool idx' it' ->
       scarcer_or_equal scarcity_demo_container AxisX idx it idx' it') /\
    get_all_valid_anchors scarcity_demo_container (set_rotation rot it)
      0 None AxisX = a :: others /\
    (forall a', In a' others ->
       key4_ltb (anchor_key a') (anchor_key a) = false) /\
    pop idx (scanned scarcity_demo_container scarcity_demo_pool)
      = Some (set_rotation 1 it, rest) /\
    scarcity_loop 2 AxisX scarcity_demo_container scarcity_demo_pool =
    scarcity_loop 1 AxisX
      (add_item scarcity_demo_container (place_at rot (anchor_pos a) it)) rest.
Proof.
  apply (scarcity_round_places_scarcest 1 AxisX scarcity_demo_container
           scarcity_demo_pool).
  exists 0%nat, (new_Item "small" 1 1 1 1).
  split; [reflexivity|]. split; [reflexivity|].
  vm_compute. lia.
Defined.

Example scarcity_demo_round :
  map (fun s => (s_spots s, s_idx s, s_rot s, s_pos s))
    (sort_by score_key_ltb score_key
       (scarcity_scores scarcity_demo_container AxisX scarcity_demo_pool))
  = [(4%nat, 1%nat, 0%nat, (0, 3, 0));
     (18%nat, 0%nat, 0%nat, (0, 0, 0))].
Proof. vm_compute. reflexivity. Qed.

(** * Oversize items *)

Lemma z_extent_h (it : Item) : z_extent it = h it.
Proof. unfold z_extent, get_dimension. now destruct (Nat.eqb (rotation it) 1). Qed.

(** No strategy ever places an item taller than the container plus the
    tolerance. *)
Lemma run_trial_too_tall (strat : Strategy) (axis_p : Axis) (i : nat)
    (cl cw ch mw : Q) (base : list Item) (g : RandomState) :
  Forall (too_tall ch) base ->
  exists c g', run_trial strat axis_p i cl cw ch mw base g = Returned (c, g')
    /\ items c = [] /\ List.length (unpacked_items c) = List.length base
    /\ current_weight c = 0.
Proof.
  intro Htall.
  destruct (run_trial_result strat axis_p i cl cw ch mw base g)
    as (c & g' & Hrun & Hinv & (_ & _ & HH & _) & Hcount & HP).
  exists c, g'. split; [assumption|].
  assert (Hnil : items c = []).
  { assert (Hall : Forall (too_tall ch) (items c)).
    { apply HP; [|assumption].
      intros a b (_ & _ & _ & Hh & _) Ha. unfold too_tall in *.
      now rewrite <- Hh. }
    pose proof (inv_placed c Hinv) as Hpl.
    destruct (items c) as [|it its]; [reflexivity|]. exfalso.
    inversion Hall as [|? ? Hit _]; subst.
    inversion Hpl as [|? ? (Hz & _ & _ & _ & Hzh) _]; subst.
    rewrite z_extent_h, Hz, HH in Hzh. simpl in Hzh.
    unfold too_tall in Hit. lra. }
  split; [assumption|]. split.
  - rewrite Hnil in Hcount. simpl in Hcount. exact Hcount.
  - rewrite (inv_weight c Hinv). unfold placed_weight. now rewrite Hnil.
Qed.

(** X12. With such items only, the very first trial has nothing placed and the
    scorer fails on it. *)
Lemma solve_packing_too_tall_raises (cl cw ch : Q)
    (items_data : list ItemData) (mw : Q) (bw : bool) (n : nat)
    (g : RandomState) :
  Forall (too_tall ch) (base_items_raw items_data) ->
  solve_packing cl cw ch items_data mw bw n g = Raised TypeError.
Proof.
  intro Htall.
  assert (Hstep : trial_step Global_Scarcity_Fit 0 cl cw ch mw
                    (base_items_raw items_data) (initial_best, g) AxisX
                  = Raised TypeError).
  { unfold trial_step.
    destruct (run_trial_too_tall Global_Scarcity_Fit AxisX 0 cl cw ch mw
                (base_items_raw items_data) g Htall)
      as (c & g' & -> & _ & _ & Hw).
    simpl.
    destruct (score_trial_cases Global_Scarcity_Fit c initial_best)
      as [[_ ->] | [Hnz _]]; [reflexivity|].
    exfalso. apply Hnz. rewrite Hw. reflexivity. }
  unfold solve_packing, search, strategies, sub_strategies.
  cbn [fold_outcome iterations_of seq]. rewrite Hstep. reflexivity.
Qed.

(** For an input made of a single item instance whose length, width and
    height each exceed the corresponding container dimension by more than
    [EPSILON], every trial of every strategy ends with no placed item and
    that instance as the only unplaced one. *)
Theorem oversize_instance_unplaced (strat : Strategy) (axis_p : Axis) (i : nat)
    (cl cw ch mw : Q) (nm : string) (dl dw dh wt : Q) (g : RandomState) :
  cl + EPSILON < dl -> cw + EPSILON < dw -> ch + EPSILON < dh ->
  exists c g',
    run_trial strat axis_p i cl cw ch mw
      (base_items_raw [mkItemData nm dl dw dh wt 1]) g = Returned (c, g') /\
    List.length (items c) = 0%nat /\
    List.length (unpacked_items c) = 1%nat.
Proof.
  intros _ _ Hh.
  destruct (run_trial_too_tall strat axis_p i cl cw ch mw
              (base_items_raw [mkItemData nm dl dw dh wt 1]) g)
    as (c & g' & Hrun & Hnil & Hun & _).
  { repeat constructor. exact Hh. }
  exists c, g'. split; [assumption|]. rewrite Hnil. split; [reflexivity|].
  exact Hun.
Qed.

Lemma oversize_instance_unplaced_witness :
  exists c g',
    run_trial Spot_Centric_Fit AxisY 0 10 10 10 20000
      (base_items_raw [mkItemData "crate" 20 20 20 5 1]) zero_draws
      = Returned (c, g') /\
    List.length (items c) = 0%nat /\
    List.length (unpacked_items c) = 1%nat.
Proof.
  apply (oversize_instance_unplaced Spot_Centric_Fit AxisY 0 10 10 10 20000
           "crate" 20 20 20 5 zero_draws);
    unfold EPSILON, Qlt; simpl; lia.
Defined.

Example slightly_oversize_placement :
  map (fun it => (x it, y it, z it, rotation it)) (items slightly_oversize_plan)
  = [(0, 0, 0, 0%nat)].
Proof. reflexivity. Qed.

(** Inside the tolerance the bounds tests let an item through: a crate of
    10.5 x 10.5 x 10.5 is strictly larger than the 10 x 10 x 10 container
    on every axis, and it is placed. *)
Lemma oversize_within_tolerance_counterexample :
  Forall (fun d => 10 < d_l d /\ 10 < d_w d /\ 10 < d_h d /\ d_qty d = 1%Z)
    slightly_oversize_crate /\
  solve_packing 10 10 10 slightly_oversize_crate 20000 false 0 zero_draws
    = Returned (Some slightly_oversize_plan) /\
  exists s, get_container_stats slightly_oversize_plan = Returned s /\
            packed_count s = 1%nat /\ unpacked_count s = 0%nat.
Proof.
  split.
  - repeat constructor.
  - split; [vm_compute; reflexivity|].
    eexists. split; [vm_compute; reflexivity|]. split; reflexivity.
Qed.

(** * Statistics of an empty state *)

Lemma Qmult_pos (a b : Q) : 0 < a -> 0 < b -> 0 < a * b.
Proof.
  intros Ha Hb. rewrite <- (Qmult_0_l b). apply Qmult_lt_compat_r; assumption.
Qed.

(** C10. For a state with positive dimensions and nothing placed,
    [get_container_stats] returns a record, without a division by zero,
    in which the packed count, the total weight and the volume
    utilization are 0 and the three balance ratios are 50. *)
Theorem get_container_stats_empty (c : Container) :
  0 < L c -> 0 < W c -> 0 < H c -> items c = [] ->
  exists s, get_container_stats c = Returned s /\
    packed_count s = 0%nat /\ weight_total s = 0 /\
    volume_utilization s == 0 /\
    balance_ratio_len s = 50 /\ balance_ratio_width s = 50 /\
    balance_ratio_height s = 50.
Proof.
  intros HL HW HH Hnil. unfold get_container_stats, distribute.
  rewrite Hnil. simpl.
  assert (Hvol : 0 < L c * W c * H c) by (repeat apply Qmult_pos; assumption).
  destruct (Qeqb (L c * W c * H c) 0) eqn:Ez.
  - apply Qeqb_true in Ez. lra.
  - eexists. split; [reflexivity|]. simpl.
    repeat split; reflexivity.
Qed.

Lemma get_container_stats_empty_witness :
  exists s, get_container_stats (new_Container 5900 2350 2390 20000)
            = Returned s /\
    packed_count s = 0%nat /\ weight_total s = 0 /\
    volume_utilization s == 0 /\
    balance_ratio_len s = 50 /\ balance_ratio_width s = 50 /\
    balance_ratio_height s = 50.
Proof.
  apply (get_container_stats_empty (new_Container 5900 2350 2390 20000));
    try reflexivity.
Defined.

(** * Further facts about the scorer and the scarcity round *)

(** The recorded volume is not refreshed when a trial wins on balance, so
    a later trial can win on volume against a best whose own volume is
    within 1e-5 of its own.  For [drift_crates] the scorer moves from A
    to B on balance and then to C on volume, although B and C differ by
    6e-6 in volume and B is the better balanced of the two. *)
Lemma scorer_recorded_volume_example :
  solve_packing 10 10 10 drift_crates 1 false 0 counting_draws
    = Returned (Some drift_incumbent) /\
  solve_packing 10 10 10 drift_crates 1 false 1 counting_draws
    = Returned (Some drift_plan) /\
  map name (items drift_incumbent) = ["B"%string] /\
  map name (items drift_plan) = ["C"%string] /\
  Qabs (placed_volume drift_plan - placed_volume drift_incumbent)
    < VOLUME_TIE /\
  (exists d r, calculate_balance_score drift_incumbent = Pair d r /\ r == 50) /\
  (exists d r, calculate_balance_score drift_plan = Pair d r /\ r == 100).
Proof.
  split; [vm_compute; reflexivity|].
  split; [vm_compute; reflexivity|].
  split; [reflexivity|]. split; [reflexivity|].
  split; [vm_compute; reflexivity|].
  split; eexists; eexists; (split; [vm_compute; reflexivity|]);
    vm_compute; reflexivity.
Qed.

(** How the scarcity scan chooses between the two rotation states of an
    item: rotation 1 only when its first anchor is lexicographically
    smaller in (x, y, z) than the first anchor of rotation 0. *)
Lemma rotation_scan_choice (c : Container) (axis_p : Axis) (it : Item)
    (n r : nat) (p : Pos) :
  rotation_scan c axis_p it = (n, Some (r, p)) ->
  match get_all_valid_anchors c (set_rotation 0 it) 0 None axis_p,
        get_all_valid_anchors c (set_rotation 1 it) 0 None axis_p with
  | [], [] => False
  | a0 :: _, [] => r = 0%nat /\ p = anchor_pos a0
  | [], a1 :: _ => r = 1%nat /\ p = anchor_pos a1
  | a0 :: _, a1 :: _ =>
      if pos_ltb (anchor_pos a1) (anchor_pos a0)
      then r = 1%nat /\ p = anchor_pos a1
      else r = 0%nat /\ p = anchor_pos a0
  end.
Proof.
  unfold rotation_scan. simpl.
  destruct (get_all_valid_anchors c (set_rotation 0 it) 0 None axis_p)
    as [|a0 t0];
  destruct (get_all_valid_anchors c (set_rotation 1 it) 0 None axis_p)
    as [|a1 t1]; simpl; try discriminate.
  - intro Hs. injection Hs as _ <- <-. auto.
  - intro Hs. injection Hs as _ <- <-. auto.
  - destruct (pos_ltb (anchor_pos a1) (anchor_pos a0));
      intro Hs; injection Hs as _ <- <-; auto.
Qed.

(** * The anchor search, in full *)

(** ** Tests respect numeric equality *)

Lemma Qltb_compat (a a' b b' : Q) : a == a' -> b == b' -> Qltb a b = Qltb a' b'.
Proof.
  intros Ha Hb. destruct (Qltb a' b') eqn:E.
  - apply Qltb_true in E. apply Qltb_true. lra.
  - apply Qltb_false in E. apply Qltb_false. lra.
Qed.

Lemma Qleb_compat (a a' b b' : Q) : a == a' -> b == b' -> Qleb a b = Qleb a' b'.
Proof.
  intros Ha Hb. destruct (Qleb a' b') eqn:E.
  - apply Qleb_true in E. apply Qleb_true. lra.
  - destruct (Qleb a b) eqn:E'; [|reflexivity].
    apply Qleb_true in E'. assert (Hle : a' <= b') by lra.
    apply Qleb_true in Hle. congruence.
Qed.

Lemma Qeqb_refl (a : Q) : Qeqb a a = true.
Proof. apply Qeqb_true. reflexivity. Qed.

Lemma pos_eqb_true (p q : Pos) : pos_eqb p q = true <-> pos_eq p q.
Proof.
  destruct p as [[p1 p2] p3], q as [[q1 q2] q3]. unfold pos_eqb, pos_eq. simpl.
  rewrite !andb_true_iff, !Qeqb_true. tauto.
Qed.

Lemma collides_compat (ax ay az ax' ay' az' il iw ih : Q) (other : Item) :
  ax == ax' -> ay == ay' -> az == az' ->
  collides ax ay az il iw ih other = collides ax' ay' az' il iw ih other.
Proof.
  intros Hx Hy Hz. unfold collides.
  destruct (get_dimension other) as [[o_l o_w] o_h].
  rewrite (Qltb_compat ax ax' _ _ Hx (Qeq_refl _)).
  rewrite (Qltb_compat _ _ (ax + il) (ax' + il) (Qeq_refl _)) by lra.
  rewrite (Qltb_compat ay ay' _ _ Hy (Qeq_refl _)).
  rewrite (Qltb_compat _ _ (ay + iw) (ay' + iw) (Qeq_refl _)) by lra.
  rewrite (Qltb_compat az az' _ _ Hz (Qeq_refl _)).
  rewrite (Qltb_compat _ _ (az + ih) (az' + ih) (Qeq_refl _)) by lra.
  reflexivity.
Qed.

(** ** Sets keep one representative of every element *)

Section PySetMore.
Context {A : Type} (eqb : A -> A -> bool).
Hypothesis eqb_refl : forall a, eqb a a = true.

Lemma fold_set_add_keeps (vs acc : list A) (u : A) :
  In u acc -> In u (fold_left (fun s v => set_add eqb v s) vs acc).
Proof.
  revert acc. induction vs as [|v vs IH]; intros acc Hin; simpl; [assumption|].
  apply IH. unfold set_add. destruct (existsb (eqb v) acc); [assumption|].
  apply in_or_app. now left.
Qed.

Lemma fold_set_add_complete (vs acc : list A) (v : A) :
  In v vs ->
  exists u, In u (fold_left (fun s v => set_add eqb v s) vs acc) /\
            eqb v u = true.
Proof.
  revert acc. induction vs as [|v0 vs IH]; intros acc Hin; [destruct Hin|].
  simpl. destruct Hin as [-> | Hin]; [|now apply IH].
  unfold set_add at 2. destruct (existsb (eqb v) acc) eqn:E.
  - apply existsb_exists in E. destruct E as (u & Hu & Hvu).
    exists u. split; [now apply fold_set_add_keeps | assumption].
  - exists v. split; [|apply eqb_refl].
    apply fold_set_add_keeps. apply in_or_app. right. now left.
Qed.

Lemma py_set_complete (vs : list A) (v : A) :
  In v vs -> exists u, In u (py_set eqb vs) /\ eqb v u = true.
Proof. apply fold_set_add_complete. Qed.

(** Later elements of a set differ from the earlier ones. *)
Lemma fold_set_add_distinct (vs acc : list A) :
  ForallOrdPairs (fun u v => eqb v u = false) acc ->
  ForallOrdPairs (fun u v => eqb v u = false)
    (fold_left (fun s v => set_add eqb v s) vs acc).
Proof.
  revert acc. induction vs as [|v vs IH]; intros acc Hacc; simpl; [assumption|].
  apply IH. unfold set_add. destruct (existsb (eqb v) acc) eqn:E; [assumption|].
  assert (Hall : Forall (fun u => eqb v u = false) acc).
  { apply Forall_forall. intros u Hu.
    destruct (eqb v u) eqn:Evu; [|reflexivity].
    assert (existsb (eqb v) acc = true) by (apply existsb_exists; eauto).
    congruence. }
  clear E. induction Hacc as [|a acc Ha Hacc IHacc]; simpl.
  - constructor; constructor.
  - inversion Hall; subst. constructor.
    + apply Forall_app. split; [assumption|]. constructor; [assumption|constructor].
    + now apply IHacc.
Qed.

Lemma py_set_distinct (vs : list A) :
  ForallOrdPairs (fun u v => eqb v u = false) (py_set eqb vs).
Proof. apply fold_set_add_distinct. constructor. Qed.
End PySetMore.

Lemma unique_x_edge (c : Container) (s v : Q) :
  In v (unique_x c s) -> x_edge c s v.
Proof.
  intro Hin. apply py_set_In in Hin. unfold x_edge.
  apply in_app_or in Hin. destruct Hin as [[<- | [<- | [<- | []]]] | Hin]; auto.
  apply in_flat_map in Hin. destruct Hin as (placed & Hpl & Hin).
  right. right. right. exists placed. split; [assumption|].
  unfold x_extent. destruct (get_dimension placed) as [[p_l p_w] p_h].
  destruct Hin as [<- | [<- | []]]; auto.
Qed.

Lemma unique_y_edge (c : Container) (v : Q) :
  In v (unique_y c) -> y_edge c v.
Proof.
  intro Hin. apply py_set_In in Hin. unfold y_edge.
  apply in_app_or in Hin. destruct Hin as [[<- | [<- | []]] | Hin]; auto.
  apply in_flat_map in Hin. destruct Hin as (placed & Hpl & Hin).
  right. right. exists placed. split; [assumption|].
  unfold y_extent. destruct (get_dimension placed) as [[p_l p_w] p_h].
  destruct Hin as [<- | [<- | []]]; auto.
Qed.

Lemma edge_unique_x (c : Container) (s v : Q) :
  x_edge c s v -> exists u, In u (unique_x c s) /\ v == u.
Proof.
  intro Hv.
  assert (Hin : In v ([0; L c; s] ++
            flat_map (fun placed => let '(p_l, _, _) := get_dimension placed in
                                    [x placed; x placed + p_l]) (items c))).
  { apply in_or_app. destruct Hv as [-> | [-> | [-> | (placed & Hpl & Hv)]]];
      [left; simpl; auto | left; simpl; auto | left; simpl; auto |].
    right. apply in_flat_map. exists placed. split; [assumption|].
    unfold x_extent in Hv. destruct (get_dimension placed) as [[p_l p_w] p_h].
    simpl in *. destruct Hv as [-> | ->]; auto. }
  destruct (py_set_complete Qeqb Qeqb_refl _ _ Hin) as (u & Hu & Hvu).
  exists u. split; [assumption | now apply Qeqb_true].
Qed.

Lemma edge_unique_y (c : Container) (v : Q) :
  y_edge c v -> exists u, In u (unique_y c) /\ v == u.
Proof.
  intro Hv.
  assert (Hin : In v ([0; W c] ++
            flat_map (fun placed => let '(_, p_w, _) := get_dimension placed in
                                    [y placed; y placed + p_w]) (items c))).
  { apply in_or_app. destruct Hv as [-> | [-> | (placed & Hpl & Hv)]];
      [left; simpl; auto | left; simpl; auto |].
    right. apply in_flat_map. exists placed. split; [assumption|].
    unfold y_extent in Hv. destruct (get_dimension placed) as [[p_l p_w] p_h].
    simpl in *. destruct Hv as [-> | ->]; auto. }
  destruct (py_set_complete Qeqb Qeqb_refl _ _ Hin) as (u & Hu & Hvu).
  exists u. split; [assumption | now apply Qeqb_true].
Qed.

(** ** What the search returns *)

Lemma get_dimension_place_at_same (p : Pos) (it : Item) :
  get_dimension (place_at (rotation it) p it) = get_dimension it.
Proof. destruct p as [[px py] pz]. reflexivity. Qed.

(** The entries of the unsorted list, one for every anchor point that
    collides with nothing. *)
Lemma valid_anchor_entry (c : Container) (it : Item) (s : Q) (e : option Q)
    (axis_p : Axis) (a : Anchor) :
  In a (get_all_valid_anchors c it s e axis_p) <->
  let '(item_l, item_w, item_h) := get_dimension it in
  exists ax ay az,
    In (ax, ay, az) (anchor_points c it s (end_limit c e)) /\
    existsb (collides ax ay az item_l item_w item_h) (items c) = false /\
    a = (match axis_p with
         | AxisX => (az, ax, ay, gap_at c (end_limit c e) item_l item_w ax ay)
         | AxisY => (az, ay, ax, gap_at c (end_limit c e) item_l item_w ax ay)
         end, (ax, ay, az), gap_at c (end_limit c e) item_l item_w ax ay).
Proof.
  unfold get_all_valid_anchors, gap_at, end_limit.
  destruct (get_dimension it) as [[item_l item_w] item_h].
  split.
  - intro Hin. apply sort_by_In in Hin. apply in_flat_map in Hin.
    destruct Hin as ([[ax ay] az] & Hp & Hin).
    destruct (existsb (collides ax ay az item_l item_w item_h) (items c)) eqn:E;
      [destruct Hin|].
    destruct Hin as [<- | []]. exists ax, ay, az. auto.
  - intros (ax & ay & az & Hp & Hc & ->).
    eapply Permutation_in; [apply sort_by_perm|].
    apply in_flat_map. exists (ax, ay, az). split; [assumption|].
    rewrite Hc. now left.
Qed.

Lemma anchors_sound (c : Container) (it : Item) (s : Q)
    (e : option Q) (axis_p : Axis) (a : Anchor) :
  In a (get_all_valid_anchors c it s e axis_p) ->
  let '(item_l, item_w, item_h) := get_dimension it in
  let '(ax, ay, az) := anchor_pos a in
  x_edge c s ax /\ y_edge c ay /\ az = 0 /\
  fits_at c s (end_limit c e) item_l item_w item_h ax ay az /\
  (forall other, In other (items c) ->
     collides ax ay az item_l item_w item_h other = false /\
     ~ overlap_beyond_tolerance (place_at (rotation it) (ax, ay, az) it) other) /\
  anchor_gap a = gap_at c (end_limit c e) item_l item_w ax ay /\
  anchor_key a = match axis_p with
                 | AxisX => (az, ax, ay, anchor_gap a)
                 | AxisY => (az, ay, ax, anchor_gap a)
                 end.
Proof.
  intro Hin.
  pose proof (get_all_valid_anchors_valid c it s e axis_p a Hin) as Hv.
  apply valid_anchor_entry in Hin.
  pose proof (fun p => get_dimension_place_at_same p it) as Hdim.
  unfold valid_anchor in Hv. fold (end_limit c e) in Hv.
  destruct (get_dimension it) as [[item_l item_w] item_h].
  destruct Hin as (ax & ay & az & _ & _ & ->).
  unfold anchor_pos, anchor_gap, anchor_key in *. simpl in *.
  destruct Hv as (Hx & Hy & Hz & H1 & H2 & H3 & H4 & Hcol).
  split; [now apply unique_x_edge|]. split; [now apply unique_y_edge|].
  split; [assumption|]. split; [repeat split; assumption|].
  split; [|split; [reflexivity | destruct axis_p; reflexivity]].
  intros other Hother. split; [now apply Hcol|].
  apply (no_collision_no_overlap (place_at (rotation it) (ax, ay, az) it)).
  unfold x_extent, y_extent, z_extent. rewrite Hdim. simpl.
  destruct it; simpl. now apply Hcol.
Qed.

(** X1. Every anchor the search returns lies on the grid of edges, on the
    floor, passes the bounds tests, collides with no placed item, and
    carries the gap and the sort key of its position; an item put there
    overlaps no placed item beyond the tolerance. *)
Theorem get_all_valid_anchors_sound (c : Container) (it : Item) (s : Q)
    (e : option Q) (axis_p : Axis) (a : Anchor) :
  In a (get_all_valid_anchors c it s e axis_p) ->
  let '(item_l, item_w, item_h) := get_dimension it in
  let '(ax, ay, az) := anchor_pos a in
  x_edge c s ax /\ y_edge c ay /\ az = 0 /\
  fits_at c s (end_limit c e) item_l item_w item_h ax ay az /\
  (forall other, In other (items c) ->
     collides ax ay az item_l item_w item_h other = false /\
     ~ overlap_beyond_tolerance (place_at (rotation it) (ax, ay, az) it) other) /\
  anchor_gap a = gap_at c (end_limit c e) item_l item_w ax ay /\
  anchor_key a = match axis_p with
                 | AxisX => (az, ax, ay, anchor_gap a)
                 | AxisY => (az, ay, ax, anchor_gap a)
                 end.
Proof. exact (anchors_sound c it s e axis_p a). Qed.

Lemma anchors_complete (c : Container) (it : Item) (s : Q)
    (e : option Q) (axis_p : Axis) (ax ay : Q) :
  x_edge c s ax -> y_edge c ay ->
  (let '(item_l, item_w, item_h) := get_dimension it in
   fits_at c s (end_limit c e) item_l item_w item_h ax ay 0 /\
   forall other, In other (items c) ->
     collides ax ay 0 item_l item_w item_h other = false) ->
  exists a, In a (get_all_valid_anchors c it s e axis_p) /\
            pos_eq (anchor_pos a) (ax, ay, 0).
Proof.
  intros Hx Hy Hfit.
  destruct (edge_unique_x c s ax Hx) as (ux & Hux & Exx).
  destruct (edge_unique_y c ay Hy) as (uy & Huy & Eyy).
  pose proof (valid_anchor_entry c it s e axis_p) as Hentry.
  unfold anchor_points in Hentry.
  destruct (get_dimension it) as [[item_l item_w] item_h].
  destruct Hfit as ((H1 & H2 & H3 & H4) & Hcol).
  set (el := end_limit c e) in *.
  assert (Hraw : In (ux, uy, 0)
            (flat_map (fun ax =>
               if Qltb ax (s - EPSILON) || Qltb (el - item_l + EPSILON) ax
               then []
               else flat_map (fun ay =>
                      flat_map (fun az =>
                        if Qleb (ax + item_l) (el + EPSILON)
                           && Qleb (ay + item_w) (W c + EPSILON)
                           && Qleb (az + item_h) (H c + EPSILON)
                        then [(ax, ay, az)] else [])
                      unique_z)
                    (unique_y c))
               (unique_x c s))).
  { apply in_flat_map. exists ux. split; [assumption|].
    assert (E1 : Qltb ux (s - EPSILON) = false) by (apply Qltb_false; lra).
    assert (E2 : Qltb (el - item_l + EPSILON) ux = false)
      by (apply Qltb_false; lra).
    rewrite E1, E2. cbn [orb].
    apply in_flat_map. exists uy. split; [assumption|].
    apply in_flat_map. exists 0. split; [now left|].
    assert (E3 : Qleb (ux + item_l) (el + EPSILON) = true)
      by (apply Qleb_true; lra).
    assert (E4 : Qleb (uy + item_w) (W c + EPSILON) = true)
      by (apply Qleb_true; lra).
    assert (E5 : Qleb (0 + item_h) (H c + EPSILON) = true)
      by (apply Qleb_true; lra).
    rewrite E3, E4, E5. now left. }
  destruct (py_set_complete pos_eqb) with (2 := Hraw) as ([[px py] pz] & Hp & Epos).
  { intros [[q1 q2] q3]. unfold pos_eqb. now rewrite !Qeqb_refl. }
  apply pos_eqb_true in Epos. destruct Epos as (Ex & Ey & Ez). simpl in Ex, Ey, Ez.
  eexists. split.
  - apply Hentry. exists px, py, pz. split; [exact Hp|]. split; [|reflexivity].
    destruct (existsb (collides px py pz item_l item_w item_h) (items c)) eqn:Ec;
      [|reflexivity].
    apply existsb_exists in Ec. destruct Ec as (other & Hother & Ec).
    rewrite (collides_compat px py pz ax ay 0) in Ec by lra.
    rewrite (Hcol other Hother) in Ec. discriminate.
  - unfold anchor_pos, pos_eq. simpl. repeat split; lra.
Qed.

(** X2. Conversely, every grid position on the floor that passes the bounds
    tests and collides with nothing is returned, up to the equality of
    numbers. *)
Theorem get_all_valid_anchors_complete (c : Container) (it : Item) (s : Q)
    (e : option Q) (axis_p : Axis) (ax ay : Q) :
  x_edge c s ax -> y_edge c ay ->
  (let '(item_l, item_w, item_h) := get_dimension it in
   fits_at c s (end_limit c e) item_l item_w item_h ax ay 0 /\
   forall other, In other (items c) ->
     collides ax ay 0 item_l item_w item_h other = false) ->
  exists a, In a (get_all_valid_anchors c it s e axis_p) /\
            pos_eq (anchor_pos a) (ax, ay, 0).
Proof. exact (anchors_complete c it s e axis_p ax ay). Qed.

(** ** The returned list is strictly sorted *)

Section SortedFacts.
Context {A K : Type} (ltb : K -> K -> bool) (key : A -> K).
Hypothesis ltb_asym : forall a b, ltb a b = true -> ltb b a = false.
Hypothesis ltb_negtrans : forall a b c,
  ltb a c = true -> ltb a b = true \/ ltb b c = true.

Lemma insert_sorted_sorted (a : A) (s : list A) :
  StronglySorted (fun u v => ltb (key v) (key u) = false) s ->
  StronglySorted (fun u v => ltb (key v) (key u) = false)
    (insert_sorted ltb key a s).
Proof.
  induction s as [|b s IH]; intro Hs; simpl.
  - constructor; constructor.
  - inversion Hs as [|? ? Hs' Hb]; subst.
    destruct (ltb (key b) (key a)) eqn:E.
    + constructor; [now apply IH|].
      eapply Permutation_Forall; [apply insert_sorted_perm|].
      constructor; [now apply ltb_asym | assumption].
    + constructor; [assumption|]. constructor; [assumption|].
      rewrite Forall_forall in *. intros u Hu.
      destruct (ltb (key u) (key a)) eqn:Eu; [|reflexivity].
      destruct (ltb_negtrans _ (key b) _ Eu) as [Hc | Hc].
      * rewrite (Hb u Hu) in Hc. discriminate.
      * congruence.
Qed.

Lemma sort_by_sorted (xs : list A) :
  StronglySorted (fun u v => ltb (key v) (key u) = false) (sort_by ltb key xs).
Proof.
  induction xs as [|a xs IH]; simpl; [constructor|].
  now apply insert_sorted_sorted.
Qed.

Variable D : A -> A -> Prop.
Hypothesis D_sym : forall a b, D a b -> D b a.

Lemma insert_sorted_pairs (a : A) (s : list A) :
  Forall (D a) s -> ForallOrdPairs D s ->
  ForallOrdPairs D (insert_sorted ltb key a s).
Proof.
  induction s as [|b s IH]; intros Ha Hs; simpl.
  - constructor; constructor.
  - inversion Ha; subst. inversion Hs; subst.
    destruct (ltb (key b) (key a)).
    + constructor; [|now apply IH].
      eapply Permutation_Forall; [apply insert_sorted_perm|].
      constructor; [now apply D_sym | assumption].
    + constructor; assumption.
Qed.

Lemma sort_by_pairs (xs : list A) :
  ForallOrdPairs D xs -> ForallOrdPairs D (sort_by ltb key xs).
Proof.
  induction 1 as [|a xs Ha Hxs IH]; simpl; [constructor|].
  apply insert_sorted_pairs; [|assumption].
  now apply sort_by_Forall.
Qed.
End SortedFacts.

Lemma sorted_pairs_strict {A : Type} (R D S : A -> A -> Prop) (P : A -> Prop)
    (xs : list A) :
  (forall a b, P a -> P b -> R a b -> D a b -> S a b) ->
  Forall P xs -> StronglySorted R xs -> ForallOrdPairs D xs ->
  StronglySorted S xs.
Proof.
  intros HS HP Hsorted. induction Hsorted as [|a xs Hs IH Ha]; intro Hd;
    [constructor|].
  inversion HP; subst. inversion Hd; subst. constructor; [now apply IH|].
  rewrite Forall_forall in *. intros b Hb. apply HS; auto.
Qed.

Lemma flat_map_pairs {A B : Type} (R : A -> A -> Prop) (f : A -> list B)
    (g : B -> A) (xs : list A) :
  (forall x, f x = [] \/ exists y, f x = [y]) ->
  (forall x y, In y (f x) -> g y = x) ->
  ForallOrdPairs R xs ->
  ForallOrdPairs (fun a b => R (g a) (g b)) (flat_map f xs).
Proof.
  intros Hone Hg. induction 1 as [|x xs Hx Hxs IH]; simpl; [constructor|].
  destruct (Hone x) as [-> | (y & Hy)]; [exact IH|].
  rewrite Hy. simpl. constructor; [|exact IH].
  apply Forall_forall. intros b Hb. apply in_flat_map in Hb.
  destruct Hb as (x' & Hx' & Hb).
  rewrite (Hg x y) by (rewrite Hy; now left). rewrite (Hg x' b Hb).
  rewrite Forall_forall in Hx. now apply Hx.
Qed.

Lemma pos_eqb_sym (p q : Pos) : pos_eqb p q = pos_eqb q p.
Proof.
  destruct (pos_eqb q p) eqn:E.
  - apply pos_eqb_true in E. apply pos_eqb_true.
    destruct E as (E1 & E2 & E3). repeat split; symmetry; assumption.
  - destruct (pos_eqb p q) eqn:E'; [|reflexivity].
    apply pos_eqb_true in E'.
    assert (Hq : pos_eq q p)
      by (destruct E' as (E1 & E2 & E3); repeat split; symmetry; assumption).
    apply pos_eqb_true in Hq. congruence.
Qed.

Lemma lex_step_eq (a b : Q) (rest : bool) :
  a == b -> lex_step a b rest = rest.
Proof.
  intro Hab. unfold lex_step. apply Qeqb_true in Hab. now rewrite Hab.
Qed.

Lemma lex_step_neq (a b : Q) (rest : bool) :
  ~ a == b -> lex_step a b rest = Qltb a b.
Proof.
  intro Hab. unfold lex_step. apply Qeqb_false in Hab. now rewrite Hab.
Qed.

(** Two floor entries at different positions are ordered one way or the
    other by the sort key. *)
Lemma floor_keys_total (ax ay ga bx by_ gb : Q) :
  pos_eqb (bx, by_, 0) (ax, ay, 0) = false ->
  key4_ltb (0, bx, by_, gb) (0, ax, ay, ga) = false ->
  key4_ltb (0, ax, ay, ga) (0, bx, by_, gb) = true.
Proof.
  intros Hd Hnot. unfold key4_ltb in *.
  rewrite lex_step_eq in * by reflexivity.
  destruct (Qeq_dec ax bx) as [Ex | Ex].
  - rewrite (lex_step_eq ax bx) by assumption.
    rewrite (lex_step_eq bx ax) in Hnot by (symmetry; assumption).
    destruct (Qeq_dec ay by_) as [Ey | Ey].
    + exfalso. assert (Hp : pos_eq (bx, by_, 0) (ax, ay, 0)).
      { repeat split; simpl; try reflexivity; symmetry; assumption. }
      apply pos_eqb_true in Hp. congruence.
    + rewrite lex_step_neq by assumption.
      rewrite lex_step_neq in Hnot by (intro; apply Ey; symmetry; assumption).
      reflect_hyps. apply Qltb_true. lra.
  - rewrite lex_step_neq by assumption.
    rewrite lex_step_neq in Hnot by (intro; apply Ex; symmetry; assumption).
    reflect_hyps. apply Qltb_true. lra.
Qed.

Lemma anchors_sorted (c : Container) (it : Item) (s : Q)
    (e : option Q) (axis_p : Axis) :
  StronglySorted
    (fun a b => key4_ltb (anchor_key a) (anchor_key b) = true)
    (get_all_valid_anchors c it s e axis_p).
Proof.
  apply (sorted_pairs_strict
           (fun a b => key4_ltb (anchor_key b) (anchor_key a) = false)
           (fun a b => pos_eqb (anchor_pos b) (anchor_pos a) = false)
           _ (fun a => In a (get_all_valid_anchors c it s e axis_p))).
  - intros a b Ha Hb Hnot Hd.
    pose proof (anchors_sound c it s e axis_p a Ha) as Sa.
    pose proof (anchors_sound c it s e axis_p b Hb) as Sb.
    destruct (get_dimension it) as [[item_l item_w] item_h].
    destruct (anchor_pos a) as [[ax ay] az].
    destruct (anchor_pos b) as [[bx by_] bz].
    destruct Sa as (_ & _ & -> & _ & _ & _ & Ka).
    destruct Sb as (_ & _ & -> & _ & _ & _ & Kb).
    rewrite Ka, Kb in *. destruct axis_p.
    + now apply floor_keys_total.
    + apply floor_keys_total; [|assumption].
      destruct (pos_eqb (by_, bx, 0) (ay, ax, 0)) eqn:E; [|reflexivity].
      apply pos_eqb_true in E. destruct E as (E1 & E2 & E3).
      simpl in E1, E2, E3.
      assert (Hp : pos_eq (bx, by_, 0) (ax, ay, 0)) by (repeat split; assumption).
      apply pos_eqb_true in Hp. congruence.
  - apply Forall_forall. auto.
  - unfold get_all_valid_anchors.
    destruct (get_dimension it) as [[item_l item_w] item_h].
    apply sort_by_sorted; [apply key4_ltb_asym | apply key4_ltb_negtrans].
  - unfold get_all_valid_anchors.
    destruct (get_dimension it) as [[item_l item_w] item_h].
    apply sort_by_pairs.
    + intros a b Hab. now rewrite pos_eqb_sym.
    + apply (flat_map_pairs (fun u v => pos_eqb v u = false) _ anchor_pos).
      * intros [[ax ay] az].
        destruct (existsb (collides ax ay az item_l item_w item_h) (items c));
          [now left | right; eauto].
      * intros [[ax ay] az] y.
        destruct (existsb (collides ax ay az item_l item_w item_h) (items c));
          [intros [] | intros [<- | []]; reflexivity].
      * unfold anchor_points. destruct (get_dimension it) as [[? ?] ?].
        apply py_set_distinct.
Qed.

(** X3. The list returned by the search is strictly increasing in the sort
    key: best first, and no position twice. *)
Theorem get_all_valid_anchors_sorted (c : Container) (it : Item) (s : Q)
    (e : option Q) (axis_p : Axis) :
  StronglySorted
    (fun a b => key4_ltb (anchor_key a) (anchor_key b) = true)
    (get_all_valid_anchors c it s e axis_p).
Proof. exact (anchors_sorted c it s e axis_p). Qed.

(** ** The best fit *)

Lemma sorted_head_least (c : Container) (it : Item) (s : Q) (e : option Q)
    (axis_p : Axis) (a : Anchor) (t : list Anchor) :
  get_all_valid_anchors c it s e axis_p = a :: t ->
  forall a', In a' (get_all_valid_anchors c it s e axis_p) ->
    a' = a \/ key4_ltb (anchor_key a) (anchor_key a') = true.
Proof.
  intros Heq a' Hin.
  pose proof (anchors_sorted c it s e axis_p) as Hs.
  rewrite Heq in Hs, Hin. inversion Hs as [|? ? _ Hall]; subst.
  destruct Hin as [<- | Hin]; [now left|]. right.
  rewrite Forall_forall in Hall. now apply Hall.
Qed.

Lemma best_fit_cases (c : Container) (it : Item) (s : Q)
    (e : option Q) (axis_p : Axis) :
  match find_best_fit c it s e axis_p with
  | None =>
      forall ax ay, x_edge c s ax -> y_edge c ay ->
        ~ (let '(item_l, item_w, item_h) := get_dimension it in
           fits_at c s (end_limit c e) item_l item_w item_h ax ay 0 /\
           forall other, In other (items c) ->
             collides ax ay 0 item_l item_w item_h other = false)
  | Some (p, gap) =>
      exists a, In a (get_all_valid_anchors c it s e axis_p) /\
        p = anchor_pos a /\ gap = anchor_gap a /\
        forall a', In a' (get_all_valid_anchors c it s e axis_p) ->
          a' = a \/ key4_ltb (anchor_key a) (anchor_key a') = true
  end.
Proof.
  unfold find_best_fit.
  destruct (get_all_valid_anchors c it s e axis_p) as [|a t] eqn:Ea.
  - intros ax ay Hx Hy Hfit.
    destruct (anchors_complete c it s e axis_p ax ay Hx Hy Hfit)
      as (a & Ha & _).
    rewrite Ea in Ha. destruct Ha.
  - exists a. split; [now left|]. split; [reflexivity|]. split; [reflexivity|].
    intros a' Ha'. apply (sorted_head_least c it s e axis_p a t Ea).
    now rewrite Ea.
Qed.

(** X4. [find_best_fit] answers [None] exactly when no grid position on the
    floor passes the bounds tests without a collision; otherwise it gives
    the position and gap of a returned anchor whose key is strictly below
    that of every other returned anchor. *)
Theorem find_best_fit_spec (c : Container) (it : Item) (s : Q)
    (e : option Q) (axis_p : Axis) :
  match find_best_fit c it s e axis_p with
  | None =>
      forall ax ay, x_edge c s ax -> y_edge c ay ->
        ~ (let '(item_l, item_w, item_h) := get_dimension it in
           fits_at c s (end_limit c e) item_l item_w item_h ax ay 0 /\
           forall other, In other (items c) ->
             collides ax ay 0 item_l item_w item_h other = false)
  | Some (p, gap) =>
      exists a, In a (get_all_valid_anchors c it s e axis_p) /\
        p = anchor_pos a /\ gap = anchor_gap a /\
        forall a', In a' (get_all_valid_anchors c it s e axis_p) ->
          a' = a \/ key4_ltb (anchor_key a) (anchor_key a') = true
  end.
Proof. exact (best_fit_cases c it s e axis_p). Qed.

Lemma best_fit_empty_origin (c : Container) (it : Item)
    (axis_p : Axis) :
  items c = [] -> 0 <= L c -> 0 <= W c ->
  (let '(item_l, item_w, item_h) := get_dimension it in
   item_l <= L c + EPSILON /\ item_w <= W c + EPSILON /\
   item_h <= H c + EPSILON) ->
  exists p gap, find_best_fit c it 0 None axis_p = Some (p, gap) /\
                pos_eq p (0, 0, 0).
Proof.
  intros Hnil HL HW Hfit.
  assert (Hx0 : x_edge c 0 0) by (now left).
  assert (Hy0 : y_edge c 0) by (now left).
  destruct (anchors_complete c it 0 None axis_p 0 0 Hx0 Hy0)
    as (a0 & Ha0 & Hp0).
  { destruct (get_dimension it) as [[item_l item_w] item_h].
    destruct Hfit as (F1 & F2 & F3). unfold fits_at, end_limit, EPSILON in *.
    split; [repeat split; lra|]. rewrite Hnil. intros other []. }
  pose proof (best_fit_cases c it 0 None axis_p) as Hspec.
  destruct (find_best_fit c it 0 None axis_p) as [[p gap]|] eqn:Ef.
  - exists p, gap. split; [reflexivity|].
    destruct Hspec as (a & Ha & -> & _ & Hleast).
    destruct (Hleast a0 Ha0) as [<- | Hlt]; [assumption|].
    pose proof (anchors_sound c it 0 None axis_p a Ha) as Sa.
    pose proof (anchors_sound c it 0 None axis_p a0 Ha0) as S0.
    destruct (get_dimension it) as [[item_l item_w] item_h].
    destruct (anchor_pos a) as [[ax ay] az].
    destruct (anchor_pos a0) as [[bx by_] bz].
    destruct Sa as (Hax & Hay & -> & _ & _ & Ga & Ka).
    destruct S0 as (_ & _ & -> & _ & _ & G0 & K0).
    destruct Hp0 as (E1 & E2 & _). simpl in E1, E2.
    assert (Hxpos : 0 <= ax).
    { destruct Hax as [-> | [-> | [-> | (pl & Hpl & _)]]]; try lra.
      rewrite Hnil in Hpl. destruct Hpl. }
    assert (Hypos : 0 <= ay).
    { destruct Hay as [-> | [-> | (pl & Hpl & _)]]; try lra.
      rewrite Hnil in Hpl. destruct Hpl. }
    rewrite Ka, K0 in Hlt.
    assert (Hxy : ax == 0 /\ ay == 0).
    { destruct axis_p; unfold key4_ltb in Hlt;
        rewrite lex_step_eq in Hlt by reflexivity.
      - destruct (Qeq_dec ax bx) as [Ex | Ex].
        + rewrite lex_step_eq in Hlt by assumption.
          destruct (Qeq_dec ay by_) as [Ey | Ey]; [split; lra|].
          rewrite lex_step_neq in Hlt by assumption. reflect_hyps. lra.
        + rewrite lex_step_neq in Hlt by assumption. reflect_hyps. lra.
      - destruct (Qeq_dec ay by_) as [Ey | Ey].
        + rewrite lex_step_eq in Hlt by assumption.
          destruct (Qeq_dec ax bx) as [Ex | Ex]; [split; lra|].
          rewrite lex_step_neq in Hlt by assumption. reflect_hyps. lra.
        + rewrite lex_step_neq in Hlt by assumption. reflect_hyps. lra. }
    destruct Hxy as [Hxz Hyz]. repeat split; simpl; try assumption; reflexivity.
  - exfalso. apply (Hspec 0 0 Hx0 Hy0).
    destruct (get_dimension it) as [[item_l item_w] item_h].
    destruct Hfit as (F1 & F2 & F3). unfold fits_at, end_limit, EPSILON in *.
    split; [repeat split; lra|]. rewrite Hnil. intros other [].
Qed.

(** X5. In an empty container with non-negative length and width, an item that
    passes the bounds tests at the origin gets the origin as its best fit,
    whatever the axis priority. *)
Theorem find_best_fit_empty_origin (c : Container) (it : Item)
    (axis_p : Axis) :
  items c = [] -> 0 <= L c -> 0 <= W c ->
  (let '(item_l, item_w, item_h) := get_dimension it in
   item_l <= L c + EPSILON /\ item_w <= W c + EPSILON /\
   item_h <= H c + EPSILON) ->
  exists p gap, find_best_fit c it 0 None axis_p = Some (p, gap) /\
                pos_eq p (0, 0, 0).
Proof. exact (best_fit_empty_origin c it axis_p). Qed.

(** * Balance figures stay in range *)

Lemma Qdiv_unit_range (n t : Q) :
  0 < t -> 0 <= n -> n <= t -> 0 <= n / t * 100 /\ n / t * 100 <= 100.
Proof.
  intros Ht Hn Hnt.
  assert (H0 : 0 <= n / t) by (apply Qle_shift_div_l; [assumption | lra]).
  assert (H1 : n / t <= 1) by (apply Qle_shift_div_r; [assumption | lra]).
  split; lra.
Qed.

Lemma total_nonneg (f : Item -> Q) (its : list Item) :
  Forall (fun it => 0 <= f it) its -> 0 <= total f its.
Proof.
  induction 1 as [|it its Hit _ IH]; simpl in *; lra.
Qed.

Lemma nose_fold_range (mid : Q) (its : list Item) (a : Q) :
  Forall (fun it => 0 <= weight it) its ->
  a <= fold_left (fun acc it =>
         let item_mid := x it + fst (fst (get_dimension it)) / 2 in
         if Qltb item_mid mid then acc + weight it
         else if Qeqb item_mid mid then acc + weight it * (1 # 2)
         else acc) its a
  /\ fold_left (fun acc it =>
         let item_mid := x it + fst (fst (get_dimension it)) / 2 in
         if Qltb item_mid mid then acc + weight it
         else if Qeqb item_mid mid then acc + weight it * (1 # 2)
         else acc) its a <= a + total weight its.
Proof.
  intro Hpos. revert a. induction Hpos as [|it its Hit _ IH]; intro a;
    simpl in *.
  - split; lra.
  - destruct (Qltb (x it + fst (fst (get_dimension it)) / 2) mid);
      [|destruct (Qeqb (x it + fst (fst (get_dimension it)) / 2) mid)].
    + destruct (IH (a + weight it)) as [I1 I2]. split; lra.
    + destruct (IH (a + weight it * (1 # 2))) as [I1 I2]. split; lra.
    + destruct (IH a) as [I1 I2]. split; lra.
Qed.

Lemma balance_score_range (c : Container) :
  Forall (fun it => 0 <= weight it) (items c) ->
  current_weight c == placed_weight c ->
  ~ current_weight c == 0 ->
  exists d r, calculate_balance_score c = Pair d r /\
    0 <= r /\ r <= 100 /\ 0 <= d /\ d <= 50.
Proof.
  intros Hpos Hcw Hnz. unfold placed_weight in Hcw.
  rewrite py_sum_total in Hcw.
  pose proof (total_nonneg weight (items c) Hpos) as Htot.
  unfold calculate_balance_score.
  destruct (Qeqb (current_weight c) 0) eqn:Ez.
  - apply Qeqb_true in Ez. contradiction.
  - eexists. eexists. split; [reflexivity|].
    destruct (nose_fold_range (L c / 2) (items c) 0 Hpos) as [N1 N2].
    match goal with |- 0 <= ?n / _ * 100 /\ _ => set (nose := n) in * end.
    assert (Hcpos : 0 < current_weight c).
    { destruct (Qlt_le_dec 0 (current_weight c)); [assumption|].
      exfalso. apply Hnz. lra. }
    destruct (Qdiv_unit_range nose (current_weight c)) as [R1 R2];
      [assumption | assumption | lra |].
    split; [assumption|]. split; [assumption|].
    apply Qabs_case; intros; split; lra.
Qed.

(** X6. For a state with no negative item weight whose current weight is the
    total placed weight and is not 0, [calculate_balance_score] returns a
    pair: a ratio between 0 and 100 and a distance to 50 between 0 and
    50. *)
Theorem calculate_balance_score_range (c : Container) :
  Forall (fun it => 0 <= weight it) (items c) ->
  current_weight c == placed_weight c ->
  ~ current_weight c == 0 ->
  exists d r, calculate_balance_score c = Pair d r /\
    0 <= r /\ r <= 100 /\ 0 <= d /\ d <= 50.
Proof. exact (balance_score_range c). Qed.

(** ** The statistics *)

Lemma py_max_spec (a b : Q) : a <= py_max a b /\ b <= py_max a b /\
  (py_max a b = a \/ py_max a b = b).
Proof.
  unfold py_max. destruct (Qltb a b) eqn:E; reflect_hyps;
    repeat split; auto; lra.
Qed.

Lemma py_min_spec (a b : Q) : py_min a b <= a /\ py_min a b <= b /\
  (py_min a b = a \/ py_min a b = b).
Proof.
  unfold py_min. destruct (Qltb b a) eqn:E; reflect_hyps;
    repeat split; auto; lra.
Qed.

Lemma half_ratio_range (start dim mid : Q) :
  0 <= half_ratio start dim mid /\ half_ratio start dim mid <= 1.
Proof.
  unfold half_ratio.
  destruct (Qltb 0 dim) eqn:Ed.
  - apply Qltb_true in Ed.
    destruct (py_min_spec mid (start + dim)) as (M1 & M2 & _).
    destruct (py_max_spec 0 start) as (X1 & X2 & _).
    set (v := py_min mid (start + dim) - py_max 0 start) in *.
    destruct (py_max_spec 0 v) as (V1 & V2 & [E | E]); rewrite E; rewrite E in V1.
    + split; [apply Qle_shift_div_l | apply Qle_shift_div_r]; lra.
    + split; [apply Qle_shift_div_l | apply Qle_shift_div_r]; try lra.
      unfold v. lra.
  - destruct (Qltb start mid); split; lra.
Qed.

(** The accumulators of [distribute], started anywhere. *)
Lemma distribute_fold (mid_L mid_W mid_H : Q) (its : list Item)
    (n d l r b t : Q) :
  let '(n', d', l', r', b', t') :=
    fold_left (fun (acc : Q * Q * Q * Q * Q * Q) it =>
      let '(w_nose, w_door, w_left, w_right, w_bottom, w_top) := acc in
      let '(d0, d1, d2) := get_dimension it in
      let item_weight := weight it in
      let ratio_nose := half_ratio (x it) d0 mid_L in
      let ratio_left := half_ratio (y it) d1 mid_W in
      let ratio_bottom := half_ratio (z it) d2 mid_H in
      (w_nose + item_weight * ratio_nose,
       w_door + item_weight * (1 - ratio_nose),
       w_left + item_weight * ratio_left,
       w_right + item_weight * (1 - ratio_left),
       w_bottom + item_weight * ratio_bottom,
       w_top + item_weight * (1 - ratio_bottom))) its (n, d, l, r, b, t) in
  n' + d' == n + d + total weight its /\
  l' + r' == l + r + total weight its /\
  b' + t' == b + t + total weight its /\
  (Forall (fun it => 0 <= weight it) its ->
   n <= n' /\ d <= d' /\ l <= l' /\ r <= r' /\ b <= b' /\ t <= t').
Proof.
  revert n d l r b t. induction its as [|it its IH]; intros n d l r b t.
  - simpl. repeat split; try lra.
  - simpl. destruct (get_dimension it) as [[d0 d1] d2].
    specialize (IH (n + weight it * half_ratio (x it) d0 mid_L)
                   (d + weight it * (1 - half_ratio (x it) d0 mid_L))
                   (l + weight it * half_ratio (y it) d1 mid_W)
                   (r + weight it * (1 - half_ratio (y it) d1 mid_W))
                   (b + weight it * half_ratio (z it) d2 mid_H)
                   (t + weight it * (1 - half_ratio (z it) d2 mid_H))).
    destruct (fold_left _ its _) as [[[[[n' d'] l'] r'] b'] t'].
    destruct IH as (I1 & I2 & I3 & I4).
    split; [rewrite I1; ring|]. split; [rewrite I2; ring|].
    split; [rewrite I3; ring|].
    intro Hpos. inversion Hpos as [|? ? Hw Hrest]; subst. simpl in Hw.
    specialize (I4 Hrest).
    destruct (half_ratio_range (x it) d0 mid_L) as [A1 A2].
    destruct (half_ratio_range (y it) d1 mid_W) as [B1 B2].
    destruct (half_ratio_range (z it) d2 mid_H) as [C1 C2].
    assert (0 <= weight it * half_ratio (x it) d0 mid_L)
      by (apply Qmult_le_0_compat; lra).
    assert (0 <= weight it * (1 - half_ratio (x it) d0 mid_L))
      by (apply Qmult_le_0_compat; lra).
    assert (0 <= weight it * half_ratio (y it) d1 mid_W)
      by (apply Qmult_le_0_compat; lra).
    assert (0 <= weight it * (1 - half_ratio (y it) d1 mid_W))
      by (apply Qmult_le_0_compat; lra).
    assert (0 <= weight it * half_ratio (z it) d2 mid_H)
      by (apply Qmult_le_0_compat; lra).
    assert (0 <= weight it * (1 - half_ratio (z it) d2 mid_H))
      by (apply Qmult_le_0_compat; lra).
    repeat split; lra.
Qed.

Lemma distribute_spec (c : Container) :
  let '(n, d, l, r, b, t) := distribute c in
  n + d == total weight (items c) /\
  l + r == total weight (items c) /\
  b + t == total weight (items c) /\
  (Forall (fun it => 0 <= weight it) (items c) ->
   0 <= n /\ 0 <= d /\ 0 <= l /\ 0 <= r /\ 0 <= b /\ 0 <= t).
Proof.
  unfold distribute.
  pose proof (distribute_fold (L c / 2) (W c / 2) (H c / 2) (items c)
                0 0 0 0 0 0) as Hf.
  destruct (fold_left _ (items c) _) as [[[[[n d] l] r] b] t].
  destruct Hf as (F1 & F2 & F3 & F4).
  split; [rewrite F1; ring|]. split; [rewrite F2; ring|].
  split; [rewrite F3; ring|]. exact F4.
Qed.

Lemma stats_volume_cases (c : Container) :
  (L c * W c * H c == 0 /\ get_container_stats c = Raised ZeroDivisionError) \/
  (~ L c * W c * H c == 0 /\ exists s, get_container_stats c = Returned s).
Proof.
  unfold get_container_stats.
  destruct (distribute c) as [[[[[n d] l] r] b] t].
  destruct (Qeqb (L c * W c * H c) 0) eqn:E.
  - left. apply Qeqb_true in E. auto.
  - right. apply Qeqb_false in E. split; [assumption | eauto].
Qed.

(** X20. [get_container_stats] fails, with a division by zero, exactly on a
    container one of whose dimensions is 0; on every other state it
    returns its record. *)
Theorem get_container_stats_zero_dimension (c : Container) :
  (L c == 0 \/ W c == 0 \/ H c == 0 <->
   get_container_stats c = Raised ZeroDivisionError) /\
  (~ (L c == 0 \/ W c == 0 \/ H c == 0) <->
   exists s, get_container_stats c = Returned s).
Proof.
  assert (Hvol : L c * W c * H c == 0 <-> L c == 0 \/ W c == 0 \/ H c == 0).
  { split.
    - intro Hz. apply Qmult_integral in Hz. destruct Hz as [Hz | Hz]; [|auto].
      apply Qmult_integral in Hz. tauto.
    - intros [Hz | [Hz | Hz]]; rewrite Hz; ring. }
  destruct (stats_volume_cases c) as [[Hz Hs] | [Hz (s & Hs)]]; rewrite Hs.
  - split; split; intro Hx; try reflexivity.
    + now apply Hvol.
    + exfalso. apply Hx. now apply Hvol.
    + destruct Hx as (s & Hx). discriminate.
  - split; split; intro Hx; try discriminate.
    + exfalso. apply Hz. now apply Hvol.
    + eauto.
    + intro Hd. apply Hz. now apply Hvol.
Qed.

(** X21. On each axis the two sides share out the total weight. *)
Theorem get_container_stats_split (c : Container) (s : Stats) :
  get_container_stats c = Returned s ->
  weight_nose s + weight_door s == weight_total s /\
  weight_left s + weight_right s == weight_total s /\
  weight_bottom s + weight_top s == weight_total s.
Proof.
  unfold get_container_stats. pose proof (distribute_spec c) as Hd.
  destruct (distribute c) as [[[[[n d] l] r] b] t].
  destruct Hd as (D1 & D2 & D3 & _).
  destruct (Qeqb (L c * W c * H c) 0); [discriminate|].
  intro Hs. injection Hs as <-. simpl.
  rewrite py_sum_total. repeat split; assumption.
Qed.

Lemma get_container_stats_split_witness :
  exists s, get_container_stats two_crates_plan = Returned s /\
    weight_nose s + weight_door s == weight_total s /\
    weight_left s + weight_right s == weight_total s /\
    weight_bottom s + weight_top s == weight_total s.
Proof.
  eexists. split; [vm_compute; reflexivity|].
  apply (get_container_stats_split two_crates_plan).
  vm_compute. reflexivity.
Defined.

Lemma ratio_of_range (side tot : Q) :
  0 <= side -> side <= tot ->
  0 <= (if Qltb 0 tot then side / tot * 100 else 50) /\
  (if Qltb 0 tot then side / tot * 100 else 50) <= 100.
Proof.
  intros H0 H1. destruct (Qltb 0 tot) eqn:E.
  - apply Qltb_true in E. now apply Qdiv_unit_range.
  - split; lra.
Qed.

(** X22. When no placed item has a negative weight, the six side weights are
    not negative and the three balance ratios lie between 0 and 100. *)
Theorem get_container_stats_ranges (c : Container) (s : Stats) :
  Forall (fun it => 0 <= weight it) (items c) ->
  get_container_stats c = Returned s ->
  (0 <= weight_nose s /\ 0 <= weight_door s /\ 0 <= weight_left s /\
   0 <= weight_right s /\ 0 <= weight_bottom s /\ 0 <= weight_top s) /\
  (0 <= balance_ratio_len s /\ balance_ratio_len s <= 100) /\
  (0 <= balance_ratio_width s /\ balance_ratio_width s <= 100) /\
  (0 <= balance_ratio_height s /\ balance_ratio_height s <= 100) /\
  balance_ratio s = balance_ratio_len s.
Proof.
  intro Hpos. unfold get_container_stats. pose proof (distribute_spec c) as Hd.
  destruct (distribute c) as [[[[[n d] l] r] b] t].
  destruct Hd as (D1 & D2 & D3 & D4). specialize (D4 Hpos).
  destruct D4 as (P1 & P2 & P3 & P4 & P5 & P6).
  destruct (Qeqb (L c * W c * H c) 0); [discriminate|].
  intro Hs. injection Hs as <-. simpl.
  pose proof (py_sum_total weight (items c)) as Ht.
  split; [repeat split; assumption|].
  split; [apply ratio_of_range; lra|].
  split; [apply ratio_of_range; lra|].
  split; [apply ratio_of_range; lra | reflexivity].
Qed.

Lemma get_container_stats_ranges_witness :
  exists s, get_container_stats two_crates_plan = Returned s /\
    (0 <= balance_ratio_len s /\ balance_ratio_len s <= 100).
Proof.
  eexists. split; [vm_compute; reflexivity|].
  apply (get_container_stats_ranges two_crates_plan).
  - repeat constructor; vm_compute; discriminate.
  - vm_compute. reflexivity.
Defined.

(** * What comes back from the search *)

Lemma trial_step_outcome (strat : Strategy) (i : nat) (cl cw ch mw : Q)
    (base : list Item) (st st' : SearchState) (axis_p : Axis) :
  (forall c, best_container (fst st) = Some c ->
     trial_outcome cl cw ch mw base c /\ ~ current_weight c == 0) ->
  trial_step strat i cl cw ch mw base st axis_p = Returned st' ->
  forall c, best_container (fst st') = Some c ->
    trial_outcome cl cw ch mw base c /\ ~ current_weight c == 0.
Proof.
  destruct st as [b g]. unfold trial_step. simpl. intros Hb Hrun.
  destruct (run_trial strat axis_p i cl cw ch mw base g) as [[t g']| |] eqn:Ht;
    simpl in Hrun; try discriminate.
  destruct (score_trial_cases strat t b)
    as [[_ Hs] | [Hnz (b' & Hs & Hcase & _)]];
    rewrite Hs in Hrun; simpl in Hrun; [discriminate|].
  injection Hrun as <-. simpl.
  destruct Hcase as [-> | Hnew]; [assumption|].
  intros c Hc. rewrite Hnew in Hc. injection Hc as <-.
  split; [|assumption]. exists strat, axis_p, i, g, g'. exact Ht.
Qed.

(** The state that comes back is the outcome of one of the trials, and
    its placed weight is not 0. *)
Lemma solve_packing_trial (cl cw ch : Q) (items_data : list ItemData)
    (mw : Q) (bw : bool) (n : nat) (g : RandomState) (c : Container) :
  solve_packing cl cw ch items_data mw bw n g = Returned (Some c) ->
  trial_outcome cl cw ch mw (base_items_raw items_data) c /\
  ~ current_weight c == 0.
Proof.
  unfold solve_packing. intro Hrun.
  destruct (search cl cw ch (base_items_raw items_data) mw n (initial_best, g))
    as [st| |] eqn:Es; simpl in Hrun; try discriminate.
  injection Hrun as Hbest. revert c Hbest.
  set (I := fun s : SearchState => forall c, best_container (fst s) = Some c ->
              trial_outcome cl cw ch mw (base_items_raw items_data) c /\
              ~ current_weight c == 0).
  change (I st). unfold search in Es.
  apply (fold_outcome_inv _ I) in Es; [assumption | intros c Hc; discriminate|].
  intros s1 strat s1' _ Hs1.
  apply (fold_outcome_inv _ I); [assumption|].
  intros s2 i s2' _ Hs2.
  apply (fold_outcome_inv _ I); [assumption|].
  intros s3 axis_p s3' _ Hs3 Hrun. unfold I in *.
  exact (trial_step_outcome _ _ _ _ _ _ _ _ _ _ Hs3 Hrun).
Qed.

Lemma trial_outcome_finished (cl cw ch mw : Q) (base : list Item)
    (c : Container) :
  trial_outcome cl cw ch mw base c -> finished_trial cl cw ch mw base c.
Proof.
  intros (strat & axis_p & i & g & g' & Hrun).
  destruct (run_trial_result strat axis_p i cl cw ch mw base g)
    as (c' & g2 & Hrun' & Hfin).
  rewrite Hrun in Hrun'. injection Hrun' as <- _. exact Hfin.
Qed.

(** ** Calls that cannot succeed *)

(** A first trial that ends with a placed weight of 0 makes the call
    fail. *)
Lemma solve_packing_weightless_first_trial (cl cw ch : Q)
    (items_data : list ItemData) (mw : Q) (bw : bool) (n : nat)
    (g : RandomState) :
  (forall c, trial_outcome cl cw ch mw (base_items_raw items_data) c ->
             current_weight c == 0) ->
  solve_packing cl cw ch items_data mw bw n g = Raised TypeError.
Proof.
  intro Hzero.
  assert (Hstep : trial_step Global_Scarcity_Fit 0 cl cw ch mw
                    (base_items_raw items_data) (initial_best, g) AxisX
                  = Raised TypeError).
  { unfold trial_step.
    destruct (run_trial_result Global_Scarcity_Fit AxisX 0 cl cw ch mw
                (base_items_raw items_data) g) as (c & g' & Hrun & _).
    rewrite Hrun. simpl.
    destruct (score_trial_cases Global_Scarcity_Fit c initial_best)
      as [[_ ->] | [Hnz _]]; [reflexivity|].
    exfalso. apply Hnz. apply Hzero.
    exists Global_Scarcity_Fit, AxisX, 0%nat, g, g'. exact Hrun. }
  unfold solve_packing, search, strategies, sub_strategies.
  cbn [fold_outcome iterations_of seq]. rewrite Hstep. reflexivity.
Qed.

Lemma no_instance_base (items_data : list ItemData) :
  no_instance items_data -> base_items_raw items_data = [].
Proof.
  intro Hno. unfold base_items_raw.
  induction items_data as [|d ds IH]; simpl; [reflexivity|].
  rewrite IH by (intros d' Hd'; apply Hno; now right).
  assert (Hq : (d_qty d <= 0)%Z) by (apply Hno; now left).
  destruct (d_qty d); simpl; try reflexivity. lia.
Qed.

Lemma finished_weight (cl cw ch mw : Q) (base : list Item) (c : Container) :
  finished_trial cl cw ch mw base c ->
  current_weight c == total weight (items c).
Proof.
  intros (Hinv & _). rewrite (inv_weight c Hinv). apply py_sum_total.
Qed.

(** X10. With no item instance at all (an empty list, or quantities that are 0
    or negative), the call raises [TypeError]. *)
Theorem solve_packing_no_instance (cl cw ch : Q) (items_data : list ItemData)
    (mw : Q) (bw : bool) (n : nat) (g : RandomState) :
  no_instance items_data ->
  solve_packing cl cw ch items_data mw bw n g = Raised TypeError.
Proof.
  intro Hno. apply solve_packing_weightless_first_trial.
  intros c Hc. apply trial_outcome_finished in Hc.
  pose proof (finished_weight _ _ _ _ _ _ Hc) as Hw.
  destruct Hc as (_ & _ & Hcount & _).
  rewrite (no_instance_base items_data Hno) in Hcount. simpl in Hcount.
  destruct (items c); [simpl in Hw; exact Hw | simpl in Hcount; lia].
Qed.

Lemma solve_packing_no_instance_witness :
  solve_packing 5900 2350 2390 [] 20000 false 100 zero_draws
  = Raised TypeError.
Proof.
  apply solve_packing_no_instance. intros d [].
Defined.

Lemma total_zero (its : list Item) :
  Forall (fun it => weight it == 0) its -> total weight its == 0.
Proof.
  induction 1 as [|it its Hit _ IH]; simpl in *; [reflexivity|].
  rewrite Hit, IH. reflexivity.
Qed.

(** X11. When every entry has weight 0, the call raises [TypeError], whatever
    fits. *)
Theorem solve_packing_weightless (cl cw ch : Q) (items_data : list ItemData)
    (mw : Q) (bw : bool) (n : nat) (g : RandomState) :
  (forall d, In d items_data -> d_weight d == 0) ->
  solve_packing cl cw ch items_data mw bw n g = Raised TypeError.
Proof.
  intro Hz. apply solve_packing_weightless_first_trial.
  intros c Hc. apply trial_outcome_finished in Hc.
  rewrite (finished_weight _ _ _ _ _ _ Hc).
  apply total_zero. destruct Hc as (_ & _ & _ & HP). apply HP.
  - intros a b (_ & _ & _ & _ & Hw) Ha. now rewrite <- Hw.
  - apply base_items_raw_Forall. intros d Hd. simpl. now apply Hz.
Qed.

Lemma solve_packing_weightless_witness :
  solve_packing 10 10 10 [mkItemData "crate" 4 3 2 0 2] 20000 false 3 zero_draws
  = Raised TypeError.
Proof.
  apply solve_packing_weightless. intros d [<- | []]. reflexivity.
Defined.

(** ** Weights *)

Lemma total_member_le (its : list Item) (it : Item) :
  Forall (fun a => 0 <= weight a) its -> In it its ->
  weight it <= total weight its.
Proof.
  induction 1 as [|a its Ha Hall IH]; intros Hin; [destruct Hin|].
  simpl in *. pose proof (total_nonneg weight its Hall).
  destruct Hin as [-> | Hin]; [lra|]. specialize (IH Hin). lra.
Qed.

(** X15. When no entry has a negative weight, no item heavier than the
    capacity is ever among the placed items of a returned state. *)
Theorem solve_packing_no_overweight_item (cl cw ch : Q)
    (items_data : list ItemData) (mw : Q) (bw : bool) (n : nat)
    (g : RandomState) (c : Container) :
  (forall d, In d items_data -> 0 <= d_weight d) ->
  solve_packing cl cw ch items_data mw bw n g = Returned (Some c) ->
  Forall (fun it => weight it <= mw) (items c).
Proof.
  intros Hpos Hrun. apply solve_packing_trial in Hrun.
  destruct Hrun as [Hout Hnz]. apply trial_outcome_finished in Hout.
  pose proof (finished_weight _ _ _ _ _ _ Hout) as Hw.
  destruct Hout as (Hinv & (_ & _ & _ & HM) & _ & HP).
  assert (Hall : Forall (fun a => 0 <= weight a) (items c)).
  { apply HP.
    - intros a b (_ & _ & _ & _ & Hab) Ha. now rewrite <- Hab.
    - apply base_items_raw_Forall. intros d Hd. simpl. now apply Hpos. }
  apply Forall_forall. intros it Hit.
  pose proof (total_member_le _ _ Hall Hit) as Hle.
  destruct (inv_budget c Hinv) as [Hnil | Hb].
  - rewrite Hnil in Hit. destruct Hit.
  - simpl in HM. rewrite HM in Hb. lra.
Qed.

Lemma solve_packing_no_overweight_item_witness :
  Forall (fun it => weight it <= 20000) (items two_crates_plan).
Proof.
  apply (solve_packing_no_overweight_item 10 10 10 two_crates 20000 false 2
           zero_draws).
  - intros d [<- | []]. unfold Qle; simpl; lia.
  - vm_compute. reflexivity.
Defined.

(** * The count of the state that comes back *)

Lemma score_trial_count (strat : Strategy) (t : Container) (b b' : Best) :
  count_recorded b ->
  score_trial strat t b = Returned b' ->
  count_recorded b' /\
  (best_item_count b <= best_item_count b')%Z /\
  (Z.of_nat (List.length (items t)) <= best_item_count b')%Z.
Proof.
  unfold count_recorded, score_trial. intros Hb.
  destruct (calculate_balance_score_cases t)
    as [[_ ->] | [_ (d & r & -> & _)]]; simpl; [discriminate|].
  destruct (best_container b) as [inc|] eqn:Eb.
  - destruct (Z.ltb_spec (best_item_count b)
                (Z.of_nat (List.length (items t)))) as [Hlt | Hge].
    { intros [= <-]. simpl. lia. }
    destruct (Z.eqb_spec (Z.of_nat (List.length (items t)))
                (best_item_count b)) as [Heq | Hne].
    + repeat match goal with
        | |- context [if ?x then _ else _] => destruct x
        end;
        intros [= <-]; simpl; rewrite ?Eb; lia.
    + intros [= <-]. rewrite Eb. lia.
  - intros [= <-]. simpl. lia.
Qed.

Lemma trial_step_count (strat : Strategy) (i : nat) (cl cw ch mw : Q)
    (base : list Item) (st st' : SearchState) (axis_p : Axis) :
  count_recorded (fst st) ->
  trial_step strat i cl cw ch mw base st axis_p = Returned st' ->
  count_recorded (fst st') /\
  (best_item_count (fst st) <= best_item_count (fst st'))%Z /\
  exists t g', run_trial strat axis_p i cl cw ch mw base (snd st)
               = Returned (t, g') /\
    (Z.of_nat (List.length (items t)) <= best_item_count (fst st'))%Z.
Proof.
  destruct st as [b g]. unfold trial_step. simpl. intros Hb Hrun.
  destruct (run_trial strat axis_p i cl cw ch mw base g) as [[t g']| |] eqn:Ht;
    simpl in Hrun; try discriminate.
  destruct (score_trial strat t b) as [b'| |] eqn:Hs; simpl in Hrun;
    try discriminate.
  injection Hrun as <-. simpl.
  destruct (score_trial_count _ _ _ _ Hb Hs) as (H1 & H2 & H3).
  repeat split; try assumption. exists t, g'. auto.
Qed.

(** A step of a fold that is reached establishes what the later steps
    keep. *)
Lemma fold_outcome_reach {A S : Type} (f : S -> A -> outcome S)
    (I P : S -> Prop) (xs : list A) (a : A) (s s' : S) :
  In a xs -> I s ->
  (forall s x s', I s -> f s x = Returned s' -> I s') ->
  (forall s x s', I s -> P s -> f s x = Returned s' -> P s') ->
  (forall s s', I s -> f s a = Returned s' -> P s') ->
  fold_outcome f xs s = Returned s' -> P s'.
Proof.
  intros Hin Hs HI HP Ha. revert s Hs Hin.
  induction xs as [|x xs IH]; intros s Hs Hin Hrun; [destruct Hin|].
  simpl in Hrun. destruct (f s x) as [s1| |] eqn:E1; simpl in Hrun;
    try discriminate.
  destruct Hin as [-> | Hin].
  - assert (H1 : P s1) by (eapply Ha; eauto).
    assert (H2 : I s1) by (eapply HI; eauto).
    clear E1 IH Hs. revert s1 H1 H2 Hrun.
    induction xs as [|y ys IHy]; intros s1 H1 H2 Hrun; simpl in Hrun.
    + now injection Hrun as <-.
    + destruct (f s1 y) as [s2| |] eqn:E2; simpl in Hrun; try discriminate.
      apply (IHy s2); eauto.
  - apply (IH s1); eauto.
Qed.

Lemma run_trial_deterministic (strat : Strategy) (axis_p : Axis) (i j : nat)
    (cl cw ch mw : Q) (base : list Item) (g1 g2 : RandomState) (t : Container)
    (g' : RandomState) :
  deterministic strat = true ->
  run_trial strat axis_p i cl cw ch mw base g1 = Returned (t, g') ->
  run_trial strat axis_p j cl cw ch mw base g2 = Returned (t, g2).
Proof.
  unfold run_trial. destruct strat; simpl; try discriminate; intros _.
  - destruct (scarcity_loop _ _ _ _); simpl; try discriminate.
    now intros [= -> _].
  - destruct (spot_loop _ _ _ _); simpl; try discriminate.
    now intros [= -> _].
Qed.

Lemma search_count_inv (cl cw ch : Q) (base : list Item) (mw : Q) (n : nat)
    (st st' : SearchState) :
  count_recorded (fst st) ->
  search cl cw ch base mw n st = Returned st' ->
  count_recorded (fst st').
Proof.
  intros Hst. unfold search.
  apply (fold_outcome_inv _ (fun s => count_recorded (fst s))); [assumption|].
  intros s1 strat s1' _ Hs1.
  apply (fold_outcome_inv _ (fun s => count_recorded (fst s))); [assumption|].
  intros s2 i s2' _ Hs2.
  apply (fold_outcome_inv _ (fun s => count_recorded (fst s))); [assumption|].
  intros s3 axis_p s3' _ Hs3 Hrun.
  now destruct (trial_step_count _ _ _ _ _ _ _ _ _ _ Hs3 Hrun).
Qed.

Lemma search_count_reach (cl cw ch : Q) (base : list Item) (mw : Q) (n : nat)
    (st st' : SearchState) (strat : Strategy) (axis_p : Axis) (t : Container)
    (g1 g2 : RandomState) :
  count_recorded (fst st) ->
  deterministic strat = true ->
  run_trial strat axis_p 0 cl cw ch mw base g1 = Returned (t, g2) ->
  search cl cw ch base mw n st = Returned st' ->
  (Z.of_nat (List.length (items t)) <= best_item_count (fst st'))%Z.
Proof.
  intros Hst Hdet Ht. unfold search.
  set (I := fun s : SearchState => count_recorded (fst s)).
  set (P := fun s : SearchState =>
              (Z.of_nat (List.length (items t)) <= best_item_count (fst s))%Z).
  assert (Hstep : forall s i a s' q,
            I s -> trial_step q i cl cw ch mw base s a = Returned s' ->
            I s' /\ (P s -> P s')).
  { intros s i a s' q Hs Hrun.
    destruct (trial_step_count _ _ _ _ _ _ _ _ _ _ Hs Hrun) as (H1 & H2 & _).
    split; [exact H1 | unfold P; lia]. }
  assert (Hinner : forall q i s s',
            I s ->
            fold_outcome (trial_step q i cl cw ch mw base) sub_strategies s
            = Returned s' -> I s' /\ (P s -> P s')).
  { intros q i s s' Hs Hrun. split.
    - revert Hrun. apply (fold_outcome_inv _ I); [assumption|].
      intros s0 a s0' _ H0 Hr. now destruct (Hstep _ _ _ _ _ H0 Hr).
    - intro HPs. revert Hrun.
      apply (fold_outcome_inv _ (fun s => I s /\ P s)); [now split|].
      intros s0 a s0' _ [H0 H0'] Hr.
      destruct (Hstep _ _ _ _ _ H0 Hr). auto. }
  assert (Hmiddle : forall q k s s',
            I s ->
            fold_outcome (fun st0 i =>
              fold_outcome (trial_step q i cl cw ch mw base) sub_strategies st0)
              k s = Returned s' -> I s' /\ (P s -> P s')).
  { intros q k s s' Hs Hrun. split.
    - revert Hrun. apply (fold_outcome_inv _ I); [assumption|].
      intros s0 a s0' _ H0 Hr. now destruct (Hinner _ _ _ _ H0 Hr).
    - intro HPs. revert Hrun.
      apply (fold_outcome_inv _ (fun s => I s /\ P s)); [now split|].
      intros s0 a s0' _ [H0 H0'] Hr.
      destruct (Hinner _ _ _ _ H0 Hr). auto. }
  apply (fold_outcome_reach _ I P strategies strat); try assumption.
  - destruct strat; simpl; auto.
  - intros s q s' Hs Hr. now destruct (Hmiddle _ _ _ _ Hs Hr).
  - intros s q s' Hs HPs Hr. destruct (Hmiddle _ _ _ _ Hs Hr). auto.
  - intros s s' Hs.
    replace (iterations_of strat n) with 1%nat by (now destruct strat).
    simpl seq.
    apply (fold_outcome_reach _ I P [0%nat] 0%nat); try assumption.
    + now left.
    + intros s0 i s0' H0 Hr. now destruct (Hinner _ _ _ _ H0 Hr).
    + intros s0 i s0' H0 HP0 Hr. destruct (Hinner _ _ _ _ H0 Hr). auto.
    + intros s0 s0' H0.
      apply (fold_outcome_reach _ I P sub_strategies axis_p); try assumption.
      * destruct axis_p; simpl; auto.
      * intros s1 a s1' H1 Hr. now destruct (Hstep _ _ _ _ _ H1 Hr).
      * intros s1 a s1' H1 HP1 Hr. destruct (Hstep _ _ _ _ _ H1 Hr). auto.
      * intros s1 s1' H1 Hr.
        destruct (trial_step_count _ _ _ _ _ _ _ _ _ _ H1 Hr)
          as (_ & _ & t' & g' & Ht' & Hle).
        rewrite (run_trial_deterministic _ _ _ _ _ _ _ _ _ _ _ _ _ Hdet Ht)
          in Ht'.
        injection Ht' as <- _. exact Hle.
Qed.

(** X17. The state that comes back holds at least as many placed items as the
    outcome of Global Scarcity Fit and of Spot Centric Fit, under either
    axis priority. *)
Theorem solve_packing_count_beats_deterministic (cl cw ch : Q)
    (items_data : list ItemData) (mw : Q) (bw : bool) (n : nat)
    (g : RandomState) (c : Container) (strat : Strategy) (axis_p : Axis)
    (t : Container) (g1 g2 : RandomState) :
  solve_packing cl cw ch items_data mw bw n g = Returned (Some c) ->
  deterministic strat = true ->
  run_trial strat axis_p 0 cl cw ch mw (base_items_raw items_data) g1
  = Returned (t, g2) ->
  (List.length (items t) <= List.length (items c))%nat.
Proof.
  unfold solve_packing. intros Hrun Hdet Ht.
  destruct (search cl cw ch (base_items_raw items_data) mw n (initial_best, g))
    as [st| |] eqn:Es; simpl in Hrun; try discriminate.
  injection Hrun as Hbest.
  assert (H0 : count_recorded (fst (initial_best, g))) by (simpl; red; simpl; lia).
  pose proof (search_count_inv _ _ _ _ _ _ _ _ H0 Es) as Hrec.
  pose proof (search_count_reach _ _ _ _ _ _ _ _ _ _ _ _ _ H0 Hdet Ht Es) as Hle.
  unfold count_recorded in Hrec. rewrite Hbest in Hrec. lia.
Qed.

Lemma solve_packing_count_beats_deterministic_witness :
  (List.length (items two_crates_scarcity) <=
   List.length (items two_crates_plan))%nat.
Proof.
  apply (solve_packing_count_beats_deterministic 10 10 10 two_crates 20000
           false 2 zero_draws two_crates_plan Global_Scarcity_Fit AxisX
           two_crates_scarcity zero_draws zero_draws).
  - vm_compute. reflexivity.
  - reflexivity.
  - vm_compute. reflexivity.
Defined.

(** * The bodies a trial is made of *)

Lemma pop_perm {A : Type} (xs : list A) (i : nat) (v : A) (rest : list A) :
  pop i xs = Some (v, rest) -> Permutation xs (v :: rest).
Proof.
  revert i rest. induction xs as [|a xs IH]; intros [|i] rest Hp;
    simpl in Hp; try discriminate.
  - injection Hp as -> ->. reflexivity.
  - destruct (pop i xs) as [[v' rest']|] eqn:E; simpl in Hp; try discriminate.
    injection Hp as -> <-. rewrite (IH _ _ E). apply perm_swap.
Qed.

Lemma scanned_bodies (c : Container) (pool : list Item) :
  bodies (scanned c pool) = bodies pool.
Proof.
  unfold bodies, scanned. rewrite map_map. apply map_ext.
  intro it. now destruct (overweight c it).
Qed.

Lemma body_place_at (r : nat) (p : Pos) (it : Item) :
  body (place_at r p it) = body it.
Proof. destruct p as [[px py] pz]. reflexivity. Qed.

Lemma bodies_app (xs ys : list Item) :
  bodies (xs ++ ys) = bodies xs ++ bodies ys.
Proof. apply map_app. Qed.

Lemma bodies_perm (xs ys : list Item) :
  Permutation xs ys -> Permutation (bodies xs) (bodies ys).
Proof. apply Permutation_map. Qed.

Lemma placement_bodies (placed_its unpacked pool rest : list Item)
    (winner : Item) (r : nat) (p : Pos) :
  Permutation (bodies pool) (bodies (winner :: rest)) ->
  Permutation
    (bodies ((placed_its ++ [place_at r p winner]) ++ unpacked ++ rest))
    (bodies (placed_its ++ unpacked ++ pool)).
Proof.
  intro Hp. rewrite !bodies_app, Hp. simpl. rewrite body_place_at.
  rewrite <- app_assoc. apply Permutation_app_head. simpl.
  apply Permutation_middle.
Qed.

Lemma scarcity_loop_bodies (rounds : nat) (axis_p : Axis) (c : Container)
    (pool : list Item) (c' : Container) :
  scarcity_loop rounds axis_p c pool = Returned c' ->
  Permutation (bodies (items c' ++ unpacked_items c'))
              (bodies (items c ++ unpacked_items c ++ pool)).
Proof.
  revert c pool. induction rounds as [|rounds IH]; intros c pool Hrun.
  - destruct pool; simpl in Hrun; [|discriminate].
    injection Hrun as <-. now rewrite app_nil_r.
  - destruct (list_eq_dec_nil pool) as [-> | Hne].
    + injection Hrun as <-. now rewrite app_nil_r.
    + rewrite scarcity_loop_round in Hrun by assumption.
      destruct (sort_by score_key_ltb score_key (scarcity_scores c axis_p pool))
        as [|win others].
      * injection Hrun as <-. simpl.
        rewrite !bodies_app, scanned_bodies. reflexivity.
      * destruct (pop (s_idx win) (scanned c pool)) as [[winner rest]|] eqn:Ep;
          [|discriminate].
        apply IH in Hrun. rewrite Hrun. simpl.
        apply placement_bodies.
        rewrite <- (scanned_bodies c pool). apply bodies_perm.
        eapply pop_perm; eauto.
Qed.

Lemma spot_loop_bodies (rounds : nat) (axis_p : Axis) (c : Container)
    (pool : list Item) (c' : Container) :
  spot_loop rounds axis_p c pool = Returned c' ->
  Permutation (bodies (items c' ++ unpacked_items c'))
              (bodies (items c ++ unpacked_items c ++ pool)).
Proof.
  revert c pool. induction rounds as [|rounds IH]; intros c pool Hrun.
  - destruct pool; simpl in Hrun; [|discriminate].
    injection Hrun as <-. now rewrite app_nil_r.
  - destruct (list_eq_dec_nil pool) as [-> | Hne].
    + injection Hrun as <-. now rewrite app_nil_r.
    + rewrite spot_loop_round in Hrun by assumption.
      destruct (spot_scan c axis_p pool) as [[m [[idx rot] p]]|].
      * destruct (pop idx (scanned c pool)) as [[winner rest]|] eqn:Ep;
          [|discriminate].
        apply IH in Hrun. rewrite Hrun. simpl.
        apply placement_bodies.
        rewrite <- (scanned_bodies c pool). apply bodies_perm.
        eapply pop_perm; eauto.
      * injection Hrun as <-. simpl.
        rewrite !bodies_app, scanned_bodies. reflexivity.
Qed.

Lemma greedy_step_bodies (axis_p : Axis) (c : Container) (it : Item) :
  Permutation
    (bodies (items (greedy_step axis_p c it) ++
             unpacked_items (greedy_step axis_p c it)))
    (bodies (items c ++ unpacked_items c ++ [it])).
Proof.
  unfold greedy_step. destruct (overweight c it); [reflexivity|].
  destruct (greedy_scan c axis_p it) as [[[p rot] gap]|]; simpl.
  - rewrite <- (app_nil_r (unpacked_items c)) at 1.
    apply placement_bodies. reflexivity.
  - rewrite !bodies_app. reflexivity.
Qed.

Lemma greedy_pass_bodies (axis_p : Axis) (its : list Item) (c : Container) :
  Permutation
    (bodies (items (greedy_pass axis_p c its) ++
             unpacked_items (greedy_pass axis_p c its)))
    (bodies (items c ++ unpacked_items c ++ its)).
Proof.
  unfold greedy_pass. revert c.
  induction its as [|it its IH]; intro c; simpl.
  - now rewrite app_nil_r.
  - rewrite IH. rewrite !bodies_app.
    pose proof (greedy_step_bodies axis_p c it) as Hs.
    rewrite !bodies_app in Hs. rewrite app_assoc, Hs.
    rewrite <- !app_assoc. reflexivity.
Qed.

Lemma copy_items_bodies (base : list Item) :
  bodies (copy_items base) = bodies base.
Proof. unfold bodies, copy_items. rewrite map_map. reflexivity. Qed.

Lemma run_trial_bodies (strat : Strategy) (axis_p : Axis) (i : nat)
    (cl cw ch mw : Q) (base : list Item) (g g' : RandomState)
    (c : Container) :
  run_trial strat axis_p i cl cw ch mw base g = Returned (c, g') ->
  Permutation (bodies (items c ++ unpacked_items c)) (bodies base).
Proof.
  unfold run_trial. destruct strat.
  - destruct (scarcity_loop _ _ _ _) as [c1| |] eqn:E; simpl; try discriminate.
    intros [= <- _]. apply scarcity_loop_bodies in E.
    rewrite E. simpl. now rewrite copy_items_bodies.
  - destruct (spot_loop _ _ _ _) as [c1| |] eqn:E; simpl; try discriminate.
    intros [= <- _]. apply spot_loop_bodies in E.
    rewrite E. simpl. now rewrite copy_items_bodies.
  - destruct (order_items (i mod 6) (copy_items base) g) as [its g1] eqn:E.
    intros [= <- _]. rewrite greedy_pass_bodies. simpl.
    rewrite <- (copy_items_bodies base). apply bodies_perm.
    pose proof (order_items_perm (i mod 6) (copy_items base) g) as Hp.
    rewrite E in Hp. simpl in Hp. now symmetry.
Qed.

(** X16. The placed and unplaced items of the state that comes back are, as
    bodies (name, dimensions, weight), exactly the instances asked for,
    each one once: none lost, none duplicated, none altered. *)
Theorem solve_packing_bodies (cl cw ch : Q) (items_data : list ItemData)
    (mw : Q) (bw : bool) (n : nat) (g : RandomState) (c : Container) :
  solve_packing cl cw ch items_data mw bw n g = Returned (Some c) ->
  Permutation (bodies (items c ++ unpacked_items c))
              (bodies (base_items_raw items_data)).
Proof.
  intro Hrun. apply solve_packing_trial in Hrun.
  destruct Hrun as [(strat & axis_p & i & g1 & g2 & Ht) _].
  eapply run_trial_bodies; eauto.
Qed.

Lemma solve_packing_bodies_witness :
  Permutation (bodies (items two_crates_plan ++ unpacked_items two_crates_plan))
              (bodies (base_items_raw two_crates)).
Proof.
  apply (solve_packing_bodies 10 10 10 two_crates 20000 false 2 zero_draws).
  vm_compute. reflexivity.
Defined.

(** * What the two deterministic strategies leave unplaced *)

Lemma no_anchor_no_fit (c : Container) (axis_p : Axis) (it : Item) :
  total_valid_anchors c axis_p it = 0%nat ->
  find_best_fit c (set_rotation 0 it) 0 None axis_p = None /\
  find_best_fit c (set_rotation 1 it) 0 None axis_p = None.
Proof.
  unfold total_valid_anchors, find_best_fit.
  destruct (get_all_valid_anchors c (set_rotation 0 it) 0 None axis_p);
    destruct (get_all_valid_anchors c (set_rotation 1 it) 0 None axis_p);
    simpl; intro Hz; try discriminate; auto.
Qed.

Lemma no_scores_no_move (c : Container) (axis_p : Axis) (pool : list Item) :
  sort_by score_key_ltb score_key (scarcity_scores c axis_p pool) = [] ->
  Forall (no_move c axis_p) pool.
Proof.
  intro Hs. apply Forall_forall. intros it Hin.
  destruct (In_nth_error _ _ Hin) as [idx Hnth].
  destruct (overweight c it) eqn:Eo; [now left|]. right.
  apply no_anchor_no_fit.
  destruct (total_valid_anchors c axis_p it) as [|k] eqn:Et; [reflexivity|].
  destruct (candidate_scored c axis_p pool idx it) as (s & Hsc & _).
  { repeat split; auto. rewrite Et. lia. }
  pose proof (sort_by_length score_key_ltb score_key
                (scarcity_scores c axis_p pool)) as Hl.
  rewrite Hs in Hl. destruct (scarcity_scores c axis_p pool);
    [destruct Hsc | discriminate].
Qed.

Lemma no_move_scanned (c : Container) (axis_p : Axis) (pool unp : list Item) :
  Forall (no_move c axis_p) pool ->
  Forall (no_move (extend_unpacked c unp) axis_p) (scanned c pool).
Proof.
  intro Hall. unfold scanned. apply Forall_map.
  eapply Forall_impl; [|exact Hall]. intros it Hit.
  destruct (overweight c it) eqn:Eo.
  - left. exact Eo.
  - destruct Hit as [Ho | Hfit]; [congruence|]. right. exact Hfit.
Qed.

Lemma scarcity_loop_no_move (rounds : nat) (axis_p : Axis) (c : Container)
    (pool : list Item) (c' : Container) :
  unpacked_items c = [] ->
  scarcity_loop rounds axis_p c pool = Returned c' ->
  Forall (no_move c' axis_p) (unpacked_items c').
Proof.
  revert c pool. induction rounds as [|rounds IH]; intros c pool Hu Hrun.
  - destruct pool; simpl in Hrun; [|discriminate].
    injection Hrun as <-. rewrite Hu. constructor.
  - destruct (list_eq_dec_nil pool) as [-> | Hne].
    + injection Hrun as <-. rewrite Hu. constructor.
    + rewrite scarcity_loop_round in Hrun by assumption.
      destruct (sort_by score_key_ltb score_key (scarcity_scores c axis_p pool))
        as [|win others] eqn:Es.
      * injection Hrun as <-. simpl. rewrite Hu. simpl.
        apply no_move_scanned. now apply no_scores_no_move.
      * destruct (pop (s_idx win) (scanned c pool)) as [[winner rest]|];
          [|discriminate].
        eapply IH; [|exact Hrun]. exact Hu.
Qed.

Lemma spot_rotations_none (c : Container) (axis_p : Axis) (idx : nat)
    (it : Item) (best : SpotBest) :
  fold_left (fun (best : SpotBest) rot =>
    match find_best_fit c (set_rotation rot it) 0 None axis_p with
    | None => best
    | Some ((ax, ay, az), gap) =>
        let pos_score := match axis_p with
                         | AxisX => (az, ax, ay)
                         | AxisY => (az, ay, ax)
                         end in
        let '(s0, s1, s2) := pos_score in
        let current_metric : Key5 := (s0, s1, s2, gap, - base_area it) in
        let better := match best with
                      | None => true
                      | Some (m, _) => key5_ltb current_metric m
                      end in
        if better then Some (current_metric, (idx, rot, (ax, ay, az)))
        else best
    end) [0%nat; 1%nat] best = None ->
  best = None /\
  find_best_fit c (set_rotation 0 it) 0 None axis_p = None /\
  find_best_fit c (set_rotation 1 it) 0 None axis_p = None.
Proof.
  simpl.
  destruct (find_best_fit c (set_rotation 0 it) 0 None axis_p)
    as [[[[ax0 ay0] az0] gap0]|];
  destruct (find_best_fit c (set_rotation 1 it) 0 None axis_p)
    as [[[[ax1 ay1] az1] gap1]|];
  destruct axis_p; destruct best as [[m mv]|]; simpl;
    repeat match goal with
      | |- context [if ?b then _ else _] => destruct b
      end; intro Hn; try discriminate; auto.
Qed.

Lemma spot_scan_none_from (c : Container) (axis_p : Axis)
    (es : list (nat * Item)) (best : SpotBest) :
  fold_left (fun (best : SpotBest) '(idx, it) =>
    if overweight c it then best
    else
      fold_left (fun (best : SpotBest) rot =>
        match find_best_fit c (set_rotation rot it) 0 None axis_p with
        | None => best
        | Some ((ax, ay, az), gap) =>
            let pos_score := match axis_p with
                             | AxisX => (az, ax, ay)
                             | AxisY => (az, ay, ax)
                             end in
            let '(s0, s1, s2) := pos_score in
            let current_metric : Key5 := (s0, s1, s2, gap, - base_area it) in
            let better := match best with
                          | None => true
                          | Some (m, _) => key5_ltb current_metric m
                          end in
            if better then Some (current_metric, (idx, rot, (ax, ay, az)))
            else best
        end) [0%nat; 1%nat] best) es best = None ->
  best = None /\ Forall (fun e => no_move c axis_p (snd e)) es.
Proof.
  revert best. induction es as [|[idx it] es IH]; intros best Hn.
  - simpl in Hn. auto.
  - cbn [fold_left] in Hn. apply IH in Hn. destruct Hn as [Hb Hall].
    destruct (overweight c it) eqn:Eo.
    + split; [assumption|]. constructor; [now left | assumption].
    + apply spot_rotations_none in Hb. destruct Hb as (Hb & H0 & H1).
      split; [assumption|]. constructor; [right; auto | assumption].
Qed.

Lemma spot_scan_none (c : Container) (axis_p : Axis) (pool : list Item) :
  spot_scan c axis_p pool = None -> Forall (no_move c axis_p) pool.
Proof.
  unfold spot_scan. intro Hn. apply spot_scan_none_from in Hn.
  destruct Hn as [_ Hall]. apply Forall_forall. intros it Hin.
  destruct (In_nth_error _ _ Hin) as [idx Hnth].
  apply enumerate_In in Hnth. rewrite Forall_forall in Hall.
  exact (Hall _ Hnth).
Qed.

Lemma spot_loop_no_move (rounds : nat) (axis_p : Axis) (c : Container)
    (pool : list Item) (c' : Container) :
  unpacked_items c = [] ->
  spot_loop rounds axis_p c pool = Returned c' ->
  Forall (no_move c' axis_p) (unpacked_items c').
Proof.
  revert c pool. induction rounds as [|rounds IH]; intros c pool Hu Hrun.
  - destruct pool; simpl in Hrun; [|discriminate].
    injection Hrun as <-. rewrite Hu. constructor.
  - destruct (list_eq_dec_nil pool) as [-> | Hne].
    + injection Hrun as <-. rewrite Hu. constructor.
    + rewrite spot_loop_round in Hrun by assumption.
      destruct (spot_scan c axis_p pool) as [[m [[idx rot] p]]|] eqn:Es.
      * destruct (pop idx (scanned c pool)) as [[winner rest]|];
          [|discriminate].
        eapply IH; [|exact Hrun]. exact Hu.
      * injection Hrun as <-. simpl. rewrite Hu. simpl.
        apply no_move_scanned. now apply spot_scan_none.
Qed.

Lemma deterministic_trial_maximal (strat : Strategy) (axis_p : Axis)
    (i : nat) (cl cw ch mw : Q) (base : list Item) (g g' : RandomState)
    (c : Container) :
  deterministic strat = true ->
  run_trial strat axis_p i cl cw ch mw base g = Returned (c, g') ->
  Forall (no_move c axis_p) (unpacked_items c).
Proof.
  unfold run_trial. destruct strat; simpl; try discriminate; intros _.
  - destruct (scarcity_loop _ _ _ _) as [c1| |] eqn:E; simpl; try discriminate.
    intros [= <- _]. eapply scarcity_loop_no_move; [|exact E]. reflexivity.
  - destruct (spot_loop _ _ _ _) as [c1| |] eqn:E; simpl; try discriminate.
    intros [= <- _]. eapply spot_loop_no_move; [|exact E]. reflexivity.
Qed.

(** X18. A trial of Global Scarcity Fit or of Spot Centric Fit stops only when
    nothing more can be done: for every item it leaves unplaced, in the
    final state either the weight pre-check fails or the best-fit search
    finds no anchor in either rotation. *)
Theorem run_trial_deterministic_maximal (strat : Strategy) (axis_p : Axis)
    (i : nat) (cl cw ch mw : Q) (base : list Item) (g g' : RandomState)
    (c : Container) :
  deterministic strat = true ->
  run_trial strat axis_p i cl cw ch mw base g = Returned (c, g') ->
  Forall (no_move c axis_p) (unpacked_items c).
Proof.
  exact (deterministic_trial_maximal strat axis_p i cl cw ch mw base g g' c).
Qed.

Lemma run_trial_deterministic_maximal_witness :
  Forall (no_move three_slabs_scarcity AxisX)
         (unpacked_items three_slabs_scarcity).
Proof.
  apply (run_trial_deterministic_maximal Global_Scarcity_Fit AxisX 0
           10 10 10 20000 (base_items_raw three_slabs) zero_draws zero_draws).
  - reflexivity.
  - vm_compute. reflexivity.
Defined.

(** * When the call succeeds *)

Lemma loadable_stable (cl cw ch mw : Q) : body_stable (loadable cl cw ch mw).
Proof.
  intros a b (_ & Hl & Hw & Hh & Hwt). unfold loadable, fits_empty.
  now rewrite Hl, Hw, Hh, Hwt.
Qed.

Lemma loadable_body (cl cw ch mw : Q) (a b : Item) :
  body a = body b -> loadable cl cw ch mw a -> loadable cl cw ch mw b.
Proof.
  intro Hb. apply loadable_stable. unfold body in Hb.
  injection Hb as H1 H2 H3 H4 H5. repeat split; assumption.
Qed.

(** In an empty state of a container of non-negative length and width,
    something can be done for a loadable item. *)
Lemma empty_has_move (c : Container) (axis_p : Axis) (it : Item) :
  items c = [] -> current_weight c == 0 -> 0 <= L c -> 0 <= W c ->
  loadable (L c) (W c) (H c) (max_weight c) it ->
  ~ no_move c axis_p it.
Proof.
  intros Hnil Hcw HL HW (Hpos & Hcap & Hh & Hfit) [Ho | [H0 H1]].
  - unfold overweight in Ho. apply Qltb_true in Ho. rewrite Hcw in Ho. lra.
  - destruct Hfit as [[Fl Fw] | [Fl Fw]].
    + destruct (best_fit_empty_origin c (set_rotation 0 it) axis_p Hnil HL HW)
        as (p & gap & Hf & _); [simpl; auto|]. congruence.
    + destruct (best_fit_empty_origin c (set_rotation 1 it) axis_p Hnil HL HW)
        as (p & gap & Hf & _); [simpl; auto|]. congruence.
Qed.

Lemma greedy_scan_none (c : Container) (axis_p : Axis) (it : Item) :
  greedy_scan c axis_p it = None ->
  find_best_fit c (set_rotation 0 it) 0 None axis_p = None /\
  find_best_fit c (set_rotation 1 it) 0 None axis_p = None.
Proof.
  unfold greedy_scan. simpl.
  destruct (find_best_fit c (set_rotation 0 it) 0 None axis_p)
    as [[[[ax0 ay0] az0] gap0]|];
  destruct (find_best_fit c (set_rotation 1 it) 0 None axis_p)
    as [[[[ax1 ay1] az1] gap1]|];
    repeat match goal with
      | |- context [if ?b then _ else _] => destruct b
      end; intro Hn; try discriminate; auto.
Qed.

Lemma greedy_step_keeps (axis_p : Axis) (c : Container) (it : Item) :
  items c <> [] -> items (greedy_step axis_p c it) <> [].
Proof.
  intro Hne. unfold greedy_step. destruct (overweight c it); [exact Hne|].
  destruct (greedy_scan c axis_p it) as [[[p rot] gap]|]; simpl;
    [|exact Hne].
  intro Hnil. apply app_eq_nil in Hnil. destruct Hnil. discriminate.
Qed.

Lemma greedy_step_places (axis_p : Axis) (c : Container) (it : Item) :
  ~ no_move c axis_p it -> items (greedy_step axis_p c it) <> [].
Proof.
  intro Hmove. unfold greedy_step.
  destruct (overweight c it) eqn:Eo; [exfalso; apply Hmove; now left|].
  destruct (greedy_scan c axis_p it) as [[[p rot] gap]|] eqn:Eg; simpl.
  - intro Hnil. apply app_eq_nil in Hnil. destruct Hnil. discriminate.
  - exfalso. apply Hmove. right. now apply greedy_scan_none.
Qed.

Lemma bodies_In (its : list Item) (it : Item) (base : list Item) :
  Permutation (bodies its) (bodies base) -> In it its ->
  exists b, In b base /\ body b = body it.
Proof.
  intros Hp Hin.
  assert (Hb : In (body it) (bodies base)).
  { eapply Permutation_in; [exact Hp|]. unfold bodies. now apply in_map. }
  unfold bodies in Hb. apply in_map_iff in Hb.
  destruct Hb as (b & Hbody & Hb). eauto.
Qed.

(** Every trial places something when every instance is loadable. *)
Lemma run_trial_places (strat : Strategy) (axis_p : Axis) (i : nat)
    (cl cw ch mw : Q) (base : list Item) (g g' : RandomState)
    (c : Container) :
  0 <= cl -> 0 <= cw -> base <> [] ->
  Forall (loadable cl cw ch mw) base ->
  run_trial strat axis_p i cl cw ch mw base g = Returned (c, g') ->
  items c <> [].
Proof.
  intros HL HW Hne Hload Hrun.
  assert (Hout : trial_outcome cl cw ch mw base c)
    by (exists strat, axis_p, i, g, g'; exact Hrun).
  apply trial_outcome_finished in Hout.
  destruct Hout as (Hinv & (EL & EW & EH & EM) & Hcount & _).
  simpl in EL, EW, EH, EM.
  destruct (deterministic strat) eqn:Ed.
  - intro Hnil.
    pose proof (deterministic_trial_maximal _ _ _ _ _ _ _ _ _ _ _ Ed Hrun)
      as Hmax.
    pose proof (run_trial_bodies _ _ _ _ _ _ _ _ _ _ _ Hrun) as Hbod.
    rewrite Hnil in Hcount, Hbod. simpl in Hcount, Hbod.
    destruct (unpacked_items c) as [|it rest] eqn:Eu.
    { destruct base; [contradiction | simpl in Hcount; lia]. }
    apply Forall_inv in Hmax.
    destruct (bodies_In (it :: rest) it base Hbod) as (b & Hb & Hbody);
      [now left|].
    rewrite Forall_forall in Hload.
    apply (empty_has_move c axis_p it); auto.
    + rewrite (inv_weight c Hinv). unfold placed_weight. rewrite Hnil.
      reflexivity.
    + now rewrite EL.
    + now rewrite EW.
    + rewrite EL, EW, EH, EM. eapply loadable_body; eauto.
  - destruct strat; try discriminate. unfold run_trial in Hrun.
    destruct (order_items (i mod 6) (copy_items base) g) as [its g1] eqn:E.
    injection Hrun as <- _.
    pose proof (order_items_perm (i mod 6) (copy_items base) g) as Hp.
    rewrite E in Hp. simpl in Hp.
    assert (Hall : Forall (loadable cl cw ch mw) its).
    { eapply Permutation_Forall; [exact Hp|].
      apply copy_items_Forall; [apply loadable_stable | assumption]. }
    destruct its as [|it rest].
    { apply Permutation_length in Hp. rewrite copy_items_length in Hp.
      destruct base; [contradiction | discriminate]. }
    unfold greedy_pass. simpl.
    apply fold_left_inv.
    + apply greedy_step_places. apply empty_has_move; simpl; auto.
      * reflexivity.
      * now inversion Hall.
    + intros s a _ Hs. now apply greedy_step_keeps.
Qed.

Lemma fold_outcome_no_raise {A S : Type} (f : S -> A -> outcome S)
    (xs : list A) (s : S) (e : PyError) :
  (forall s a, f s a <> Raised e) -> fold_outcome f xs s <> Raised e.
Proof.
  intro Hf. revert s. induction xs as [|a xs IH]; intro s; simpl;
    [discriminate|].
  destruct (f s a) as [s1|e1|] eqn:E1; simpl; try discriminate.
  - apply IH.
  - intro Heq. apply (Hf s a). congruence.
Qed.

Lemma search_no_raise (cl cw ch : Q) (base : list Item) (mw : Q) (n : nat)
    (st : SearchState) (e : PyError) :
  (forall c, trial_outcome cl cw ch mw base c -> ~ current_weight c == 0) ->
  search cl cw ch base mw n st <> Raised e.
Proof.
  intro Hnz. unfold search.
  apply fold_outcome_no_raise. intros s1 strat.
  apply fold_outcome_no_raise. intros s2 i.
  apply fold_outcome_no_raise. intros [b g] axis_p.
  unfold trial_step.
  destruct (run_trial strat axis_p i cl cw ch mw base g) as [[t g']| |] eqn:Ht.
  - simpl.
    destruct (score_trial_cases strat t b)
      as [[Hz _] | [_ (b' & -> & _)]]; [|discriminate].
    exfalso. apply (Hnz t); [|assumption].
    exists strat, axis_p, i, g, g'. exact Ht.
  - destruct (run_trial_result strat axis_p i cl cw ch mw base g)
      as (t & g' & Hr & _). congruence.
  - discriminate.
Qed.

Lemma loadable_base (cl cw ch mw : Q) (items_data : list ItemData) :
  (forall d, In d items_data ->
     0 < d_weight d /\ d_weight d <= mw /\ d_h d <= ch + EPSILON /\
     ((d_l d <= cl + EPSILON /\ d_w d <= cw + EPSILON) \/
      (d_w d <= cl + EPSILON /\ d_l d <= cw + EPSILON))) ->
  Forall (loadable cl cw ch mw) (base_items_raw items_data).
Proof.
  intro Hd. apply base_items_raw_Forall. intros d Hin.
  destruct (Hd d Hin) as (H1 & H2 & H3 & H4). repeat split; assumption.
Qed.

Lemma some_instance_base (items_data : list ItemData) (d : ItemData) :
  In d items_data -> (0 < d_qty d)%Z -> base_items_raw items_data <> [].
Proof.
  intros Hin Hq Hnil. unfold base_items_raw in Hnil.
  assert (Hx : In (new_Item (d_name d) (d_l d) (d_w d) (d_h d) (d_weight d))
                  (flat_map (fun d =>
                     repeat (new_Item (d_name d) (d_l d) (d_w d) (d_h d)
                               (d_weight d))
                            (Z.to_nat (d_qty d))) items_data)).
  { apply in_flat_map. exists d. split; [assumption|].
    destruct (Z.to_nat (d_qty d)) eqn:En; [lia | now left]. }
  rewrite Hnil in Hx. destruct Hx.
Qed.

Lemma solve_packing_loadable (cl cw ch : Q) (items_data : list ItemData)
    (mw : Q) (bw : bool) (n : nat) (g : RandomState) :
  0 <= cl -> 0 <= cw -> base_items_raw items_data <> [] ->
  Forall (loadable cl cw ch mw) (base_items_raw items_data) ->
  exists c, solve_packing cl cw ch items_data mw bw n g = Returned (Some c).
Proof.
  intros HL HW Hne Hload.
  assert (Hnz : forall c,
            trial_outcome cl cw ch mw (base_items_raw items_data) c ->
            ~ current_weight c == 0).
  { intros c Hout Hz.
    pose proof (trial_outcome_finished _ _ _ _ _ _ Hout) as Hfin.
    rewrite (finished_weight _ _ _ _ _ _ Hfin) in Hz.
    destruct Hout as (strat & axis_p & i & g1 & g2 & Hrun).
    pose proof (run_trial_places _ _ _ _ _ _ _ _ _ _ _ HL HW Hne Hload Hrun)
      as Hsome.
    destruct Hfin as (_ & _ & _ & HP).
    assert (Hpos : Forall (fun it => 0 < weight it) (items c)).
    { apply HP.
      - intros a b (_ & _ & _ & _ & Hw) Ha. now rewrite <- Hw.
      - eapply Forall_impl; [|exact Hload]. now intros a (Ha & _). }
    pose proof (total_pos weight (items c) Hsome Hpos). lra. }
  unfold solve_packing.
  destruct (search_total cl cw ch (base_items_raw items_data) mw n
              (initial_best, g)) as [(st' & -> & Hb) | Hr].
  - simpl. destruct (best_container (fst st')) as [c|]; [eauto | contradiction].
  - exfalso. eapply search_no_raise; eauto.
Qed.

(** X13. When the container has non-negative length and width, there is at
    least one instance, and every entry has a positive weight within the
    capacity and passes the bounds tests in the empty container in one of
    its rotations, the call returns a state: no trial ends empty-handed,
    so the failing unpacking in the scorer is never reached. *)
Theorem solve_packing_succeeds (cl cw ch : Q) (items_data : list ItemData)
    (mw : Q) (bw : bool) (n : nat) (g : RandomState) :
  0 <= cl -> 0 <= cw ->
  (exists d, In d items_data /\ (0 < d_qty d)%Z) ->
  (forall d, In d items_data ->
     0 < d_weight d /\ d_weight d <= mw /\ d_h d <= ch + EPSILON /\
     ((d_l d <= cl + EPSILON /\ d_w d <= cw + EPSILON) \/
      (d_w d <= cl + EPSILON /\ d_l d <= cw + EPSILON))) ->
  exists c, solve_packing cl cw ch items_data mw bw n g = Returned (Some c).
Proof.
  intros HL HW (d & Hin & Hq) Hall.
  apply solve_packing_loadable; auto.
  - eapply some_instance_base; eauto.
  - now apply loadable_base.
Qed.

Lemma solve_packing_succeeds_witness :
  exists c, solve_packing 10 10 10 three_slabs 20000 false 3 zero_draws
            = Returned (Some c).
Proof.
  apply solve_packing_succeeds.
  - unfold Qle; simpl; lia.
  - unfold Qle; simpl; lia.
  - exists (mkItemData "slab" 6 6 2 5 3). split; [now left | reflexivity].
  - intros d [<- | []]. unfold EPSILON, Qlt, Qle; simpl.
    repeat split; lia.
Defined.

(** * A single instance, and the statistics of a returned state *)

Lemma returned_nonempty (cl cw ch : Q) (items_data : list ItemData)
    (mw : Q) (bw : bool) (n : nat) (g : RandomState) (c : Container) :
  solve_packing cl cw ch items_data mw bw n g = Returned (Some c) ->
  items c <> [].
Proof.
  intro Hrun. apply solve_packing_trial in Hrun. destruct Hrun as [Hout Hnz].
  apply trial_outcome_finished in Hout.
  rewrite (finished_weight _ _ _ _ _ _ Hout) in Hnz.
  intro Hnil. apply Hnz. rewrite Hnil. reflexivity.
Qed.

Lemma volume_nonzero (a b c : Q) : 0 < a -> 0 < b -> 0 < c -> ~ a * b * c == 0.
Proof.
  intros Ha Hb Hc Hz.
  pose proof (Qmult_pos _ _ (Qmult_pos _ _ Ha Hb) Hc). lra.
Qed.

(** X14. A single instance that is loadable (positive weight within the
    capacity, a fit in the empty container of positive dimensions) is
    always placed: the call returns, and the statistics of the state show
    one packed item, none unpacked, the instance's weight, and its share of
    the container volume. *)
Theorem solve_packing_single_instance (nm : string) (il iw ih wt : Q)
    (cl cw ch mw : Q) (bw : bool) (n : nat) (g : RandomState) :
  0 < cl -> 0 < cw -> 0 < ch ->
  0 < wt -> wt <= mw -> ih <= ch + EPSILON ->
  ((il <= cl + EPSILON /\ iw <= cw + EPSILON) \/
   (iw <= cl + EPSILON /\ il <= cw + EPSILON)) ->
  exists c s,
    solve_packing cl cw ch [mkItemData nm il iw ih wt 1] mw bw n g
    = Returned (Some c) /\
    get_container_stats c = Returned s /\
    packed_count s = 1%nat /\ unpacked_count s = 0%nat /\
    weight_total s == wt /\
    volume_utilization s == il * iw * ih / (cl * cw * ch) * 100.
Proof.
  intros HL HW HH Hwt Hcap Hh Hfit.
  set (data := [mkItemData nm il iw ih wt 1]).
  assert (Hbase : base_items_raw data = [new_Item nm il iw ih wt])
    by reflexivity.
  destruct (solve_packing_loadable cl cw ch data mw bw n g) as [c Hrun].
  { lra. } { lra. } { rewrite Hbase. discriminate. }
  { rewrite Hbase. constructor; [|constructor]. repeat split; assumption. }
  exists c.
  pose proof (returned_nonempty _ _ _ _ _ _ _ _ _ Hrun) as Hne.
  destruct (solve_packing_trial _ _ _ _ _ _ _ _ _ Hrun) as [Hout _].
  pose proof (trial_outcome_finished _ _ _ _ _ _ Hout)
    as (_ & (EL & EW & EH & _) & _ & _).
  simpl in EL, EW, EH.
  destruct Hout as (strat & axis_p & i & g1 & g2 & Ht).
  apply run_trial_bodies in Ht. rewrite Hbase in Ht.
  symmetry in Ht. apply Permutation_length_1_inv in Ht.
  destruct (stats_volume_cases c) as [[Hz _] | [_ (s & Hs)]].
  { exfalso. rewrite EL, EW, EH in Hz. now apply (volume_nonzero cl cw ch). }
  exists s. split; [exact Hrun|]. split; [exact Hs|].
  unfold get_container_stats in Hs.
  destruct (distribute c) as [[[[[sn sd] sl] sr] sb] st].
  destruct (Qeqb (L c * W c * H c) 0); [discriminate|].
  injection Hs as <-. simpl.
  destruct (items c) as [|it [|it2 its]]; [contradiction | |].
  - destruct (unpacked_items c); [|discriminate].
    simpl in Ht. injection Ht as E1 E2 E3 E4 E5.
    repeat split.
    + unfold py_sum. simpl. rewrite E5. ring.
    + unfold py_sum, vol. simpl. rewrite EL, EW, EH, E2, E3, E4.
      field. split; [|split]; lra.
  - simpl in Ht. discriminate.
Qed.

Lemma solve_packing_single_instance_witness :
  exists c s,
    solve_packing 10 8 6 full_block 20000 false 3 zero_draws
    = Returned (Some c) /\
    get_container_stats c = Returned s /\
    packed_count s = 1%nat /\ unpacked_count s = 0%nat /\
    weight_total s == 5 /\
    volume_utilization s == 10 * 8 * 6 / (10 * 8 * 6) * 100.
Proof.
  apply (solve_packing_single_instance "block" 10 8 6 5 10 8 6 20000 false 3
           zero_draws); unfold EPSILON, Qlt, Qle; simpl; lia.
Defined.

(** X23. The statistics of any returned state of a container with positive
    dimensions: the record is produced (no division by zero), the packed
    and unpacked counts add up to the number of instances, at least one
    item is packed, the weight limit is the capacity asked for, the total
    weight is the state's running weight and is within the capacity, and
    the weight utilisation does not exceed 100 when the capacity is
    positive. *)
Theorem solve_packing_stats (cl cw ch : Q) (items_data : list ItemData)
    (mw : Q) (bw : bool) (n : nat) (g : RandomState) (c : Container) :
  0 < cl -> 0 < cw -> 0 < ch ->
  solve_packing cl cw ch items_data mw bw n g = Returned (Some c) ->
  exists s, get_container_stats c = Returned s /\
    (packed_count s + unpacked_count s =
     List.length (base_items_raw items_data))%nat /\
    (1 <= packed_count s)%nat /\
    weight_limit s = mw /\
    weight_total s = current_weight c /\
    weight_total s <= mw /\
    (0 < mw -> weight_utilization s <= 100).
Proof.
  intros HL HW HH Hrun.
  pose proof (returned_nonempty _ _ _ _ _ _ _ _ _ Hrun) as Hne.
  destruct (solve_packing_trial _ _ _ _ _ _ _ _ _ Hrun) as [Hout _].
  pose proof (trial_outcome_finished _ _ _ _ _ _ Hout)
    as (Hinv & (EL & EW & EH & EM) & Hcount & _).
  simpl in EL, EW, EH, EM.
  destruct (stats_volume_cases c) as [[Hz _] | [_ (s & Hs)]].
  { exfalso. rewrite EL, EW, EH in Hz. now apply (volume_nonzero cl cw ch). }
  exists s. split; [exact Hs|].
  unfold get_container_stats in Hs.
  destruct (distribute c) as [[[[[sn sd] sl] sr] sb] st].
  destruct (Qeqb (L c * W c * H c) 0); [discriminate|].
  injection Hs as <-. simpl.
  assert (Hbudget : py_sum (map weight (items c)) <= mw).
  { destruct (inv_budget c Hinv) as [Hnil | Hb]; [contradiction|].
    rewrite (inv_weight c Hinv), EM in Hb. exact Hb. }
  split; [exact Hcount|]. split.
  { destruct (items c); [contradiction | simpl; lia]. }
  split; [exact EM|].
  split; [symmetry; exact (inv_weight c Hinv)|].
  split; [exact Hbudget|].
  intro Hmw. rewrite EM.
  destruct (Qltb 0 mw) eqn:E; [|lra].
  assert (Hdiv : py_sum (map weight (items c)) / mw <= 1).
  { apply Qle_shift_div_r; [assumption | lra]. }
  lra.
Qed.

Lemma solve_packing_stats_witness :
  exists s, get_container_stats two_crates_plan = Returned s /\
    (packed_count s + unpacked_count s =
     List.length (base_items_raw two_crates))%nat /\
    (1 <= packed_count s)%nat /\
    weight_limit s = 20000 /\
    weight_total s = current_weight two_crates_plan /\
    weight_total s <= 20000 /\
    (0 < 20000 -> weight_utilization s <= 100).
Proof.
  apply (solve_packing_stats 10 10 10 two_crates 20000 false 2 zero_draws);
    try (unfold Qlt; simpl; lia).
  vm_compute. reflexivity.
Defined.

(** * Random swaps *)

(** X7. [_apply_swaps] only reorders its list, and a list too short for one
    swap ([len(items) * percentage] below 1) comes back as it is, with no
    random number drawn. *)
Theorem _apply_swaps_spec {A : Type} (xs : list A) (pct : Q)
    (g : RandomState) :
  Permutation xs (fst (_apply_swaps xs pct g)) /\
  (inject_Z (Z.of_nat (List.length xs)) * pct < 1 ->
   _apply_swaps xs pct g = (xs, g)).
Proof.
  split; [apply swaps_perm|]. intro Hshort. unfold _apply_swaps.
  set (q := inject_Z (Z.of_nat (List.length xs)) * pct) in *.
  assert (Hz : (Qfloor q <= 0)%Z).
  { pose proof (Qfloor_le q) as Hf.
    assert (Hlt : inject_Z (Qfloor q) < inject_Z 1)
      by (apply Qle_lt_trans with q; [exact Hf | exact Hshort]).
    rewrite <- Zlt_Qlt in Hlt. lia. }
  replace (Z.to_nat (Qfloor q)) with 0%nat by lia. reflexivity.
Qed.

Lemma _apply_swaps_spec_witness :
  _apply_swaps [1%nat; 2%nat; 3%nat] (2 # 10) zero_draws
  = ([1%nat; 2%nat; 3%nat], zero_draws).
Proof.
  apply (proj2 (_apply_swaps_spec [1%nat; 2%nat; 3%nat] (2 # 10) zero_draws)).
  unfold Qlt. simpl. lia.
Defined.

(** * Sample runs of the properties above *)

Lemma get_all_valid_anchors_sound_witness :
  let '(item_l, item_w, item_h) := get_dimension third_crate in
  let '(ax, ay, az) := anchor_pos third_crate_anchor in
  x_edge two_crates_plan 0 ax /\ y_edge two_crates_plan ay /\ az = 0 /\
  fits_at two_crates_plan 0 (end_limit two_crates_plan None)
    item_l item_w item_h ax ay az /\
  (forall other, In other (items two_crates_plan) ->
     collides ax ay az item_l item_w item_h other = false /\
     ~ overlap_beyond_tolerance
         (place_at (rotation third_crate) (ax, ay, az) third_crate) other) /\
  anchor_gap third_crate_anchor =
    gap_at two_crates_plan (end_limit two_crates_plan None)
      item_l item_w ax ay /\
  anchor_key third_crate_anchor = (az, ax, ay, anchor_gap third_crate_anchor).
Proof.
  apply (get_all_valid_anchors_sound two_crates_plan third_crate 0 None AxisX
           third_crate_anchor).
  vm_compute. left. reflexivity.
Defined.

Lemma get_all_valid_anchors_complete_witness :
  exists a, In a (get_all_valid_anchors empty_bin third_crate 0 None AxisX) /\
            pos_eq (anchor_pos a) (0, 0, 0).
Proof.
  apply (get_all_valid_anchors_complete empty_bin third_crate 0 None AxisX 0 0).
  - left. reflexivity.
  - left. reflexivity.
  - simpl. split.
    + unfold fits_at, EPSILON, Qle; simpl. lia.
    + intros other [].
Defined.

Lemma find_best_fit_empty_origin_witness :
  exists p gap, find_best_fit empty_bin third_crate 0 None AxisX
                = Some (p, gap) /\ pos_eq p (0, 0, 0).
Proof.
  apply (find_best_fit_empty_origin empty_bin third_crate AxisX).
  - reflexivity.
  - unfold Qle; simpl; lia.
  - unfold Qle; simpl; lia.
  - simpl. unfold EPSILON, Qle; simpl. lia.
Defined.

Lemma calculate_balance_score_range_witness :
  exists d r, calculate_balance_score long_beam_plan = Pair d r /\
    0 <= r /\ r <= 100 /\ 0 <= d /\ d <= 50.
Proof.
  apply (calculate_balance_score_range long_beam_plan).
  - repeat constructor. unfold Qle; simpl; lia.
  - reflexivity.
  - vm_compute. discriminate.
Defined.

Lemma solve_packing_never_all_unplaced_witness :
  items two_crates_plan <> [].
Proof.
  apply (solve_packing_never_all_unplaced 10 10 10 two_crates 20000 false 2
           zero_draws).
  vm_compute. reflexivity.
Defined.

Lemma solve_packing_too_tall_raises_witness :
  solve_packing 10 10 10 mast 20000 false 3 zero_draws = Raised TypeError.
Proof.
  apply solve_packing_too_tall_raises.
  repeat constructor.
Defined.

(** * Without Monte Carlo iterations *)

Lemma trial_step_same (strat : Strategy) (i : nat) (cl cw ch mw : Q)
    (base : list Item) (s1 s2 : SearchState) (axis_p : Axis) :
  deterministic strat = true -> fst s1 = fst s2 ->
  outcome_same (trial_step strat i cl cw ch mw base s1 axis_p)
               (trial_step strat i cl cw ch mw base s2 axis_p).
Proof.
  destruct s1 as [b g1], s2 as [b2 g2]. simpl. intros Hd <-.
  unfold trial_step, run_trial. destruct strat; simpl; try discriminate.
  - destruct (scarcity_loop _ _ _ _) as [t| |]; simpl; auto.
    destruct (score_trial _ t b) as [b'| |]; simpl; auto.
  - destruct (spot_loop _ _ _ _) as [t| |]; simpl; auto.
    destruct (score_trial _ t b) as [b'| |]; simpl; auto.
Qed.

Lemma fold_outcome_same {A : Type} (f : SearchState -> A -> outcome SearchState)
    (xs : list A) :
  (forall s1 s2 a, In a xs -> fst s1 = fst s2 ->
     outcome_same (f s1 a) (f s2 a)) ->
  forall s1 s2, fst s1 = fst s2 ->
    outcome_same (fold_outcome f xs s1) (fold_outcome f xs s2).
Proof.
  induction xs as [|a xs IH]; intros Hf s1 s2 Hs; simpl; [assumption|].
  pose proof (Hf s1 s2 a (or_introl eq_refl) Hs) as Ha.
  destruct (f s1 a) as [t1|e1|]; destruct (f s2 a) as [t2|e2|]; simpl in *;
    try contradiction; auto.
Qed.

(** X19. With [n_simulations = 0] only the two deterministic strategies run,
    and the result does not depend on the random source. *)
Theorem solve_packing_no_simulation (cl cw ch : Q)
    (items_data : list ItemData) (mw : Q) (bw : bool) (g1 g2 : RandomState) :
  solve_packing cl cw ch items_data mw bw 0 g1 =
  solve_packing cl cw ch items_data mw bw 0 g2.
Proof.
  unfold solve_packing.
  assert (Hsame : outcome_same
            (search cl cw ch (base_items_raw items_data) mw 0
               (initial_best, g1))
            (search cl cw ch (base_items_raw items_data) mw 0
               (initial_best, g2))).
  { unfold search. apply fold_outcome_same; [|reflexivity].
    intros s1 s2 strat _ Hs.
    destruct (deterministic strat) eqn:Hd.
    - apply fold_outcome_same; [|assumption].
      intros t1 t2 i _ Ht.
      apply fold_outcome_same; [|assumption].
      intros u1 u2 axis_p _ Hu. now apply trial_step_same.
    - destruct strat; try discriminate. simpl. exact Hs. }
  destruct (search _ _ _ _ _ _ (initial_best, g1)) as [t1|e1|];
    destruct (search _ _ _ _ _ _ (initial_best, g2)) as [t2|e2|];
    simpl in *; try contradiction; congruence.
Qed.

(** * Inputs outside the data model *)


(** * The rotation kept by the scarcity scan *)

(** C8 (the code departs from it). Container 10 x 10 x 10, a plate of
    3 x 7 x 5 and a bar of 9 x 2 x 5, axis priority y. The first round
    places the plate at the origin. In the second round the search ranks
    the bar's anchors by (z, y, x, gap): rotation 0 has the single anchor
    (0, 7, 0), rotation 1 the single anchor (3, 0, 0), whose key is
    strictly smaller. The scan compares the two heads as (x, y, z), keeps
    rotation 0, and the bar is placed at (0, 7, 0): not at its best-ranked
    anchor. *)
Theorem scarcity_round_ignores_axis_priority (g : RandomState) :
  scarcity_loop 2 AxisY (new_Container 10 10 10 20000)
    (copy_items (base_items_raw plate_and_bar))
  = scarcity_loop 1 AxisY plate_placed [bar_in_pool] /\
  rotation_scan plate_placed AxisY bar_in_pool = (2%nat, Some (0%nat, (0, 7, 0))) /\
  get_all_valid_anchors plate_placed (set_rotation 0 bar_in_pool) 0 None AxisY
  = [(0, 7, 0, 2, (0, 7, 0), 2)] /\
  get_all_valid_anchors plate_placed (set_rotation 1 bar_in_pool) 0 None AxisY
  = [(0, 0, 3, 6, (3, 0, 0), 6)] /\
  key4_ltb (0, 0, 3, 6) (0, 7, 0, 2) = true /\
  pos_ltb (3, 0, 0) (0, 7, 0) = false /\
  scarcity_loop 1 AxisY plate_placed [bar_in_pool]
  = Returned plate_and_bar_trial /\
  run_trial Global_Scarcity_Fit AxisY 0 10 10 10 20000
    (base_items_raw plate_and_bar) g
  = Returned (plate_and_bar_trial, g) /\
  solve_packing 10 10 10 plate_and_bar 20000 false 0 g
  = Returned (Some plate_and_bar_trial).
Proof.
  repeat split; vm_compute; reflexivity.
Qed.

(** * An instance larger than the container *)

(** C9 (the code departs from it). For a single item instance whose
    length, width and height each exceed the corresponding container
    dimension by more than [EPSILON], the call does not return the state
    with that instance unplaced: every trial ends with nothing placed, and
    the scorer raises [TypeError] on the first of them. *)
Theorem oversize_instance_raises (cl cw ch mw : Q) (nm : string)
    (dl dw dh wt : Q) (bw : bool) (n : nat) (g : RandomState) :
  cl + EPSILON < dl -> cw + EPSILON < dw -> ch + EPSILON < dh ->
  solve_packing cl cw ch [mkItemData nm dl dw dh wt 1] mw bw n g
  = Raised TypeError.
Proof.
  intros _ _ Hh. apply solve_packing_weightless_first_trial.
  intros c (strat & axis_p & i & g1 & g2 & Hrun).
  destruct (run_trial_too_tall strat axis_p i cl cw ch mw
              (base_items_raw [mkItemData nm dl dw dh wt 1]) g1)
    as (c' & g' & Hrun' & _ & _ & Hw).
  { repeat constructor. exact Hh. }
  rewrite Hrun in Hrun'. injection Hrun' as -> _. rewrite Hw. reflexivity.
Qed.

Lemma oversize_instance_raises_witness :
  solve_packing 5900 2350 2390 oversize_machine 28000 false 100 zero_draws
  = Raised TypeError.
Proof.
  apply (oversize_instance_raises 5900 2350 2390 28000 "machine"
           6000 2400 2450 900 false 100 zero_draws);
    unfold EPSILON, Qlt; simpl; lia.
Defined.
